(** * A message relay: HTTP front, socket listener, document sink

    Shallow embedding of [src/main.py].  The program is a pair of
    processes: an HTTP server ([SimpleHTTPRequestHandler], [run_http_server])
    which serves pages and forwards submitted forms over TCP, and a socket
    server ([run_socket_server], [handle_socket_connection]) which parses
    each delivery as JSON, stamps it and inserts it in a MongoDB collection.

    Python values are modelled as data ([pyval]), the text type [str] as a
    list of code points, [bytes] as a list of bytes.  Effects (the response
    written to the client, the log, the traffic to the socket server, the
    collection) are threaded explicitly through a small state-and-exception
    monad; exceptions are values of [exc_class] and [try]/[except] clauses are
    handlers selecting on them.

    The library functions the handlers call ([int], [urlparse], [parse_qs],
    [open], [read], [json], [mimetypes.guess_type]) are modelled after
    CPython 3.11 with the tables of Unicode 14.0, on Linux, with the errors
    they raise. *)

From Stdlib Require Import List NArith ZArith Bool Lia Permutation.
From Stdlib.Strings Require Import String Ascii Byte.
From Stdlib Require Import DecimalString.
Import ListNotations.

Set Implicit Arguments.
Set Warnings "-register-all".

(* ================================================================== *)
(** * Text and bytes *)
(* ================================================================== *)

(** A Python [str] is a sequence of code points; [bytes] is a sequence of
    octets. *)
Definition str := list N.
Definition bytes := list byte.

(** Literals of the source are written [txt "..."]: the source literals used
    in the control flow are ASCII. *)
Definition txt (s : string) : str :=
  map N_of_ascii (list_ascii_of_string s).

Definition blit (s : string) : bytes := list_byte_of_string s.

(** For literals that contain double quotes: [qtxt] and [qblit] read every
    apostrophe as a double quote. *)
Definition qtxt (s : string) : str :=
  map (fun c => if (c =? 39)%N then 34%N else c) (txt s).
Definition qblit (s : string) : bytes :=
  map (fun b => match b with x27 => x22 | _ => b end) (blit s).

Fixpoint str_eqb (a b : str) : bool :=
  match a, b with
  | [], [] => true
  | x :: a', y :: b' => N.eqb x y && str_eqb a' b'
  | _, _ => false
  end.

(** [s.startswith(p)] *)
Fixpoint startswith (s p : str) : bool :=
  match p, s with
  | [], _ => true
  | y :: p', x :: s' => N.eqb x y && startswith s' p'
  | _ :: _, [] => false
  end.

(** [s.lower()] on the ASCII range. *)
Definition lower_cp (c : N) : N :=
  if (65 <=? c)%N && (c <=? 90)%N then (c + 32)%N else c.
Definition lower (s : str) : str := map lower_cp s.

(** Python truthiness of a string: the empty string is false. *)
Definition truthy (s : str) : bool :=
  match s with [] => false | _ :: _ => true end.

(** ** UTF-8 *)

Definition is_cont (b : N) : bool := (128 <=? b)%N && (b <=? 191)%N.
Definition in_range (lo hi b : N) : bool := (lo <=? b)%N && (b <=? hi)%N.

(** [decode_cps] is the strict UTF-8 decoder on octet values: overlong
    forms, surrogates, values beyond U+10FFFF and truncated sequences are
    rejected ([None] stands for [UnicodeDecodeError]). *)
Fixpoint decode_cps (bs : list N) : option str :=
  match bs with
  | [] => Some []
  | b0 :: r0 =>
    if (b0 <? 128)%N then option_map (cons b0) (decode_cps r0)
    else if in_range 194 223 b0 then
      match r0 with
      | b1 :: r1 =>
        if is_cont b1
        then option_map (cons ((b0 - 192) * 64 + (b1 - 128))%N) (decode_cps r1)
        else None
      | _ => None
      end
    else if in_range 224 239 b0 then
      match r0 with
      | b1 :: b2 :: r2 =>
        let lo := if (b0 =? 224)%N then 160%N else 128%N in
        let hi := if (b0 =? 237)%N then 159%N else 191%N in
        if in_range lo hi b1 && is_cont b2
        then option_map
               (cons ((b0 - 224) * 4096 + (b1 - 128) * 64 + (b2 - 128))%N)
               (decode_cps r2)
        else None
      | _ => None
      end
    else if in_range 240 244 b0 then
      match r0 with
      | b1 :: b2 :: b3 :: r3 =>
        let lo := if (b0 =? 240)%N then 144%N else 128%N in
        let hi := if (b0 =? 244)%N then 143%N else 191%N in
        if in_range lo hi b1 && is_cont b2 && is_cont b3
        then option_map
               (cons ((b0 - 240) * 262144 + (b1 - 128) * 4096
                      + (b2 - 128) * 64 + (b3 - 128))%N)
               (decode_cps r3)
        else None
      | _ => None
      end
    else None
  end.

(** [b.decode("utf-8")] *)
Definition decode_utf8 (b : bytes) : option str :=
  decode_cps (map Byte.to_N b).

Definition is_surrogate (c : N) : bool := in_range 55296 57343 c.

Definition byte_of_N (n : N) : byte :=
  match Byte.of_N n with Some b => b | None => x00 end.

(** [s.encode("utf-8")]: surrogates and values beyond U+10FFFF cannot be
    encoded ([None] stands for [UnicodeEncodeError]). *)
Fixpoint encode_utf8 (s : str) : option bytes :=
  match s with
  | [] => Some []
  | c :: r =>
    let units :=
      if (c <? 128)%N then Some [c]
      else if (c <? 2048)%N then Some [192 + c / 64; 128 + c mod 64]%N
      else if is_surrogate c then None
      else if (c <? 65536)%N
      then Some [224 + c / 4096; 128 + (c / 64) mod 64; 128 + c mod 64]%N
      else if (c <? 1114112)%N
      then Some [240 + c / 262144; 128 + (c / 4096) mod 64;
                 128 + (c / 64) mod 64; 128 + c mod 64]%N
      else None in
    match units, encode_utf8 r with
    | Some u, Some br => Some (map byte_of_N u ++ br)
    | _, _ => None
    end
  end.

(* ================================================================== *)
(** * Python values *)
(* ================================================================== *)

(** The values that flow through the program: what [json.loads] builds,
    plus the [datetime] stamped by the socket server.  A [float] is kept as
    its literal (its numeric value plays no role in the program). *)
Inductive pyval : Type :=
| PNone
| PBool (b : bool)
| PInt (z : Z)
| PFloat (literal : str)
| PStr (s : str)
| PList (l : list pyval)
| PDict (d : list (str * pyval))
| PDatetime (t : Z).

(** A [dict]: association list in insertion order, keys unique. *)
Definition pydict (V : Type) := list (str * V).

Fixpoint dict_get {V} (d : pydict V) (k : str) : option V :=
  match d with
  | [] => None
  | (k', v) :: d' => if str_eqb k' k then Some v else dict_get d' k
  end.

(** [d[k] = v]: replaces the value of an existing key in place, or appends
    the new key. *)
Fixpoint dict_set {V} (d : pydict V) (k : str) (v : V) : pydict V :=
  match d with
  | [] => [(k, v)]
  | (k', v') :: d' =>
    if str_eqb k' k then (k', v) :: d' else (k', v') :: dict_set d' k v
  end.

(** [d.get(k, default)] *)
Definition dict_get_default {V} (d : pydict V) (k : str) (default : V) : V :=
  match dict_get d k with Some v => v | None => default end.

(* ================================================================== *)
(** * The [json] module *)
(* ================================================================== *)

(** The program calls [json.loads] and [json.dumps] with their defaults.
    They are modelled after CPython's decoder ([Lib/json/decoder.py] and the
    scanner of [Modules/_json.c]) and encoder ([ensure_ascii], separators
    [", "] and [": "]). *)
Module json.

(** Code points of the structural characters. *)
Definition QUOTE : N := 34.
Definition BACKSLASH : N := 92.
Definition ch (a : ascii) : N := N_of_ascii a.

Definition is_ws (c : N) : bool :=
  (c =? 32)%N || (c =? 9)%N || (c =? 10)%N || (c =? 13)%N.

Fixpoint skip_ws (s : str) : str :=
  match s with
  | c :: r => if is_ws c then skip_ws r else s
  | [] => []
  end.

Definition is_digit (c : N) : bool := in_range 48 57 c.

Definition hexval (c : N) : option N :=
  if in_range 48 57 c then Some (c - 48)%N
  else if in_range 97 102 c then Some (c - 87)%N
  else if in_range 65 70 c then Some (c - 55)%N
  else None.

(** Four hexadecimal digits of a [\uXXXX] escape. *)
Definition hex4 (s : str) : option (N * str) :=
  match s with
  | a :: b :: c :: d :: r =>
    match hexval a, hexval b, hexval c, hexval d with
    | Some x, Some y, Some z, Some w =>
      Some ((x * 4096 + y * 256 + z * 16 + w)%N, r)
    | _, _, _, _ => None
    end
  | _ => None
  end.

Definition is_high_surrogate (c : N) : bool := in_range 55296 56319 c.
Definition is_low_surrogate (c : N) : bool := in_range 56320 57343 c.
Definition join_surrogates (hi lo : N) : N :=
  (65536 + (hi - 55296) * 1024 + (lo - 56320))%N.

Definition simple_escape (e : N) : option N :=
  if (e =? QUOTE)%N then Some QUOTE
  else if (e =? BACKSLASH)%N then Some BACKSLASH
  else if (e =? ch "/")%N then Some (ch "/")
  else if (e =? ch "b")%N then Some 8%N
  else if (e =? ch "f")%N then Some 12%N
  else if (e =? ch "n")%N then Some 10%N
  else if (e =? ch "r")%N then Some 13%N
  else if (e =? ch "t")%N then Some 9%N
  else None.

(** [scanstring]: the text after an opening quote, up to the closing one
    (strict mode: a raw control character is an error).  [acc] holds the
    characters read so far, last first. *)
Fixpoint scanstring (fuel : nat) (s : str) (acc : str) : option (str * str) :=
  match fuel with
  | O => None
  | S f =>
    match s with
    | [] => None
    | c :: r =>
      if (c =? QUOTE)%N then Some (rev acc, r)
      else if (c =? BACKSLASH)%N then
        match r with
        | [] => None
        | e :: r1 =>
          if (e =? ch "u")%N then
            match hex4 r1 with
            | None => None
            | Some (u1, r2) =>
              if is_high_surrogate u1 then
                match r2 with
                | b :: u :: r3 =>
                  if (b =? BACKSLASH)%N && (u =? ch "u")%N then
                    match hex4 r3 with
                    | None => None
                    | Some (u2, r4) =>
                      if is_low_surrogate u2
                      then scanstring f r4 (join_surrogates u1 u2 :: acc)
                      else scanstring f r2 (u1 :: acc)
                    end
                  else scanstring f r2 (u1 :: acc)
                | _ => scanstring f r2 (u1 :: acc)
                end
              else scanstring f r2 (u1 :: acc)
            end
          else
            match simple_escape e with
            | Some x => scanstring f r1 (x :: acc)
            | None => None
            end
        end
      else if (c <=? 31)%N then None
      else scanstring f r (c :: acc)
    end
  end.

(** Leading run of decimal digits. *)
Fixpoint span_digits (s : str) : str * str :=
  match s with
  | c :: r =>
    if is_digit c then let (d, r') := span_digits r in (c :: d, r') else ([], s)
  | [] => ([], [])
  end.

Definition digits_value (d : str) : Z :=
  fold_left (fun acc c => (acc * 10 + Z.of_N (c - 48))%Z) d 0%Z.

(** The number scanner: an optional minus sign; an integer part, either a
    single zero or a non-zero digit followed by digits; an optional fraction
    (a dot and at least one digit); an optional exponent (e or E, an optional
    sign, at least one digit).  Without fraction and exponent the result is
    an [int], otherwise a [float]. *)
Definition match_number (s : str) : option (pyval * str) :=
  let (neg, s1) :=
    match s with
    | c :: r => if (c =? ch "-")%N then (true, r) else (false, s)
    | [] => (false, s)
    end in
  let int_part :=
    match s1 with
    | c :: r =>
      if in_range 49 57 c then let (d, r') := span_digits r in Some (c :: d, r')
      else if (c =? 48)%N then Some ([c], r)
      else None
    | [] => None
    end in
  match int_part with
  | None => None
  | Some (ds, s2) =>
    let (frac, s3) :=
      match s2 with
      | p :: d :: r =>
        if (p =? ch ".")%N && is_digit d
        then let (fd, r') := span_digits r in (p :: d :: fd, r')
        else ([], s2)
      | _ => ([], s2)
      end in
    let (ex, s4) :=
      match s3 with
      | e :: r =>
        if (e =? ch "e")%N || (e =? ch "E")%N then
          let (sg, r1) :=
            match r with
            | g :: r' =>
              if (g =? ch "-")%N || (g =? ch "+")%N then ([g], r') else ([], r)
            | [] => ([], r)
            end in
          match span_digits r1 with
          | ([], _) => ([], s3)
          | (ed, r2) => (e :: sg ++ ed, r2)
          end
        else ([], s3)
      | [] => ([], s3)
      end in
    let sign := if neg then [ch "-"] else [] in
    match frac, ex with
    | [], [] =>
      Some (PInt (if neg then - digits_value ds else digits_value ds)%Z, s4)
    | _, _ => Some (PFloat (sign ++ ds ++ frac ++ ex), s4)
    end
  end.

(** Strips a literal prefix: [Some rest] when [s] starts with [p]. *)
Fixpoint strip (p s : str) : option str :=
  match p, s with
  | [], _ => Some s
  | y :: p', x :: s' => if (x =? y)%N then strip p' s' else None
  | _ :: _, [] => None
  end.

(** Members of an object after the opening brace and the whitespace that
    follows it; [scan] is the value scanner. *)
Fixpoint JSONObject (scan : str -> option (pyval * str)) (n : nat)
         (s : str) (acc : pydict pyval) : option (pyval * str) :=
  match n with
  | O => None
  | S n' =>
    match s with
    | q :: r =>
      if (q =? QUOTE)%N then
        match scanstring (List.length r) r [] with
        | None => None
        | Some (key, r1) =>
          match skip_ws r1 with
          | c :: r2 =>
            if (c =? ch ":")%N then
              match scan (skip_ws r2) with
              | None => None
              | Some (v, r3) =>
                let acc' := dict_set acc key v in
                match skip_ws r3 with
                | d :: r4 =>
                  if (d =? ch "}")%N then Some (PDict acc', r4)
                  else if (d =? ch ",")%N
                  then JSONObject scan n' (skip_ws r4) acc'
                  else None
                | [] => None
                end
              end
            else None
          | [] => None
          end
        end
      else None
    | [] => None
    end
  end.

(** Items of an array after the opening bracket and the whitespace that
    follows it. *)
Fixpoint JSONArray (scan : str -> option (pyval * str)) (n : nat)
         (s : str) (acc : list pyval) : option (pyval * str) :=
  match n with
  | O => None
  | S n' =>
    match scan s with
    | None => None
    | Some (v, r1) =>
      match skip_ws r1 with
      | d :: r2 =>
        if (d =? ch "]")%N then Some (PList (rev (v :: acc)), r2)
        else if (d =? ch ",")%N then JSONArray scan n' (skip_ws r2) (v :: acc)
        else None
      | [] => None
      end
    end
  end.

(** [scan_once]: one JSON term at the head of [s].  [fuel] bounds the
    nesting depth; [loads] gives it the length of the text. *)
Fixpoint scan_once (fuel : nat) (s : str) : option (pyval * str) :=
  match fuel with
  | O => None
  | S f =>
    match s with
    | [] => None
    | c :: r =>
      if (c =? QUOTE)%N then
        match scanstring (List.length r) r [] with
        | Some (x, r') => Some (PStr x, r')
        | None => None
        end
      else if (c =? ch "{")%N then
        match skip_ws r with
        | d :: r' =>
          if (d =? ch "}")%N then Some (PDict [], r')
          else JSONObject (scan_once f) (List.length r) (skip_ws r) []
        | [] => None
        end
      else if (c =? ch "[")%N then
        match skip_ws r with
        | d :: r' =>
          if (d =? ch "]")%N then Some (PList [], r')
          else JSONArray (scan_once f) (List.length r) (skip_ws r) []
        | [] => None
        end
      else
        match strip (txt "null") s with
        | Some r' => Some (PNone, r')
        | None =>
        match strip (txt "true") s with
        | Some r' => Some (PBool true, r')
        | None =>
        match strip (txt "false") s with
        | Some r' => Some (PBool false, r')
        | None =>
        match strip (txt "NaN") s with
        | Some r' => Some (PFloat (txt "NaN"), r')
        | None =>
        match strip (txt "Infinity") s with
        | Some r' => Some (PFloat (txt "Infinity"), r')
        | None =>
        match strip (txt "-Infinity") s with
        | Some r' => Some (PFloat (txt "-Infinity"), r')
        | None => match_number s
        end end end end end end
    end
  end.

(** [json.loads(s)]: leading whitespace, one term, trailing whitespace, end
    of text.  [None] stands for [JSONDecodeError]. *)
Definition loads (s : str) : option pyval :=
  match scan_once (S (List.length s)) (skip_ws s) with
  | Some (v, r) => match skip_ws r with [] => Some v | _ :: _ => None end
  | None => None
  end.

(** *** Encoding *)

Definition hexdigit (n : N) : N :=
  if (n <? 10)%N then (48 + n)%N else (87 + n)%N.

(** [\uXXXX], lower-case digits. *)
Definition uescape (n : N) : str :=
  [BACKSLASH; ch "u"; hexdigit (n / 4096); hexdigit ((n / 256) mod 16);
   hexdigit ((n / 16) mod 16); hexdigit (n mod 16)].

(** One character under [ensure_ascii]: everything outside [' '..'~'], the
    quote and the backslash are escaped; a character beyond the BMP becomes
    a surrogate pair. *)
Definition escape_char (c : N) : str :=
  if (c =? QUOTE)%N then [BACKSLASH; QUOTE]
  else if (c =? BACKSLASH)%N then [BACKSLASH; BACKSLASH]
  else if in_range 32 126 c then [c]
  else if (c =? 8)%N then [BACKSLASH; ch "b"]
  else if (c =? 12)%N then [BACKSLASH; ch "f"]
  else if (c =? 10)%N then [BACKSLASH; ch "n"]
  else if (c =? 13)%N then [BACKSLASH; ch "r"]
  else if (c =? 9)%N then [BACKSLASH; ch "t"]
  else if (c <? 65536)%N then uescape c
  else
    let n := (c - 65536)%N in
    uescape (55296 + (n / 1024) mod 1024) ++ uescape (56320 + n mod 1024).

Definition encode_basestring_ascii (s : str) : str :=
  QUOTE :: flat_map escape_char s ++ [QUOTE].

Definition int_repr (z : Z) : str := txt (NilZero.string_of_int (Z.to_int z)).

(** [json.dumps(v)] with the default separators.  [None] stands for the
    [TypeError] raised on a value that is not serializable. *)
Fixpoint dumps (v : pyval) : option str :=
  match v with
  | PNone => Some (txt "null")
  | PBool true => Some (txt "true")
  | PBool false => Some (txt "false")
  | PInt z => Some (int_repr z)
  | PFloat l => Some l
  | PStr s => Some (encode_basestring_ascii s)
  | PList l =>
    let fix items (first : bool) (l : list pyval) : option str :=
      match l with
      | [] => Some []
      | x :: l' =>
        match dumps x, items false l' with
        | Some sx, Some sr =>
          Some ((if first then [] else txt ", ") ++ sx ++ sr)
        | _, _ => None
        end
      end in
    match items true l with
    | Some body => Some (ch "[" :: body ++ [ch "]"])
    | None => None
    end
  | PDict d =>
    let fix items (first : bool) (d : list (str * pyval)) : option str :=
      match d with
      | [] => Some []
      | (k, x) :: d' =>
        match dumps x, items false d' with
        | Some sx, Some sr =>
          Some ((if first then [] else txt ", ")
                ++ encode_basestring_ascii k ++ txt ": " ++ sx ++ sr)
        | _, _ => None
        end
      end in
    match items true d with
    | Some body => Some (ch "{" :: body ++ [ch "}"])
    | None => None
    end
  | PDatetime _ => None
  end.

End json.


(* ================================================================== *)
(** * Exceptions and the effect monad *)
(* ================================================================== *)

(** The exception classes that can be raised along the modelled paths. *)
Inductive exc_class : Type :=
| Exception
| OSError | FileNotFoundError | IsADirectoryError | NotADirectoryError
| PermissionError | ConnectionError | ConnectionRefusedError
| ConnectionResetError | BrokenPipeError | TimeoutError
| TypeError | ValueError | UnicodeDecodeError | UnicodeEncodeError
| JSONDecodeError | RuntimeError | RecursionError | OverflowError
| PyMongoError | ConnectionFailure | AutoReconnect
| ServerSelectionTimeoutError | OperationFailure | WriteError
| DuplicateKeyError | InvalidDocument | IndexError | MemoryError.

(** The direct base class. *)
Definition base (c : exc_class) : option exc_class :=
  match c with
  | Exception => None
  | FileNotFoundError | IsADirectoryError | NotADirectoryError
  | PermissionError | ConnectionError | TimeoutError => Some OSError
  | ConnectionRefusedError | ConnectionResetError | BrokenPipeError =>
    Some ConnectionError
  | UnicodeDecodeError | UnicodeEncodeError | JSONDecodeError => Some ValueError
  | RecursionError => Some RuntimeError
  | ConnectionFailure | OperationFailure | InvalidDocument => Some PyMongoError
  | AutoReconnect => Some ConnectionFailure
  | ServerSelectionTimeoutError => Some AutoReconnect
  | WriteError => Some OperationFailure
  | DuplicateKeyError => Some WriteError
  | OSError | TypeError | ValueError | RuntimeError | OverflowError
  | PyMongoError | IndexError | MemoryError => Some Exception
  end.

Definition exc_eqb (a b : exc_class) : bool :=
  match a, b with
  | Exception, Exception | OSError, OSError
  | FileNotFoundError, FileNotFoundError
  | IsADirectoryError, IsADirectoryError
  | NotADirectoryError, NotADirectoryError
  | PermissionError, PermissionError | ConnectionError, ConnectionError
  | ConnectionRefusedError, ConnectionRefusedError
  | ConnectionResetError, ConnectionResetError
  | BrokenPipeError, BrokenPipeError | TimeoutError, TimeoutError
  | TypeError, TypeError | ValueError, ValueError
  | UnicodeDecodeError, UnicodeDecodeError
  | UnicodeEncodeError, UnicodeEncodeError
  | JSONDecodeError, JSONDecodeError | RuntimeError, RuntimeError
  | RecursionError, RecursionError | OverflowError, OverflowError
  | PyMongoError, PyMongoError | ConnectionFailure, ConnectionFailure
  | AutoReconnect, AutoReconnect
  | ServerSelectionTimeoutError, ServerSelectionTimeoutError
  | OperationFailure, OperationFailure | WriteError, WriteError
  | DuplicateKeyError, DuplicateKeyError
  | InvalidDocument, InvalidDocument | IndexError, IndexError
  | MemoryError, MemoryError => true
  | _, _ => false
  end.

(** [issubclass a b]; the hierarchy is at most five levels deep. *)
Fixpoint climbs (n : nat) (a b : exc_class) : bool :=
  exc_eqb a b ||
  match n with
  | O => false
  | S n' => match base a with Some p => climbs n' p b | None => false end
  end.
Definition issubclass (a b : exc_class) : bool := climbs 5 a b.

Inductive result (A : Type) : Type :=
| Ok (a : A)
| Raise (e : exc_class).
Arguments Ok {A} a.
Arguments Raise {A} e.

(** A computation over a state [S] that returns or raises. *)
Definition M (S A : Type) : Type := S -> result A * S.

Definition ret {S A} (a : A) : M S A := fun s => (Ok a, s).
Definition raise {S A} (e : exc_class) : M S A := fun s => (Raise e, s).
Definition bind {S A B} (c : M S A) (k : A -> M S B) : M S B :=
  fun s => match c s with
           | (Ok a, s') => k a s'
           | (Raise e, s') => (Raise e, s')
           end.
Definition modify {S} (f : S -> S) : M S unit := fun s => (Ok tt, f s).
Definition lift {S A} (r : result A) : M S A := fun s => (r, s).

(** [try: c  except cls as e: h e] *)
Definition try_except {S A} (c : M S A) (cls : exc_class)
           (h : exc_class -> M S A) : M S A :=
  fun s => match c s with
           | (Raise e, s') =>
             if issubclass e cls then h e s' else (Raise e, s')
           | r => r
           end.

(** [try: c  finally: f] (also the exit of a [with] block). *)
Definition try_finally {S A} (c : M S A) (f : M S unit) : M S A :=
  fun s => match c s with
           | (r, s') =>
             match f s' with
             | (Ok _, s'') => (r, s'')
             | (Raise e, s'') => (Raise e, s'')
             end
           end.

Declare Scope py_scope.
Delimit Scope py_scope with py.
Notation "x <- c ;; k" := (bind c (fun x => k))
  (at level 61, c at next level, right associativity) : py_scope.
Notation "c ;; k" := (bind c (fun _ => k))
  (at level 61, right associativity) : py_scope.
Local Open Scope py_scope.

(** ** Logging *)

Inductive level : Type := INFO | ERROR.

(** The messages the program logs, by call site. *)
Inductive log_msg : Type :=
| MissingFields                               (* send_to_socket, validation *)
| SendFailed (e : exc_class)                  (* send_to_socket, transport *)
| MongoConnected                              (* run_socket_server *)
| MongoUnreachable                            (* run_socket_server *)
| SocketServerStarted (host : str) (port : Z) (* run_socket_server *)
| Saved (message : pydict pyval)              (* handle_socket_connection *)
| InsertFailed (e : exc_class)                (* handle_socket_connection *)
| RequestFailed (addr : str * Z) (e : exc_class) (* handle_socket_connection *)
| HttpServerStarted (host : str) (port : Z).  (* run_http_server *)

Definition log_record : Type := level * log_msg.

(** ** Configuration ([config.py]) *)

Record Config : Type := {
  HTTP_HOST : str;
  HTTP_PORT : Z;
  SOCKET_HOST : str;
  SOCKET_PORT : Z;
  MONGO_URI : str;
  DB_NAME : str;
  COLLECTION_NAME : str
}.

(* ================================================================== *)
(** * Library functions used by the HTTP handler *)
(* ================================================================== *)

(** ** String helpers *)

Definition mem_cp (c : N) (l : str) : bool := existsb (N.eqb c) l.

(** [s.split(sep, 1)] at the first occurrence: [None] when [sep] does not
    occur. *)
Fixpoint split_first (sep : N) (s : str) : option (str * str) :=
  match s with
  | [] => None
  | c :: r =>
    if (c =? sep)%N then Some ([], r)
    else match split_first sep r with
         | Some (a, b) => Some (c :: a, b)
         | None => None
         end
  end.

(** [s.split(sep)] *)
Fixpoint split_all (sep : N) (s : str) : list str :=
  match s with
  | [] => [[]]
  | c :: r =>
    match split_all sep r with
    | h :: t => if (c =? sep)%N then [] :: h :: t else (c :: h) :: t
    | [] => [[c]]
    end
  end.

(** Splits before the first character of [delims]. *)
Fixpoint break_at (delims : str) (s : str) : str * str :=
  match s with
  | [] => ([], [])
  | c :: r =>
    if mem_cp c delims then ([], s)
    else let (a, b) := break_at delims r in (c :: a, b)
  end.

Fixpoint lstrip_by (p : N -> bool) (s : str) : str :=
  match s with
  | c :: r => if p c then lstrip_by p r else s
  | [] => []
  end.

Definition strip_by (p : N -> bool) (s : str) : str :=
  rev (lstrip_by p (rev (lstrip_by p s))).

(** ** [int()] *)

(** [int] of a string works on an ASCII copy of it
    ([_PyUnicode_TransformDecimalAndSpaceToASCII]): an ASCII string is taken
    as it is; in any other string white space becomes a space and a decimal
    digit its ASCII digit, and the copy ends, with a question mark, at the
    first character from U+007F on which is neither. *)

(** White space from U+007F on ([Py_UNICODE_ISSPACE]). *)
Definition is_unicode_space (c : N) : bool :=
  (c =? 133)%N || (c =? 160)%N || (c =? 5760)%N || in_range 8192 8202 c
  || (c =? 8232)%N || (c =? 8233)%N || (c =? 8239)%N || (c =? 8287)%N
  || (c =? 12288)%N.

(** The decimal digits of Unicode 14.0 come in runs of ten, from zero to
    nine; these are the zeros. *)
Definition decimal_zeros : list N :=
  [48; 1632; 1776; 1984; 2406; 2534; 2662; 2790; 2918; 3046; 3174; 3302;
   3430; 3558; 3664; 3792; 3872; 4160; 4240; 6112; 6160; 6470; 6608; 6784;
   6800; 6992; 7088; 7232; 7248; 42528; 43216; 43264; 43472; 43504; 43600;
   44016; 65296; 66720; 68912; 69734; 69872; 69942; 70096; 70384; 70736;
   70864; 71248; 71360; 71472; 71904; 72016; 72784; 73040; 73120; 92768;
   92864; 93008; 120782; 120792; 120802; 120812; 120822; 123200; 123632;
   125264; 130032]%N.

(** [Py_UNICODE_TODECIMAL] *)
Definition to_decimal (c : N) : option N :=
  match find (fun z => in_range z (z + 9) c) decimal_zeros with
  | Some z => Some (c - z)%N
  | None => None
  end.

Fixpoint transform_decimal (s : str) : str :=
  match s with
  | [] => []
  | c :: r =>
    if (c <? 127)%N then c :: transform_decimal r
    else if is_unicode_space c then 32%N :: transform_decimal r
    else match to_decimal c with
         | Some d => (48 + d)%N :: transform_decimal r
         | None => [63%N]
         end
  end.

Definition to_ascii_literal (s : str) : str :=
  if forallb (fun c => (c <? 128)%N) s then s else transform_decimal s.

(** White space around the literal ([Py_ISSPACE]). *)
Definition is_space (c : N) : bool := in_range 9 13 c || (c =? 32)%N.

(** Digits with single underscores allowed between them. *)
Fixpoint int_digits (s : str) (acc : Z) (after_digit : bool) : option Z :=
  match s with
  | [] => if after_digit then Some acc else None
  | c :: r =>
    if json.is_digit c then int_digits r (acc * 10 + Z.of_N (c - 48))%Z true
    else if (c =? 95)%N && after_digit then int_digits r acc false
    else None
  end.

(** The default of [sys.get_int_max_str_digits()]. *)
Definition int_max_str_digits : nat := 4300.

(** [int(x)]: [None] (a missing header) is a [TypeError]; a string which is
    not a decimal literal - white space, an optional sign, digits with
    single underscores between them, white space - or which has more
    digits than the conversion limit is a [ValueError]. *)
Definition py_int (x : option str) : result Z :=
  match x with
  | None => Raise TypeError
  | Some s =>
    let body := strip_by is_space (to_ascii_literal s) in
    let (neg, ds) :=
      match body with
      | c :: r =>
        if (c =? 45)%N then (true, r)
        else if (c =? 43)%N then (false, r) else (false, body)
      | [] => (false, body)
      end in
    match int_digits ds 0%Z false with
    | Some z =>
      if (List.length (filter json.is_digit ds) <=? int_max_str_digits)%nat
      then Ok (if neg then - z else z)%Z
      else Raise ValueError
    | None => Raise ValueError
    end
  end.

(** ** [urllib.parse] *)

(** [parse_qs] and [urlparse] with their defaults, after [Lib/urllib/parse.py]
    of CPython 3.11 (fields are separated by [&] only). *)
Module urllib.

(** [bytes.decode("utf-8", "replace")] on octet values: each maximal
    ill-formed subsequence becomes U+FFFD. *)
Fixpoint decode_replace (bs : list N) : str :=
  match bs with
  | [] => []
  | b0 :: r0 =>
    if (b0 <? 128)%N then b0 :: decode_replace r0
    else if in_range 194 223 b0 then
      match r0 with
      | b1 :: r1 =>
        if is_cont b1
        then ((b0 - 192) * 64 + (b1 - 128))%N :: decode_replace r1
        else 65533%N :: decode_replace r0
      | [] => [65533%N]
      end
    else if in_range 224 239 b0 then
      let lo := if (b0 =? 224)%N then 160%N else 128%N in
      let hi := if (b0 =? 237)%N then 159%N else 191%N in
      match r0 with
      | b1 :: r1 =>
        if in_range lo hi b1 then
          match r1 with
          | b2 :: r2 =>
            if is_cont b2
            then ((b0 - 224) * 4096 + (b1 - 128) * 64 + (b2 - 128))%N
                   :: decode_replace r2
            else 65533%N :: decode_replace r1
          | [] => [65533%N]
          end
        else 65533%N :: decode_replace r0
      | [] => [65533%N]
      end
    else if in_range 240 244 b0 then
      let lo := if (b0 =? 240)%N then 144%N else 128%N in
      let hi := if (b0 =? 244)%N then 143%N else 191%N in
      match r0 with
      | b1 :: r1 =>
        if in_range lo hi b1 then
          match r1 with
          | b2 :: r2 =>
            if is_cont b2 then
              match r2 with
              | b3 :: r3 =>
                if is_cont b3
                then ((b0 - 240) * 262144 + (b1 - 128) * 4096
                      + (b2 - 128) * 64 + (b3 - 128))%N :: decode_replace r3
                else 65533%N :: decode_replace r2
              | [] => [65533%N]
              end
            else 65533%N :: decode_replace r1
          | [] => [65533%N]
          end
        else 65533%N :: decode_replace r0
      | [] => [65533%N]
      end
    else 65533%N :: decode_replace r0
  end.

(** Percent-decoding of an ASCII run into octets: [%XX] with two
    hexadecimal digits is one octet, any other [%] is kept. *)
Fixpoint unquote_to_bytes (s : str) : list N :=
  match s with
  | [] => []
  | c :: r =>
    if (c =? 37)%N then
      match r with
      | a :: b :: r' =>
        match json.hexval a, json.hexval b with
        | Some x, Some y => (x * 16 + y)%N :: unquote_to_bytes r'
        | _, _ => c :: unquote_to_bytes r
        end
      | _ => c :: unquote_to_bytes r
      end
    else c :: unquote_to_bytes r
  end.

(** [unquote(s, encoding="utf-8", errors="replace")]: every maximal ASCII
    run is percent-decoded and decoded as UTF-8; other characters are kept.
    [run] holds the current ASCII run, last character first. *)
Fixpoint unquote_from (s : str) (run : str) : str :=
  match s with
  | [] => decode_replace (unquote_to_bytes (rev run))
  | c :: r =>
    if (c <? 128)%N then unquote_from r (c :: run)
    else decode_replace (unquote_to_bytes (rev run)) ++ c :: unquote_from r []
  end.
Definition unquote (s : str) : str := unquote_from s [].

(** [s.replace("+", " ")] *)
Definition plus_to_space (s : str) : str :=
  map (fun c => if (c =? 43)%N then 32%N else c) s.

(** [parse_qsl(qs)] with the defaults: fields without [=] and fields with
    a blank value are dropped. *)
Definition parse_qsl (qs : str) : list (str * str) :=
  match qs with
  | [] => []
  | _ :: _ =>
    flat_map
      (fun name_value =>
         match split_first 61 name_value with
         | None => []
         | Some (n, v) =>
           match v with
           | [] => []
           | _ :: _ => [(unquote (plus_to_space n), unquote (plus_to_space v))]
           end
         end)
      (split_all 38 qs)
  end.

(** [parse_qs(qs)]: the values of a repeated name are collected in order. *)
Definition parse_qs (qs : str) : pydict (list str) :=
  fold_left
    (fun parsed nv =>
       match dict_get parsed (fst nv) with
       | Some vs => dict_set parsed (fst nv) (vs ++ [snd nv])
       | None => dict_set parsed (fst nv) [snd nv]
       end)
    (parse_qsl qs) [].

(** Characters of a URL scheme: letters, digits, [+], [-], [.]. *)
Definition is_scheme_char (c : N) : bool :=
  in_range 97 122 c || in_range 65 90 c || in_range 48 57 c
  || (c =? 43)%N || (c =? 45)%N || (c =? 46)%N.

Definition is_alpha (c : N) : bool := in_range 97 122 c || in_range 65 90 c.

(** Schemes whose last path segment may carry [;parameters]. *)
Definition uses_params : list str :=
  map txt [""; "ftp"; "hdl"; "prospero"; "http"; "imap"; "https"; "shttp";
           "rtsp"; "rtspu"; "sip"; "sips"; "mms"; "sftp"; "tel"]%string.

(** Drops [;parameters] from the last path segment. *)
Definition drop_params (url : str) : str :=
  let segs := split_all 47 url in
  match rev segs with
  | last :: before =>
    let last' := fst (break_at [59%N] last) in
    let joined :=
      fold_right (fun seg acc => seg ++ 47%N :: acc) last' (rev before) in
    joined
  | [] => url
  end.

(** *** The host between square brackets

    [urlsplit] accepts a netloc with square brackets only when they hold
    an IPv6 or an IPvFuture address ([_check_bracketed_netloc],
    [_check_bracketed_host], and [ipaddress] for the former). *)

Definition is_empty (s : str) : bool :=
  match s with [] => true | _ :: _ => false end.

Definition is_hex (c : N) : bool :=
  in_range 48 57 c || in_range 97 102 c || in_range 65 70 c.

(** [s.rpartition(sep)[2]]: what follows the last [sep], the whole of [s]
    without one. *)
Fixpoint after_last (sep : N) (s : str) : str :=
  match s with
  | [] => []
  | c :: r =>
    if mem_cp sep r then after_last sep r
    else if (c =? sep)%N then r else s
  end.

(** [IPv4Address._parse_octet]: one to three ASCII digits without a
    leading zero, at most 255. *)
Definition octet_ok (o : str) : bool :=
  match o with
  | [] => false
  | c :: r =>
    forallb json.is_digit o && (List.length o <=? 3)%nat
    && (negb (c =? 48)%N || is_empty r)
    && (json.digits_value o <=? 255)%Z
  end.

(** [IPv4Address(s)] succeeds. *)
Definition ipv4_ok (s : str) : bool :=
  negb (mem_cp 47 s) && negb (is_empty s)
  && (List.length (split_all 46 s) =? 4)%nat
  && forallb octet_ok (split_all 46 s).

(** [IPv6Address._parse_hextet]: one to four hexadecimal digits. *)
Definition hextet_ok (h : str) : bool :=
  forallb is_hex h && (List.length h <=? 4)%nat && negb (is_empty h).

(** The positions, counted from [i], of the empty parts. *)
Fixpoint empty_indices (i : nat) (parts : list str) : list nat :=
  match parts with
  | [] => []
  | p :: r =>
    (if is_empty p then [i] else []) ++ empty_indices (S i) r
  end.

(** [IPv6Address._ip_int_from_string] succeeds on the parts between the
    colons, an IPv4 suffix already replaced by its two hextets. *)
Definition hextets_ok (parts : list str) : bool :=
  let n := List.length parts in
  (n <=? 9)%nat &&
  match empty_indices 1 (removelast (tl parts)) with
  | [] => (n =? 8)%nat && forallb hextet_ok parts
  | [skip_index] =>
    let parts_hi := if is_empty (hd [] parts) then skip_index - 1
                    else skip_index in
    let parts_lo := if is_empty (last parts []) then n - skip_index - 1 - 1
                    else n - skip_index - 1 in
    (negb (is_empty (hd [] parts)) || (skip_index - 1 =? 0)%nat)
    && (negb (is_empty (last parts [])) || (n - skip_index - 1 - 1 =? 0)%nat)
    && (parts_hi + parts_lo <=? 7)%nat
    && forallb hextet_ok (firstn parts_hi parts)
    && forallb hextet_ok (skipn (n - parts_lo) parts)
  | _ => false
  end.

(** [IPv6Address(s)] succeeds: an optional [%scope], at least two colons,
    an optional IPv4 suffix, at most one [::]. *)
Definition ipv6_ok (s : str) : bool :=
  negb (mem_cp 47 s) &&
  let (scope_ok, addr) :=
    match split_first 37 s with
    | Some (addr, scope) =>
      (negb (is_empty scope) && negb (mem_cp 37 scope), addr)
    | None => (true, s)
    end in
  scope_ok && negb (is_empty addr) &&
  let parts := split_all 58 addr in
  (3 <=? List.length parts)%nat &&
  if mem_cp 46 (last parts [])
  then ipv4_ok (last parts [])
       && hextets_ok (removelast parts ++ [[48%N]; [48%N]])
  else hextets_ok parts.

(** The match of [v[a-fA-F0-9]+\..+] against the whole of a host that
    starts with [v]. *)
Definition ipvfuture_ok (h : str) : bool :=
  match tl h with
  | c0 :: _ =>
    is_hex c0 &&
    match lstrip_by is_hex (tl h) with
    | c :: t => (c =? 46)%N && negb (is_empty t) && negb (mem_cp 10 t)
    | [] => false
    end
  | [] => false
  end.

(** [_check_bracketed_host] passes: [ip_address] gives an IPv6 address (an
    IPv4 address is refused, and no text is both). *)
Definition bracketed_host_ok (h : str) : bool :=
  match h with
  | 118%N :: _ => ipvfuture_ok h
  | _ => ipv6_ok h
  end.

(** [_check_bracketed_netloc] passes: nothing before the bracket, nothing
    but a port after it. *)
Definition bracketed_netloc_ok (netloc : str) : bool :=
  let hostname_and_port := after_last 64 netloc in
  match split_first 91 hostname_and_port with
  | Some (before_bracket, bracketed) =>
    is_empty before_bracket &&
    let (hostname, port) :=
      match split_first 93 bracketed with
      | Some hp => hp
      | None => (bracketed, [])
      end in
    match port with
    | [] => bracketed_host_ok hostname
    | c :: _ => (c =? 58)%N && bracketed_host_ok hostname
    end
  | None =>
    bracketed_host_ok
      (match split_first 58 hostname_and_port with
       | Some (hostname, _) => hostname
       | None => hostname_and_port
       end)
  end.

(** The characters beyond ASCII whose NFKC form (Unicode 14.0) holds one of
    [/?#@:]; [_checknetloc] refuses a netloc with one of them. *)
Definition nfkc_delimiters : list N :=
  [8263; 8264; 8265; 8448; 8449; 8453; 8454; 10868; 65043; 65046; 65109;
   65110; 65119; 65131; 65283; 65295; 65306; 65311; 65312]%N.

Definition checknetloc_ok (netloc : str) : bool :=
  negb (existsb (fun c => mem_cp c nfkc_delimiters) netloc).

(** [urlparse(url).path].  A scheme and a [//netloc] are split off, then the
    fragment, the query and the parameters of the last segment.  A netloc
    with an unmatched square bracket, with brackets around something else
    than an IPv6 or IPvFuture address, or with a character that normalises
    to a delimiter is a [ValueError]. *)
Definition urlparse_path (url : str) : result str :=
  let url := lstrip_by (fun c => (c <=? 32)%N) url in
  let url :=
    filter (fun c => negb ((c =? 9)%N || (c =? 10)%N || (c =? 13)%N)) url in
  let (scheme, url) :=
    match split_first 58 url with
    | Some (c :: s', rest) =>
      if is_alpha c && forallb is_scheme_char (c :: s')
      then (lower (c :: s'), rest) else ([], url)
    | _ => ([], url)
    end in
  let (netloc, url) :=
    match url with
    | a :: b :: r =>
      if (a =? 47)%N && (b =? 47)%N then break_at (txt "/?#") r else ([], url)
    | _ => ([], url)
    end in
  if xorb (mem_cp 91 netloc) (mem_cp 93 netloc) then Raise ValueError
  else if mem_cp 91 netloc && negb (bracketed_netloc_ok netloc)
  then Raise ValueError
  else if negb (checknetloc_ok netloc) then Raise ValueError
  else
    let url := fst (break_at [35%N] url) in
    let url := fst (break_at [63%N] url) in
    Ok (if existsb (str_eqb scheme) uses_params then drop_params url else url).

End urllib.


(** ** [mimetypes] *)

(** The tables of the [mimetypes] module (they are read from the system at
    start-up, so they are a parameter of the model). *)
Record Mime : Type := {
  suffix_map : pydict str;
  encodings_map : pydict str;
  types_map : pydict str
}.

(** [posixpath.splitext]: the extension starts at the last dot of the last
    path component, leading dots of the component apart. *)
Definition splitext (p : str) : str * str :=
  let (rext, rrest) := break_at [46%N; 47%N] (rev p) in
  match rrest with
  | c :: rbase =>
    if (c =? 46)%N
       && existsb (fun x => negb (x =? 46)%N) (fst (break_at [47%N] rbase))
    then (rev rbase, 46%N :: rev rext)
    else (p, [])
  | [] => (p, [])
  end.

(** The loop of [guess_type] over the suffix table. *)
Fixpoint resolve_suffix (m : Mime) (n : nat) (base ext : str)
  : option (str * str) :=
  match dict_get (suffix_map m) (lower ext) with
  | None => Some (base, ext)
  | Some repl =>
    match n with
    | O => None
    | S n' =>
      let (base', ext') := splitext (base ++ repl) in
      resolve_suffix m n' base' ext'
    end
  end.

(** [mimetypes.guess_type(path)[0]] for a file path (a path without URL
    scheme, which is what a route below [/static/] gives). *)
Definition guess_type (m : Mime) (url : str) : option str :=
  let (base, ext) := splitext url in
  match resolve_suffix m (List.length (suffix_map m)) base ext with
  | None => None
  | Some (base, ext) =>
    let ext :=
      match dict_get (encodings_map m) ext with
      | Some _ => snd (splitext base)
      | None => ext
      end in
    dict_get (types_map m) (lower ext)
  end.

(** ** The file system *)

(** A regular file, with its content and whether the process may read
    it; a special file, which can be opened and whose [read] fails with an
    error (a device, [/proc/self/mem]); a directory. *)
Inductive node : Type :=
| File (readable : bool) (content : bytes)
| Special (e : exc_class)
| Dir (entries : list (str * node)).

(** A file system: the tree under the root directory and the working
    directory of the process, as a list of names from the root. *)
Record FS : Type := {
  tree : node;
  cwd : list str
}.

Fixpoint lookup (p : list str) (n : node) : option node :=
  match p with
  | [] => Some n
  | c :: p' =>
    match n with
    | Dir es =>
      match dict_get es c with
      | Some n' => lookup p' n'
      | None => None
      end
    | File _ _ | Special _ => None
    end
  end.

(** The number of bytes of a path for the operating system
    ([os.fsencode]: UTF-8, a surrogate from U+DC80 to U+DCFF standing for
    one byte); [None] when the path cannot be encoded. *)
Definition fs_units (c : N) : option N :=
  if (c <? 128)%N then Some 1%N
  else if (c <? 2048)%N then Some 2%N
  else if in_range 56448 56575 c then Some 1%N
  else if is_surrogate c then None
  else if (c <? 65536)%N then Some 3%N
  else if (c <? 1114112)%N then Some 4%N
  else None.

Fixpoint fs_length (s : str) : option N :=
  match s with
  | [] => Some 0%N
  | c :: r =>
    match fs_units c, fs_length r with
    | Some n, Some m => Some (n + m)%N
    | _, _ => None
    end
  end.

(** The limits of Linux on a file name and on a path, in bytes. *)
Definition NAME_MAX : N := 255.
Definition PATH_MAX : N := 4096.

Definition name_too_long (c : str) : bool :=
  match fs_length c with
  | Some n => (NAME_MAX <? n)%N
  | None => false
  end.

(** One component of a path, from the directory at [cur]. *)
Definition walk_step (t : node) (cur : list str) (c : str)
  : result (list str) :=
  match lookup cur t with
  | Some (Dir _) =>
    if str_eqb c [] || str_eqb c (txt ".") then Ok cur
    else if str_eqb c (txt "..") then Ok (removelast cur)
    else if name_too_long c then Raise OSError
    else match lookup (cur ++ [c]) t with
         | Some _ => Ok (cur ++ [c])
         | None => Raise FileNotFoundError
         end
  | Some (File _ _) | Some (Special _) => Raise NotADirectoryError
  | None => Raise FileNotFoundError
  end.

Fixpoint walk (t : node) (cur : list str) (cs : list str)
  : result (list str) :=
  match cs with
  | [] => Ok cur
  | c :: cs' =>
    match walk_step t cur c with
    | Ok cur' => walk t cur' cs'
    | Raise e => Raise e
    end
  end.

(** Where a path leads: the location, from the root, of the entry it
    names.  A path which cannot be encoded is a [UnicodeEncodeError], one
    with a null character a [ValueError], one of [PATH_MAX] bytes or more
    an [OSError] (name too long), before any component is looked up. *)
Definition resolve (fs : FS) (path : str) : result (list str) :=
  match fs_length path with
  | None => Raise UnicodeEncodeError
  | Some n =>
    if mem_cp 0 path then Raise ValueError
    else if (PATH_MAX <=? n)%N then Raise OSError
    else
      match path with
      | [] => Raise FileNotFoundError
      | c :: _ =>
        walk (tree fs) (if (c =? 47)%N then [] else cwd fs)
             (split_all 47 path)
      end
  end.

(** An open file: what [read()] on it gives. *)
Record handle : Type := { on_read : result bytes }.

(** [open(path, "rb")] *)
Definition open_file (fs : FS) (path : str) : result handle :=
  match resolve fs path with
  | Raise e => Raise e
  | Ok loc =>
    match lookup loc (tree fs) with
    | Some (File true content) => Ok {| on_read := Ok content |}
    | Some (File false _) => Raise PermissionError
    | Some (Special e) => Ok {| on_read := Raise e |}
    | Some (Dir _) => Raise IsADirectoryError
    | None => Raise FileNotFoundError
    end
  end.

(** [file.read()] *)
Definition file_read (file : handle) : result bytes := on_read file.

(** [open(path, "rb")] followed by [read()]: the content of the file, or
    what the first of the two to fail raises. *)
Definition open_rb (fs : FS) (path : str) : result bytes :=
  match open_file fs path with
  | Ok file => file_read file
  | Raise e => Raise e
  end.

(** [loc] lies below the directory [dir]. *)
Fixpoint below (dir loc : list str) : bool :=
  match dir, loc with
  | [], _ => true
  | d :: dir', l :: loc' => str_eqb d l && below dir' loc'
  | _ :: _, [] => false
  end.

(* ================================================================== *)
(** * The HTTP front: [SimpleHTTPRequestHandler] *)
(* ================================================================== *)

(** What the handler hands to [BaseHTTPRequestHandler] for the client, in
    call order. *)
Inductive wire : Type :=
| SendResponse (code : Z)
| SendHeader (keyword value : str)
| EndHeaders
| WfileWrite (data : bytes).

(** The socket calls of the client role. *)
Inductive net_event : Type :=
| SockOpen
| SockConnect (host : str) (port : Z)
| SockSendall (payload : bytes)
| SockClose.

(** How the socket server answers a delivery. *)
Inductive Transport : Type :=
| Reachable
| ConnectFails (e : exc_class)
| SendFails (e : exc_class).

(** State of one request: what was written to the client, what was logged
    and the traffic towards the socket server. *)
Record HState : Type := {
  wfile : list wire;
  hlog : list log_record;
  net : list net_event
}.

Definition HState0 : HState := {| wfile := []; hlog := []; net := [] |}.

(** The request as the handler sees it. *)
Record Request : Type := {
  path : str;
  headers : list (str * str);
  rfile : bytes
}.

(** The surroundings of the handler. [frames] is the number of stack frames
    left when the handler method is entered (the interpreter's recursion
    limit); [memory] is the size in bytes up to which a buffer can be
    allocated for a read. *)
Record HEnv : Type := {
  cfg : Config;
  fs : FS;
  mime : Mime;
  transport : Transport;
  frames : nat;
  memory : Z
}.

Definition emit (w : wire) : M HState unit :=
  modify (fun s => {| wfile := wfile s ++ [w]; hlog := hlog s; net := net s |}).
Definition logging (l : level) (m : log_msg) : M HState unit :=
  modify (fun s =>
            {| wfile := wfile s; hlog := hlog s ++ [(l, m)]; net := net s |}).
Definition sock (e : net_event) : M HState unit :=
  modify (fun s => {| wfile := wfile s; hlog := hlog s; net := net s ++ [e] |}).

Definition send_response (code : Z) : M HState unit := emit (SendResponse code).
Definition send_header (k v : str) : M HState unit := emit (SendHeader k v).
Definition end_headers : M HState unit := emit EndHeaders.
Definition wfile_write (b : bytes) : M HState unit := emit (WfileWrite b).

(** [self.headers.get(name)]: header names compare without case; the first
    match is returned. *)
Fixpoint headers_get (hs : list (str * str)) (name : str) : option str :=
  match hs with
  | [] => None
  | (k, v) :: hs' =>
    if str_eqb (lower k) (lower name) then Some v else headers_get hs' name
  end.

(** [self.rfile.read(n)] on the buffered reader of the connection, for a
    client that sends [body] and nothing more: up to [n] bytes of the body,
    all of it for [-1].  Another negative [n] is a [ValueError]; an [n]
    which is no index, or too large for a byte string, an [OverflowError];
    an [n] beyond the buffer of the reader (8192 bytes) for which no memory
    can be had a [MemoryError]. *)
Definition rfile_read (memory : Z) (body : bytes) (n : Z) : result bytes :=
  if (n <? - 2 ^ 63)%Z || (2 ^ 63 - 33 <=? n)%Z then Raise OverflowError
  else if (n <? -1)%Z then Raise ValueError
  else if (n =? -1)%Z then Ok body
  else if (n <=? Z.max 8192 memory)%Z
  then Ok (firstn (Z.to_nat (Z.min n (Z.of_nat (List.length body)))) body)
  else Raise MemoryError.

(** [x or default] on an optional string. *)
Definition py_or (x : option str) (default : str) : str :=
  match x with
  | Some (c :: r) => c :: r
  | _ => default
  end.

(** [l[0]] *)
Definition index0 {S} (l : list str) : M S str :=
  match l with
  | x :: _ => ret x
  | [] => raise IndexError
  end.

Section Handler.

Variable env : HEnv.
Variable self : Request.

(** [send_html_file] and [send_error_page] call each other; [depth] is the
    number of stack frames left. *)
Fixpoint send_html_file (depth : nat) (filename : str) (status_code : Z)
  : M HState unit :=
  match depth with
  | O => raise RecursionError
  | S d =>
    try_except
      (file <- lift (open_file (fs env) filename) ;;
       send_response status_code ;;
       send_header (txt "Content-type") (txt "text/html") ;;
       end_headers ;;
       data <- lift (file_read file) ;;
       wfile_write data)
      FileNotFoundError
      (fun _ =>
         (* self.send_error_page() *)
         match d with
         | O => raise RecursionError
         | S d' => send_html_file d' (txt "error.html") 404
         end)
  end.

Definition send_error_page (depth : nat) : M HState unit :=
  match depth with
  | O => raise RecursionError
  | S d => send_html_file d (txt "error.html") 404
  end.

Definition send_static_file (depth : nat) (filepath : str) : M HState unit :=
  match depth with
  | O => raise RecursionError
  | S d =>
    try_except
      (let mimetype := guess_type (mime env) filepath in
       file <- lift (open_file (fs env) filepath) ;;
       send_response 200 ;;
       send_header (txt "Content-type")
                   (py_or mimetype (txt "application/octet-stream")) ;;
       end_headers ;;
       data <- lift (file_read file) ;;
       wfile_write data)
      FileNotFoundError
      (fun _ => send_error_page d)
  end.

Definition redirect_to_home : M HState unit :=
  send_response 302 ;;
  send_header (txt "Location") (txt "/") ;;
  end_headers.

(** [with socket.socket(...) as client_socket: connect; sendall] *)
Definition deliver (payload : M HState bytes) : M HState unit :=
  sock SockOpen ;;
  try_finally
    (sock (SockConnect (SOCKET_HOST (cfg env)) (SOCKET_PORT (cfg env))) ;;
     match transport env with
     | ConnectFails e => raise e
     | _ =>
       data <- payload ;;
       sock (SockSendall data) ;;
       match transport env with
       | SendFails e => raise e
       | _ => ret tt
       end
     end)
    (sock SockClose).

(** [json.dumps(message).encode("utf-8")] *)
Definition encode_message (message : pydict str) : M HState bytes :=
  match json.dumps (PDict (map (fun kv => (fst kv, PStr (snd kv))) message)) with
  | None => raise TypeError
  | Some text =>
    match encode_utf8 text with
    | Some b => ret b
    | None => raise UnicodeEncodeError
    end
  end.

(** [not message.get(k)] *)
Definition missing (message : pydict str) (k : str) : bool :=
  match dict_get message k with
  | Some v => negb (truthy v)
  | None => true
  end.

Definition send_to_socket (depth : nat) (message : pydict str)
  : M HState unit :=
  match depth with
  | O => raise RecursionError
  | S d =>
    if missing message (txt "username") || missing message (txt "message")
    then
      logging ERROR MissingFields ;;
      send_error_page d
    else
      try_except (deliver (encode_message message))
                 Exception
                 (fun e => logging ERROR (SendFailed e))
  end.

Definition do_GET : M HState unit :=
  route <- lift (urllib.urlparse_path (path self)) ;;
  if str_eqb route (txt "/") || str_eqb route (txt "/index.html")
  then send_html_file (frames env) (txt "index.html") 200
  else if str_eqb route (txt "/message.html")
  then send_html_file (frames env) (txt "message.html") 200
  else if str_eqb route (txt "/error.html")
  then send_html_file (frames env) (txt "error.html") 200
  else if startswith route (txt "/static/")
  then send_static_file (frames env) (tl route)
  else send_error_page (frames env).

(** The [message] dictionary built from the form. *)
Definition form_message (params : pydict (list str)) : M HState (pydict str) :=
  username <- index0 (dict_get_default params (txt "username") [[]]) ;;
  message <- index0 (dict_get_default params (txt "message") [[]]) ;;
  ret [(txt "username", username); (txt "message", message)].

Definition do_POST : M HState unit :=
  if str_eqb (path self) (txt "/message") then
    content_length <-
      lift (py_int (headers_get (headers self) (txt "Content-Length"))) ;;
    body <- lift (rfile_read (memory env) (rfile self) content_length) ;;
    text <- lift (match decode_utf8 body with
                  | Some t => Ok t
                  | None => Raise UnicodeDecodeError
                  end) ;;
    let params := urllib.parse_qs text in
    message <- form_message params ;;
    send_to_socket (frames env) message ;;
    redirect_to_home
  else send_error_page (frames env).

End Handler.

(* ================================================================== *)
(** * The socket server *)
(* ================================================================== *)

(** A document of the store. *)
Definition document : Type := pydict pyval.

(** The MongoDB server: the documents of every collection, by database
    name and collection name, and its answer to an insert ([None]: the
    document is accepted; [Some e]: [insert_one] raises [e]). *)
Record Sink : Type := {
  collections : str -> str -> list document;
  verdict : document -> option exc_class
}.

(** A collection handle: [client[db][name]]. *)
Definition Collection : Type := (str * str)%type.

(** An accepted connection: the peer address, the bytes in flight when the
    handler reads, and the error the read runs into, if any. *)
Record Conn : Type := {
  peer : str * Z;
  inflight : bytes;
  recv_error : option exc_class
}.

(** The socket calls of the server role. *)
Inductive srv_event : Type :=
| Bind (host : str) (port : Z)
| Listen (backlog : Z)
| Accept (addr : str * Z)
| ConnClose (addr : str * Z).

(** State of the socket server process. *)
Record LState : Type := {
  sink : Sink;
  llog : list log_record;
  srv : list srv_event;
  clock : Z
}.

Definition llogging (l : level) (m : log_msg) : M LState unit :=
  modify (fun s => {| sink := sink s; llog := llog s ++ [(l, m)];
                      srv := srv s; clock := clock s |}).
Definition srv_call (e : srv_event) : M LState unit :=
  modify (fun s => {| sink := sink s; llog := llog s;
                      srv := srv s ++ [e]; clock := clock s |}).

(** [datetime.now()] *)
Definition datetime_now : M LState pyval := fun s => (Ok (PDatetime (clock s)), s).

(** [conn.recv(bufsize)] *)
Definition conn_recv (conn : Conn) (bufsize : nat) : M LState bytes :=
  match recv_error conn with
  | Some e => raise e
  | None => ret (firstn bufsize (inflight conn))
  end.

Definition conn_close (conn : Conn) : M LState unit :=
  srv_call (ConnClose (peer conn)).

Definition put_document (c : Collection) (d : document) (k : Sink) : Sink :=
  {| collections := fun db name =>
       if str_eqb db (fst c) && str_eqb name (snd c)
       then collections k db name ++ [d]
       else collections k db name;
     verdict := verdict k |}.

(** [collection.insert_one(d)] *)
Definition insert_one (c : Collection) (d : document) : M LState unit :=
  fun s =>
    match verdict (sink s) d with
    | Some e => (Raise e, s)
    | None =>
      (Ok tt, {| sink := put_document c d (sink s); llog := llog s;
                 srv := srv s; clock := clock s |})
    end.

(** [message[key] = value]: only a [dict] supports it here. *)
Definition setitem (message : pyval) (key : str) (value : pyval)
  : M LState document :=
  match message with
  | PDict d => ret (dict_set d key value)
  | _ => raise TypeError
  end.

(** [json.loads(data.decode("utf-8"))] *)
Definition parse_payload (data : bytes) : result pyval :=
  match decode_utf8 data with
  | None => Raise UnicodeDecodeError
  | Some text =>
    match json.loads text with
    | Some v => Ok v
    | None => Raise JSONDecodeError
    end
  end.

Definition handle_socket_connection (conn : Conn) (addr : str * Z)
           (collection : Collection) : M LState unit :=
  try_finally
    (try_except
       (data <- conn_recv conn 1024 ;;
        match data with
        | _ :: _ =>
          message <- lift (parse_payload data) ;;
          now <- datetime_now ;;
          message <- setitem message (txt "date") now ;;
          try_except
            (insert_one collection message ;;
             llogging INFO (Saved message))
            Exception
            (fun e => llogging ERROR (InsertFailed e))
        | [] => ret tt
        end)
       Exception
       (fun e => llogging ERROR (RequestFailed addr e)))
    (conn_close conn).

(** The surroundings of the socket server: the configuration, the outcome
    of the start-up check ([MongoClient(...)] and [ping]) and of [bind]. *)
Record LEnv : Type := {
  lcfg : Config;
  ping : option exc_class;
  bind_error : option exc_class
}.

(** [threading.Thread(target=c).start()]: an exception ends the thread
    only. *)
Definition thread_start {S} (c : M S unit) : M S unit :=
  fun s => (Ok tt, snd (c s)).

(** The accept loop, over the connections that arrive. *)
Fixpoint serve (collection : Collection) (arrivals : list Conn)
  : M LState unit :=
  match arrivals with
  | [] => ret tt
  | conn :: rest =>
    srv_call (Accept (peer conn)) ;;
    thread_start (handle_socket_connection conn (peer conn) collection) ;;
    serve collection rest
  end.

Definition run_socket_server (env : LEnv) (arrivals : list Conn)
  : M LState unit :=
  connected <-
    try_except
      (match ping env with Some e => raise e | None => ret tt end ;;
       llogging INFO MongoConnected ;;
       ret true)
      ConnectionFailure
      (fun _ => llogging ERROR MongoUnreachable ;; ret false) ;;
  if connected : bool then
    let collection := (DB_NAME (lcfg env), COLLECTION_NAME (lcfg env)) in
    srv_call (Bind (SOCKET_HOST (lcfg env)) (SOCKET_PORT (lcfg env))) ;;
    match bind_error env with Some e => raise e | None => ret tt end ;;
    srv_call (Listen 5) ;;
    llogging INFO
             (SocketServerStarted (SOCKET_HOST (lcfg env))
                                  (SOCKET_PORT (lcfg env))) ;;
    serve collection arrivals
  else ret tt.

(* ================================================================== *)
(** * The HTTP server and the two processes *)
(* ================================================================== *)

(** The commands for which the handler has a [do_] method. *)
Inductive Method : Type := GET | POST.

(** [handle_one_request]: the command selects the [do_] method. *)
Definition handle_one_request (env : HEnv) (m : Method) (r : Request)
  : M HState unit :=
  match m with
  | GET => do_GET env r
  | POST => do_POST env r
  end.

(** [ThreadedHTTPServer]: every request runs in a thread of its own; what
    a handler raises is reported and ends that request only.  The result is
    the outcome of every request. *)
Definition serve_forever (env : HEnv) (requests : list (Method * Request))
  : list (result unit * HState) :=
  map (fun mr => handle_one_request env (fst mr) (snd mr) HState0) requests.

Definition run_http_server (env : HEnv) (requests : list (Method * Request))
  : list log_record * list (result unit * HState) :=
  ([(INFO, HttpServerStarted (HTTP_HOST (cfg env)) (HTTP_PORT (cfg env)))],
   serve_forever env requests).

Definition LState0 (k : Sink) (t : Z) : LState :=
  {| sink := k; llog := []; srv := []; clock := t |}.

(** [__main__]: the two servers run as two processes. *)
Definition main (henv : HEnv) (lenv : LEnv) (k : Sink) (t : Z)
           (requests : list (Method * Request)) (arrivals : list Conn)
  : (list log_record * list (result unit * HState)) * (result unit * LState) :=
  (run_http_server henv requests,
   run_socket_server lenv arrivals (LState0 k t)).

(** ** The two halves together *)

(** The payload of a request that reached the socket server. *)
Definition delivered (env : HEnv) (s : HState) : option bytes :=
  match transport env with
  | Reachable =>
    fold_left (fun acc e => match e with SockSendall p => Some p | _ => acc end)
              (net s) None
  | _ => None
  end.

(** One form submission through both halves: the POST is handled by the
    HTTP front; what it sent, if it arrived, is handled by the socket server
    at time [now]. *)
Definition submit (env : HEnv) (addr : str * Z) (now : Z) (r : Request)
           (back : LState) : (result unit * HState) * LState :=
  let front := do_POST env r HState0 in
  match delivered env (snd front) with
  | Some payload =>
    let conn := {| peer := addr; inflight := payload; recv_error := None |} in
    let back' := {| sink := sink back; llog := llog back;
                    srv := srv back; clock := now |} in
    (front,
     snd (handle_socket_connection
            conn addr (DB_NAME (cfg env), COLLECTION_NAME (cfg env)) back'))
  | None => (front, back)
  end.

(* ================================================================== *)
(** * Vocabulary of the statements *)
(* ================================================================== *)

(** A complete response with a body, as the handler issues it. *)
Definition page (status : Z) (content_type : str) (body : bytes) : list wire :=
  [SendResponse status; SendHeader (txt "Content-type") content_type;
   EndHeaders; WfileWrite body].

(** The head of such a response: what is written before the body. *)
Definition head (status : Z) (content_type : str) : list wire :=
  [SendResponse status; SendHeader (txt "Content-type") content_type;
   EndHeaders].

(** The file at a path, if it can be opened, can be read. *)
Definition read_succeeds (fs : FS) (path : str) : Prop :=
  forall file, open_file fs path = Ok file ->
               exists data, file_read file = Ok data.

(** The redirect to the home page. *)
Definition redirect : list wire :=
  [SendResponse 302; SendHeader (txt "Location") (txt "/"); EndHeaders].

(** The first value of a form field, the empty string when it is absent. *)
Definition field (params : pydict (list str)) (k : str) : str :=
  hd [] (dict_get_default params k [[]]).

(** The text of a message on the wire: an object with the two keys, in
    this order, every string escaped to ASCII; and its bytes. *)
Definition message_text (u m : str) : str :=
  json.ch "{" :: json.encode_basestring_ascii (txt "username")
    ++ txt ": " ++ json.encode_basestring_ascii u
    ++ txt ", " ++ json.encode_basestring_ascii (txt "message")
    ++ txt ": " ++ json.encode_basestring_ascii m ++ [json.ch "}"].
Definition payload_of (u m : str) : bytes := map byte_of_N (message_text u m).

(** The file a GET of [route] asks for: a page, a path below [static/]
    (the route without its leading slash), or nothing. *)
Definition target (route : str) : option str :=
  if str_eqb route (txt "/") || str_eqb route (txt "/index.html")
  then Some (txt "index.html")
  else if str_eqb route (txt "/message.html") then Some (txt "message.html")
  else if str_eqb route (txt "/error.html") then Some (txt "error.html")
  else if startswith route (txt "/static/") then Some (tl route)
  else None.

(** Text made of Unicode scalar values: code points up to U+10FFFF which
    are not surrogates.  This is what decoding UTF-8 produces. *)
Definition scalar (c : N) : bool := (c <? 1114112)%N && negb (is_surrogate c).
Definition scalar_text (s : str) : Prop := Forall (fun c => scalar c = true) s.

(** Text within the ASCII range. *)
Definition ascii_only (s : str) : Prop := Forall (fun c => (c < 128)%N) s.

(** Number of [connect] and of [sendall] calls in a trace. *)
Definition connects (l : list net_event) : nat :=
  List.length (filter (fun e => match e with SockConnect _ _ => true
                                        | _ => false end) l).
Definition sends (l : list net_event) : nat :=
  List.length (filter (fun e => match e with SockSendall _ => true
                                        | _ => false end) l).

(** Whether a response carries a given status line. *)
Definition has_status (code : Z) (l : list wire) : bool :=
  existsb (fun w => match w with SendResponse c => (c =? code)%Z
                            | _ => false end) l.

(** What a handler may leave on the wire: one complete response under
    status 200 or 404 after what was there, or nothing more when it
    raised. *)
Definition one_response (before : list wire) (r : result unit * HState)
  : Prop :=
  (exists status ctype body,
      fst r = Ok tt
      /\ wfile (snd r) = before ++ page status ctype body
      /\ (status = 200 \/ status = 404)%Z)
  \/ (exists e, fst r = Raise e /\ wfile (snd r) = before).

(** The document a connection contributes when it is handled at time
    [now]: the object it carries, dated; nothing when nothing parses as an
    object. *)
Definition stamped (now : Z) (conn : Conn) : list document :=
  match recv_error conn with
  | Some _ => []
  | None =>
    match parse_payload (firstn 1024 (inflight conn)) with
    | Ok (PDict d) => [dict_set d (txt "date") (PDatetime now)]
    | _ => []
    end
  end.

(** The store after an insert attempt: with the document when the server
    accepts it, unchanged when the insert raises. *)
Definition store (c : Collection) (k : Sink) (d : document) : Sink :=
  match verdict k d with
  | None => put_document c d k
  | Some _ => k
  end.

(** The socket calls of the accept loop over a list of connections. *)
Definition served (arrivals : list Conn) : list srv_event :=
  flat_map (fun c => [Accept (peer c); ConnClose (peer c)]) arrivals.

(** The values of a name among the pairs of a query string, in order. *)
Definition values_of (pairs : list (str * str)) (k : str) : list str :=
  map snd (filter (fun nv => str_eqb (fst nv) k) pairs).

(** A request path which is a plain route: it starts with one slash, and
    holds no [?], no [#], and none of the characters tab, line feed and
    carriage return, which [urlparse] removes. *)
Definition plain_route (p : str) : bool :=
  startswith p (txt "/") && negb (startswith p (txt "//"))
  && forallb (fun c => negb (mem_cp c [9; 10; 13; 35; 63]%N)) p.

(* ================================================================== *)
(** * A small deployment, for concrete runs *)
(* ================================================================== *)

Module Demo.

Definition config : Config :=
  {| HTTP_HOST := txt "0.0.0.0"; HTTP_PORT := 3000;
     SOCKET_HOST := txt "127.0.0.1"; SOCKET_PORT := 5000;
     MONGO_URI := txt "mongodb://mongodb:27017";
     DB_NAME := txt "messages_db"; COLLECTION_NAME := txt "messages" |}.

Definition mimetypes : Mime :=
  {| suffix_map := [(txt ".tgz", txt ".tar.gz")];
     encodings_map := [(txt ".gz", txt "gzip")];
     types_map := [(txt ".css", txt "text/css"); (txt ".png", txt "image/png");
                   (txt ".py", txt "text/x-python")] |}.

(** The working directory of the server: the pages, the program itself and
    the [static] directory. *)
Definition site : node :=
  Dir [(txt "index.html", File true (blit "<h1>home</h1>"));
       (txt "message.html", File true (blit "<form></form>"));
       (txt "error.html", File true (blit "<h1>404</h1>"));
       (txt "main.py", File true (blit "import config"));
       (txt "static",
        Dir [(txt "style.css", File true (blit "body{}"));
             (txt "logo.png", File true (blit "PNG"));
             (txt "blob", File true (blit "??"))])].

(** The same directory without [error.html]. *)
Definition site_without_error_page : node :=
  Dir [(txt "index.html", File true (blit "<h1>home</h1>"));
       (txt "static", Dir [(txt "style.css", File true (blit "body{}"))])].

Definition henv (t : node) (tr : Transport) : HEnv :=
  {| cfg := config; fs := {| tree := t; cwd := [] |}; mime := mimetypes;
     transport := tr; frames := 900; memory := 2 ^ 30 |}.

Definition request (p : string) (hs : list (string * string)) (body : string)
  : Request :=
  {| path := txt p;
     headers := map (fun kv => (txt (fst kv), txt (snd kv))) hs;
     rfile := blit body |}.

(** An empty store that accepts every document. *)
Definition empty_sink : Sink :=
  {| collections := fun _ _ => []; verdict := fun _ => None |}.

Definition client : str * Z := (txt "127.0.0.1", 40000%Z).

Definition conn (payload : bytes) : Conn :=
  {| peer := client; inflight := payload; recv_error := None |}.

Definition lenv (p : option exc_class) : LEnv :=
  {| lcfg := config; ping := p; bind_error := None |}.

Definition messages (s : LState) : list document :=
  collections (sink s) (DB_NAME config) (COLLECTION_NAME config).

End Demo.

(* ================================================================== *)
(** * Basic facts *)
(* ================================================================== *)

Lemma str_eqb_refl (a : str) : str_eqb a a = true.
Proof.
  induction a as [|x a IH]; simpl; [reflexivity|].
  now rewrite N.eqb_refl.
Qed.

Lemma str_eqb_eq (a b : str) : str_eqb a b = true <-> a = b.
Proof.
  split; [|intros ->; apply str_eqb_refl].
  revert b; induction a as [|x a IH]; intros [|y b]; simpl;
    try discriminate; auto.
  intros H. apply andb_true_iff in H as [H1 H2].
  apply N.eqb_eq in H1. apply IH in H2. now subst.
Qed.

Lemma dict_get_set_same {V} (d : pydict V) k v :
  dict_get (dict_set d k v) k = Some v.
Proof.
  induction d as [|[k' v'] d IH]; simpl.
  - now rewrite str_eqb_refl.
  - destruct (str_eqb k' k) eqn:E; simpl; rewrite E; auto.
Qed.

Lemma dict_get_set_other {V} (d : pydict V) k k' v :
  str_eqb k k' = false -> dict_get (dict_set d k v) k' = dict_get d k'.
Proof.
  intros Hk. induction d as [|[k0 v0] d IH]; simpl.
  - now rewrite Hk.
  - destruct (str_eqb k0 k) eqn:E; simpl.
    + apply str_eqb_eq in E; subst k0. now rewrite Hk.
    + destruct (str_eqb k0 k'); auto.
Qed.

(** Every class of the model derives from [Exception]: [except Exception]
    catches whatever is raised. *)
Lemma issubclass_Exception e : issubclass e Exception = true.
Proof. destruct e; reflexivity. Qed.


(** What [except ConnectionFailure] catches. *)
Lemma issubclass_ConnectionFailure e :
  issubclass e ConnectionFailure = true <->
  e = ConnectionFailure \/ e = AutoReconnect \/ e = ServerSelectionTimeoutError.
Proof.
  split.
  - destruct e; intros H; try discriminate H; auto.
  - intros [-> | [-> | ->]]; reflexivity.
Qed.

(** ** The library models on examples *)

Example loads_object :
  json.loads (qtxt "{ 'a' : [1, 2.5e3, true, null], 'b': 'x\n\u00e9' } ")
  = Some (PDict [(txt "a", PList [PInt 1; PFloat (txt "2.5e3");
                                  PBool true; PNone]);
                 (txt "b", PStr [120; 10; 233]%N)]).
Proof. reflexivity. Qed.

Example loads_duplicate_key :
  json.loads (qtxt "{'a': 1, 'b': 2, 'a': 3}")
  = Some (PDict [(txt "a", PInt 3); (txt "b", PInt 2)]).
Proof. reflexivity. Qed.

Example loads_rejects :
  map json.loads
      [txt ""; txt "[1,]"; qtxt "{'a' 1}"; txt "01"; txt "{} x";
       qtxt "{'a': 'x"; txt "'a'"]
  = [None; None; None; None; None; None; None].
Proof. reflexivity. Qed.

Example dumps_message :
  json.dumps (PDict [(txt "username", PStr (txt "alice"));
                     (txt "message", PStr (233%N :: txt " ok"))])
  = Some (qtxt "{'username': 'alice', 'message': '\u00e9 ok'}").
Proof. reflexivity. Qed.

Example parse_qs_form :
  urllib.parse_qs (txt "username=al+ice&message=hi%21&empty=&flag&message=2")
  = [(txt "username", [txt "al ice"]); (txt "message", [txt "hi!"; txt "2"])].
Proof. reflexivity. Qed.

Example urlparse_path_examples :
  map urllib.urlparse_path
      [txt "/static/style.css?v=1#top"; txt "/static/../main.py";
       txt "http://host/message.html"; txt "/a;b/c;d"]
  = [Ok (txt "/static/style.css"); Ok (txt "/static/../main.py");
     Ok (txt "/message.html"); Ok (txt "/a;b/c")].
Proof. reflexivity. Qed.

Example py_int_examples :
  map py_int [None; Some (txt " 42 "); Some (txt "-1_0"); Some (txt "4x")]
  = [Raise TypeError; Ok 42%Z; Ok (-10)%Z; Raise ValueError].
Proof. reflexivity. Qed.

Example guess_type_examples :
  map (guess_type Demo.mimetypes)
      [txt "static/style.css"; txt "static/LOGO.PNG"; txt "static/blob";
       txt "static/.css"; txt "static/a.css.gz"]
  = [Some (txt "text/css"); Some (txt "image/png"); None; None;
     Some (txt "text/css")].
Proof. reflexivity. Qed.

(** [int()] strips ASCII white space only from an ASCII literal (the
    separators U+001C to U+001F are no part of it), reads the decimal digits
    and the spaces of Unicode otherwise, and refuses more than 4300
    digits. *)
Example py_int_strictness :
  map (fun s => py_int (Some s))
      [[28; 50; 56]%N; [50; 56; 31]%N; [160; 50; 56]%N; [1635; 1632]%N;
       repeat 48%N 4300; repeat 48%N 4301]
  = [Raise ValueError; Raise ValueError; Ok 28%Z; Ok 30%Z; Ok 0%Z;
     Raise ValueError].
Proof. vm_compute. reflexivity. Qed.

(** A host between square brackets is an IPv6 or an IPvFuture address. *)
Example urlparse_path_brackets :
  map urllib.urlparse_path
      [txt "http://[abc]/nothing"; txt "http://[::1]/index.html";
       txt "//[v1.a]/static/x"; txt "http://[::1/index.html";
       txt "//[1.2.3.4]/"; txt "//[::ffff:1.2.3.4]:80/"]
  = [Raise ValueError; Ok (txt "/index.html"); Ok (txt "/static/x");
     Raise ValueError; Raise ValueError; Ok (txt "/")].
Proof. vm_compute. reflexivity. Qed.

Example open_rb_examples :
  map (open_rb {| tree := Demo.site; cwd := [] |})
      [txt "index.html"; txt "static/../main.py"; txt "static/";
       txt "index.html/x"; txt "nothing"; repeat 120%N 255;
       repeat 120%N 256; txt "static/" ++ repeat 120%N 256;
       txt "nothing/" ++ repeat 120%N 256; repeat 120%N 4096; [0]%N]
  = [Ok (blit "<h1>home</h1>"); Ok (blit "import config");
     Raise IsADirectoryError; Raise NotADirectoryError;
     Raise FileNotFoundError; Raise FileNotFoundError; Raise OSError;
     Raise OSError; Raise FileNotFoundError; Raise OSError;
     Raise ValueError].
Proof. vm_compute. reflexivity. Qed.

Example rfile_read_examples :
  map (rfile_read (2 ^ 30) (blit "abcdef"))
      [0; 3; 6; 100; -1; -2; - 2 ^ 63; - 2 ^ 63 - 1; 2 ^ 40; 2 ^ 63 - 34;
       2 ^ 63 - 33; 2 ^ 64]%Z
  = [Ok []; Ok (blit "abc"); Ok (blit "abcdef"); Ok (blit "abcdef");
     Ok (blit "abcdef"); Raise ValueError; Raise ValueError;
     Raise OverflowError; Raise MemoryError; Raise MemoryError;
     Raise OverflowError; Raise OverflowError].
Proof. vm_compute. reflexivity. Qed.

(* ================================================================== *)
(** * The socket server: one connection *)
(* ================================================================== *)

Ltac run_handler :=
  unfold handle_socket_connection, try_finally, try_except, bind, conn_recv,
    conn_close, srv_call, llogging, modify, lift, datetime_now, setitem,
    insert_one, raise, ret;
  match goal with
  | |- context [firstn ?n (inflight ?c)] =>
    let data := fresh "data" in
    let E := fresh "Edata" in
    remember (firstn n (inflight c)) as data eqn:E
  | _ => idtac
  end; simpl.

Lemma parse_payload_empty : parse_payload [] = Raise JSONDecodeError.
Proof. reflexivity. Qed.

(** The handler returns normally whatever arrives, closes the connection
    once, after everything else, and leaves the clock alone. *)
Lemma handler_total conn addr coll s :
  exists s', handle_socket_connection conn addr coll s = (Ok tt, s')
             /\ srv s' = srv s ++ [ConnClose (peer conn)]
             /\ clock s' = clock s.
Proof.
  run_handler.
  destruct (recv_error conn); simpl;
    [rewrite issubclass_Exception; eexists; split;
     [reflexivity|split; reflexivity]|].
  destruct data; simpl;
    [eexists; split; [reflexivity|split; reflexivity]|].
  destruct (parse_payload _) as [v|e]; simpl;
    [|rewrite issubclass_Exception; eexists; split;
      [reflexivity|split; reflexivity]].
  destruct v; simpl;
    try (eexists; split; [reflexivity|split; reflexivity]).
  destruct (verdict _ _); simpl; try rewrite issubclass_Exception;
    eexists; split; try reflexivity; split; reflexivity.
Qed.

(** X15. Nothing received (the peer closed without sending): the
    connection is closed and nothing else happens. *)
Lemma handler_empty conn addr coll s :
  recv_error conn = None ->
  firstn 1024 (inflight conn) = [] ->
  handle_socket_connection conn addr coll s
  = (Ok tt, {| sink := sink s; llog := llog s;
               srv := srv s ++ [ConnClose (peer conn)]; clock := clock s |}).
Proof.
  intros Hr Hd. run_handler. rewrite Hr, Hd. reflexivity.
Qed.

(** A received text that does not parse: logged, nothing inserted. *)
Lemma handler_malformed conn addr coll s e :
  recv_error conn = None ->
  firstn 1024 (inflight conn) <> [] ->
  parse_payload (firstn 1024 (inflight conn)) = Raise e ->
  handle_socket_connection conn addr coll s
  = (Ok tt, {| sink := sink s;
               llog := llog s ++ [(ERROR, RequestFailed addr e)];
               srv := srv s ++ [ConnClose (peer conn)]; clock := clock s |}).
Proof.
  intros Hr Hd Hp. run_handler. rewrite Hr. simpl.
  destruct data as [|b data]; [congruence|].
  rewrite Hp. simpl. rewrite issubclass_Exception. reflexivity.
Qed.

(** X16. A JSON term which is not an object: storing the date raises
    [TypeError]; logged, nothing inserted. *)
Lemma handler_not_an_object conn addr coll s v :
  recv_error conn = None ->
  parse_payload (firstn 1024 (inflight conn)) = Ok v ->
  (forall d, v <> PDict d) ->
  handle_socket_connection conn addr coll s
  = (Ok tt, {| sink := sink s;
               llog := llog s ++ [(ERROR, RequestFailed addr TypeError)];
               srv := srv s ++ [ConnClose (peer conn)]; clock := clock s |}).
Proof.
  intros Hr Hp Hv. run_handler. rewrite Hr. simpl.
  destruct data as [|b data];
    [rewrite parse_payload_empty in Hp; discriminate|].
  rewrite Hp. simpl.
  destruct v; simpl; try reflexivity. now destruct (Hv d).
Qed.

(** A JSON object which the store accepts: inserted with the date of the
    clock. *)
Lemma handler_object_stored conn addr coll s d :
  recv_error conn = None ->
  parse_payload (firstn 1024 (inflight conn)) = Ok (PDict d) ->
  verdict (sink s) (dict_set d (txt "date") (PDatetime (clock s))) = None ->
  handle_socket_connection conn addr coll s
  = (Ok tt,
     let doc := dict_set d (txt "date") (PDatetime (clock s)) in
     {| sink := put_document coll doc (sink s);
        llog := llog s ++ [(INFO, Saved doc)];
        srv := srv s ++ [ConnClose (peer conn)]; clock := clock s |}).
Proof.
  intros Hr Hp Hv. run_handler. rewrite Hr. simpl.
  destruct data as [|b data];
    [rewrite parse_payload_empty in Hp; discriminate|].
  rewrite Hp. simpl. rewrite Hv. reflexivity.
Qed.

(** X17. A JSON object which the store refuses: logged, nothing
    inserted. *)
Lemma handler_object_refused conn addr coll s d e :
  recv_error conn = None ->
  parse_payload (firstn 1024 (inflight conn)) = Ok (PDict d) ->
  verdict (sink s) (dict_set d (txt "date") (PDatetime (clock s))) = Some e ->
  handle_socket_connection conn addr coll s
  = (Ok tt, {| sink := sink s;
               llog := llog s ++ [(ERROR, InsertFailed e)];
               srv := srv s ++ [ConnClose (peer conn)]; clock := clock s |}).
Proof.
  intros Hr Hp Hv. run_handler. rewrite Hr. simpl.
  destruct data as [|b data];
    [rewrite parse_payload_empty in Hp; discriminate|].
  rewrite Hp. simpl. rewrite Hv. simpl.
  rewrite issubclass_Exception. reflexivity.
Qed.

(** The read takes the first 1024 bytes: what follows them plays no role. *)
Lemma handler_reads_1024 conn addr coll s :
  handle_socket_connection conn addr coll s
  = handle_socket_connection
      {| peer := peer conn; inflight := firstn 1024 (inflight conn);
         recv_error := recv_error conn |} addr coll s.
Proof.
  unfold handle_socket_connection, conn_recv, conn_close. cbn [peer inflight recv_error].
  rewrite firstn_firstn, Nat.min_id. reflexivity.
Qed.

(** ** The server around the handler *)

(** One accepted connection: the handler runs on it, in its thread. *)
Lemma serve_one coll conn s :
  serve coll [conn] s
  = (Ok tt,
     snd (handle_socket_connection conn (peer conn) coll
            {| sink := sink s; llog := llog s;
               srv := srv s ++ [Accept (peer conn)]; clock := clock s |})).
Proof.
  unfold serve, thread_start, bind, srv_call, modify, ret. simpl.
  destruct (handle_socket_connection _ _ _ _); reflexivity.
Qed.

(** With the store reachable and the port free, the server binds, listens
    and enters the accept loop with the configured collection. *)
Lemma run_socket_server_started env arrivals s :
  ping env = None ->
  bind_error env = None ->
  run_socket_server env arrivals s
  = serve (DB_NAME (lcfg env), COLLECTION_NAME (lcfg env)) arrivals
      {| sink := sink s;
         llog := (llog s ++ [(INFO, MongoConnected)])
                 ++ [(INFO, SocketServerStarted (SOCKET_HOST (lcfg env))
                                                (SOCKET_PORT (lcfg env)))];
         srv := (srv s ++ [Bind (SOCKET_HOST (lcfg env))
                                (SOCKET_PORT (lcfg env))])
                ++ [Listen 5];
         clock := clock s |}.
Proof.
  intros Hp Hb.
  unfold run_socket_server, try_except, bind, llogging, srv_call, modify,
    raise, ret.
  rewrite Hp, Hb. reflexivity.
Qed.

(** C2 (as amended). A payload which the socket server receives and parses
    as a JSON object, and which the store accepts, adds exactly one document
    to the configured collection of the configured database and to no other;
    the document is the object with its [date] key set to the clock of the
    server at receipt, whatever [date] the sender supplied. *)
Theorem C2_object_inserted_once_with_receipt_date env conn s d :
  ping env = None ->
  bind_error env = None ->
  recv_error conn = None ->
  parse_payload (firstn 1024 (inflight conn)) = Ok (PDict d) ->
  verdict (sink s) (dict_set d (txt "date") (PDatetime (clock s))) = None ->
  let doc := dict_set d (txt "date") (PDatetime (clock s)) in
  let s' := snd (run_socket_server env [conn] s) in
  fst (run_socket_server env [conn] s) = Ok tt
  /\ collections (sink s') (DB_NAME (lcfg env)) (COLLECTION_NAME (lcfg env))
     = collections (sink s) (DB_NAME (lcfg env)) (COLLECTION_NAME (lcfg env))
       ++ [doc]
  /\ (forall db name,
         str_eqb db (DB_NAME (lcfg env))
         && str_eqb name (COLLECTION_NAME (lcfg env)) = false ->
         collections (sink s') db name = collections (sink s) db name)
  /\ dict_get doc (txt "date") = Some (PDatetime (clock s)).
Proof.
  intros Hp Hb Hr Hparse Hv doc s'. subst s'.
  rewrite (run_socket_server_started env [conn] s Hp Hb), serve_one.
  rewrite handler_object_stored with (d := d); auto.
  cbn [fst snd sink clock collections put_document].
  rewrite !str_eqb_refl. cbn [andb].
  repeat split; auto.
  - intros db name Hne. now rewrite Hne.
  - apply dict_get_set_same.
Qed.

(** C2 on a run: the sender's own [date] is replaced by the clock of the
    server. *)
Lemma C2_witness :
  let doc := [(txt "username", PStr (txt "alice"));
              (txt "date", PDatetime 1700000000);
              (txt "message", PStr (txt "hello"))] in
  let run :=
    run_socket_server
      (Demo.lenv None)
      [Demo.conn
         (qblit "{'username': 'alice', 'date': '1999-01-01', 'message': 'hello'}")]
      (LState0 Demo.empty_sink 1700000000) in
  fst run = Ok tt
  /\ Demo.messages (snd run) = [] ++ [doc]
  /\ (forall db name,
         str_eqb db (DB_NAME Demo.config)
         && str_eqb name (COLLECTION_NAME Demo.config) = false ->
         collections (sink (snd run)) db name = [])
  /\ dict_get doc (txt "date") = Some (PDatetime 1700000000).
Proof.
  exact (C2_object_inserted_once_with_receipt_date
           (Demo.lenv None)
           (Demo.conn
              (qblit "{'username': 'alice', 'date': '1999-01-01', 'message': 'hello'}"))
           (LState0 Demo.empty_sink 1700000000)
           (d := [(txt "username", PStr (txt "alice"));
                  (txt "date", PStr (txt "1999-01-01"));
                  (txt "message", PStr (txt "hello"))])
           eq_refl eq_refl eq_refl eq_refl eq_refl).
Defined.

(** C2 as stated fails on a well-formed JSON payload which is not an object:
    [42] parses, storing the date raises [TypeError], nothing is inserted. *)
Lemma C2_counterexample :
  let run :=
    run_socket_server (Demo.lenv None) [Demo.conn (blit "42")]
                      (LState0 Demo.empty_sink 1700000000) in
  parse_payload (blit "42") = Ok (PInt 42)
  /\ fst run = Ok tt
  /\ Demo.messages (snd run) = []
  /\ llog (snd run)
     = [(INFO, MongoConnected);
        (INFO, SocketServerStarted (txt "127.0.0.1") 5000);
        (ERROR, RequestFailed Demo.client TypeError)].
Proof. vm_compute. repeat split. Qed.

(** C4 (as amended). When the bytes read from a connection are not empty
    and do not parse as JSON, the handler inserts nothing, logs the error
    and closes the connection.  On every connection and in every state the
    handler returns normally (no exception leaves it) and its last action is
    to close the connection. *)
Theorem C4_malformed_payload_logged_and_closed conn addr coll s e :
  recv_error conn = None ->
  firstn 1024 (inflight conn) <> [] ->
  parse_payload (firstn 1024 (inflight conn)) = Raise e ->
  handle_socket_connection conn addr coll s
  = (Ok tt, {| sink := sink s;
               llog := llog s ++ [(ERROR, RequestFailed addr e)];
               srv := srv s ++ [ConnClose (peer conn)];
               clock := clock s |})
  /\ (forall conn' s',
         exists s'',
           handle_socket_connection conn' addr coll s' = (Ok tt, s'')
           /\ srv s'' = srv s' ++ [ConnClose (peer conn')]).
Proof.
  intros Hr Hd Hp. split.
  - now apply handler_malformed.
  - intros conn' s'.
    destruct (handler_total conn' addr coll s') as (s'' & E & Hs & _).
    now exists s''.
Qed.

(** C4 on a run: an object cut after its second key. *)
Lemma C4_witness :
  let coll := (DB_NAME Demo.config, COLLECTION_NAME Demo.config) in
  handle_socket_connection
    (Demo.conn (qblit "{'username': 'alice', 'message': ")) Demo.client coll
    (LState0 Demo.empty_sink 0)
  = (Ok tt, {| sink := Demo.empty_sink;
               llog := [] ++ [(ERROR, RequestFailed Demo.client JSONDecodeError)];
               srv := [] ++ [ConnClose Demo.client];
               clock := 0 |})
  /\ (forall conn' s',
         exists s'',
           handle_socket_connection conn' Demo.client coll s' = (Ok tt, s'')
           /\ srv s'' = srv s' ++ [ConnClose (peer conn')]).
Proof.
  refine (C4_malformed_payload_logged_and_closed
            (Demo.conn (qblit "{'username': 'alice', 'message': "))
            Demo.client
            (DB_NAME Demo.config, COLLECTION_NAME Demo.config)
            (LState0 Demo.empty_sink 0) eq_refl _ eq_refl).
  vm_compute. discriminate.
Defined.

(** C4 as stated fails on the empty payload: the empty text is not JSON,
    but the handler does not look at an empty read; nothing is logged. *)
Lemma C4_counterexample :
  let coll := (DB_NAME Demo.config, COLLECTION_NAME Demo.config) in
  parse_payload (firstn 1024 (inflight (Demo.conn []))) = Raise JSONDecodeError
  /\ handle_socket_connection (Demo.conn []) Demo.client coll
                              (LState0 Demo.empty_sink 0)
     = (Ok tt, {| sink := Demo.empty_sink; llog := [];
                  srv := [ConnClose Demo.client]; clock := 0 |}).
Proof. split; reflexivity. Qed.


(* ================================================================== *)
(** * The HTTP front *)
(* ================================================================== *)

(** ** The payload of a delivery *)

Lemma hexdigit_ascii n : (n < 16)%N -> (json.hexdigit n < 128)%N.
Proof. intros H. unfold json.hexdigit. destruct (n <? 10)%N; lia. Qed.

Lemma ascii_only_cons c s : (c < 128)%N -> ascii_only s -> ascii_only (c :: s).
Proof. intros; now constructor. Qed.

Lemma ascii_only_nil : ascii_only [].
Proof. constructor. Qed.

(** Closed ASCII texts are recognised by computation. *)
Ltac ascii_literal :=
  repeat (apply ascii_only_cons; [reflexivity|]); apply ascii_only_nil.

Lemma uescape_ascii n : (n < 65536)%N -> ascii_only (json.uescape n).
Proof.
  intros H. unfold json.uescape.
  apply ascii_only_cons; [reflexivity|].
  apply ascii_only_cons; [reflexivity|].
  apply ascii_only_cons;
    [apply hexdigit_ascii, N.Div0.div_lt_upper_bound; lia|].
  apply ascii_only_cons; [apply hexdigit_ascii, N.mod_lt; lia|].
  apply ascii_only_cons; [apply hexdigit_ascii, N.mod_lt; lia|].
  apply ascii_only_cons; [apply hexdigit_ascii, N.mod_lt; lia|].
  apply ascii_only_nil.
Qed.

Lemma escape_char_ascii c : ascii_only (json.escape_char c).
Proof.
  unfold json.escape_char, json.QUOTE, json.BACKSLASH.
  destruct (c =? 34)%N; [ascii_literal|].
  destruct (c =? 92)%N; [ascii_literal|].
  destruct (in_range 32 126 c) eqn:Hr.
  { unfold in_range in Hr. apply andb_true_iff in Hr as [_ H].
    apply N.leb_le in H. apply ascii_only_cons; [lia|apply ascii_only_nil]. }
  destruct (c =? 8)%N; [ascii_literal|].
  destruct (c =? 12)%N; [ascii_literal|].
  destruct (c =? 10)%N; [ascii_literal|].
  destruct (c =? 13)%N; [ascii_literal|].
  destruct (c =? 9)%N; [ascii_literal|].
  destruct (c <? 65536)%N eqn:Hlt.
  { apply uescape_ascii. now apply N.ltb_lt. }
  apply Forall_app; split; apply uescape_ascii.
  - pose proof (N.mod_lt ((c - 65536) / 1024) 1024). lia.
  - pose proof (N.mod_lt (c - 65536) 1024). lia.
Qed.

Lemma encode_basestring_ascii_ascii s : ascii_only (json.encode_basestring_ascii s).
Proof.
  unfold json.encode_basestring_ascii.
  apply ascii_only_cons; [reflexivity|].
  apply Forall_app; split; [|ascii_literal].
  induction s as [|c s IH]; cbn [flat_map]; [apply ascii_only_nil|].
  apply Forall_app; split; [apply escape_char_ascii|apply IH].
Qed.

Lemma encode_utf8_ascii s : ascii_only s -> encode_utf8 s = Some (map byte_of_N s).
Proof.
  induction 1 as [|c s Hc Hs IH]; simpl; [reflexivity|].
  apply N.ltb_lt in Hc. rewrite Hc, IH. reflexivity.
Qed.

Lemma message_text_ascii u m : ascii_only (message_text u m).
Proof.
  unfold message_text.
  apply ascii_only_cons; [reflexivity|].
  repeat (apply Forall_app; split);
    try apply encode_basestring_ascii_ascii; ascii_literal.
Qed.

Lemma dumps_of_message u m :
  json.dumps (PDict [(txt "username", PStr u); (txt "message", PStr m)])
  = Some (message_text u m).
Proof.
  unfold message_text. cbn [json.dumps]. 
  rewrite !app_nil_r. cbn [app]. rewrite <- !app_assoc. reflexivity.
Qed.

Lemma encode_message_total u m s :
  encode_message [(txt "username", u); (txt "message", m)] s = (Ok (payload_of u m), s).
Proof.
  unfold encode_message. cbn [map fst snd].
  rewrite dumps_of_message, (encode_utf8_ascii (message_text_ascii u m)).
  reflexivity.
Qed.

(** ** Serving files *)

Ltac run_http :=
  unfold try_except, try_finally, bind, lift, send_response, send_header,
    end_headers, wfile_write, emit, logging, sock, modify, raise, ret.

(** A file which opens and reads. *)
Lemma open_rb_ok fs path content :
  open_rb fs path = Ok content ->
  exists file, open_file fs path = Ok file /\ file_read file = Ok content.
Proof.
  unfold open_rb. destruct (open_file fs path) as [file|e]; [|discriminate].
  intros H. now exists file.
Qed.

Lemma send_html_file_ok env depth filename status content s :
  open_rb (fs env) filename = Ok content ->
  send_html_file env (S depth) filename status s
  = (Ok tt, {| wfile := wfile s ++ page status (txt "text/html") content;
               hlog := hlog s; net := net s |}).
Proof.
  intros H. apply open_rb_ok in H as (file & Ho & Hr).
  cbn [send_html_file]. run_http. rewrite Ho. cbn. rewrite Hr. cbn.
  rewrite <- !app_assoc. reflexivity.
Qed.

(** A missing file sends the error page instead. *)
Lemma send_html_file_missing env depth filename status s :
  open_file (fs env) filename = Raise FileNotFoundError ->
  send_html_file env (S depth) filename status s = send_error_page env depth s.
Proof.
  intros H. cbn [send_html_file]. run_http. rewrite H.
  destruct depth; reflexivity.
Qed.



Lemma send_error_page_ok env depth content s :
  open_rb (fs env) (txt "error.html") = Ok content ->
  send_error_page env (S (S depth)) s
  = (Ok tt, {| wfile := wfile s ++ page 404 (txt "text/html") content;
               hlog := hlog s; net := net s |}).
Proof. intros H. unfold send_error_page. now apply send_html_file_ok. Qed.

(** Without [error.html], [send_error_page] and [send_html_file] call each
    other until the stack is exhausted: at every depth the outcome is a
    [RecursionError], and nothing has been written. *)
Lemma send_error_page_missing env :
  open_file (fs env) (txt "error.html") = Raise FileNotFoundError ->
  forall depth s, send_error_page env depth s = (Raise RecursionError, s).
Proof.
  intros H depth. induction depth as [depth IH] using lt_wf_ind. intros s.
  destruct depth as [|[|d]]; try reflexivity.
  unfold send_error_page. rewrite send_html_file_missing by exact H.
  apply IH. lia.
Qed.

Lemma send_static_file_ok env depth filepath content s :
  open_rb (fs env) filepath = Ok content ->
  send_static_file env (S depth) filepath s
  = (Ok tt,
     {| wfile := wfile s
                 ++ page 200 (py_or (guess_type (mime env) filepath)
                                    (txt "application/octet-stream")) content;
        hlog := hlog s; net := net s |}).
Proof.
  intros H. apply open_rb_ok in H as (file & Ho & Hr).
  unfold send_static_file. run_http. rewrite Ho. cbn. rewrite Hr. cbn.
  rewrite <- !app_assoc. reflexivity.
Qed.

Lemma send_static_file_missing env depth filepath s :
  open_file (fs env) filepath = Raise FileNotFoundError ->
  send_static_file env (S depth) filepath s = send_error_page env depth s.
Proof.
  intros H. unfold send_static_file. run_http. rewrite H. reflexivity.
Qed.



(** A route below [/static/] is none of the pages. *)
Lemma static_route_is_no_page route :
  startswith route (txt "/static/") = true ->
  str_eqb route (txt "/") || str_eqb route (txt "/index.html")
  || str_eqb route (txt "/message.html") || str_eqb route (txt "/error.html")
  = false.
Proof.
  intros H.
  repeat match goal with
         | |- context [str_eqb route ?x] =>
           let E := fresh "E" in
           destruct (str_eqb route x) eqn:E;
             [apply str_eqb_eq in E; subst route; discriminate H|]
         end.
  reflexivity.
Qed.

(** [do_GET] opens the target of the route, as a static file below
    [/static/] and as a page otherwise, or sends the error page when the
    route has no target. *)
Lemma do_GET_dispatch env self route s :
  urllib.urlparse_path (path self) = Ok route ->
  do_GET env self s
  = match target route with
    | Some f =>
      if startswith route (txt "/static/")
      then send_static_file env (frames env) f s
      else send_html_file env (frames env) f 200 s
    | None => send_error_page env (frames env) s
    end.
Proof.
  intros H. unfold do_GET, target, bind, lift. rewrite H.
  destruct (startswith route (txt "/static/")) eqn:Hs.
  - pose proof (static_route_is_no_page route Hs) as Hn.
    apply orb_false_iff in Hn as [Hn H4].
    apply orb_false_iff in Hn as [Hn H3].
    rewrite Hn, H3, H4. reflexivity.
  - destruct (str_eqb route (txt "/") || str_eqb route (txt "/index.html"));
      [reflexivity|].
    destruct (str_eqb route (txt "/message.html")); [reflexivity|].
    destruct (str_eqb route (txt "/error.html")); reflexivity.
Qed.

(** ** Form submission *)

(** [parse_qs] never maps a name to an empty list. *)
Lemma parse_qs_values_nonempty qs k l :
  dict_get (urllib.parse_qs qs) k = Some l -> l <> [].
Proof.
  unfold urllib.parse_qs.
  assert (G : forall (pairs : list (str * str)) (d : pydict (list str)),
             (forall k (l : list str), dict_get d k = Some l -> l <> []) ->
             forall k (l : list str),
               dict_get
                 (fold_left
                    (fun parsed nv =>
                       match dict_get parsed (fst nv) with
                       | Some vs => dict_set parsed (fst nv) (vs ++ [snd nv])
                       | None => dict_set parsed (fst nv) [snd nv]
                       end) pairs d) k = Some l -> l <> []).
  { induction pairs as [|[n v] pairs IH]; intros d Hd; [exact Hd|].
    cbn [fold_left fst snd]. apply IH. intros k' l'.
    destruct (str_eqb n k') eqn:E.
    - apply str_eqb_eq in E; subst k'.
      destruct (dict_get d n); rewrite dict_get_set_same;
        intros [= <-]; [now destruct l0|discriminate].
    - destruct (dict_get d n); rewrite dict_get_set_other by exact E;
        apply Hd. }
  apply G. intros k' l'. discriminate.
Qed.

(** The message built from a parsed form holds the two fields. *)
Lemma form_message_total qs s :
  form_message (urllib.parse_qs qs) s
  = (Ok [(txt "username", field (urllib.parse_qs qs) (txt "username"));
         (txt "message", field (urllib.parse_qs qs) (txt "message"))], s).
Proof.
  assert (G : forall k (s : HState),
             index0 (dict_get_default (urllib.parse_qs qs) k [[]]) s
             = (Ok (field (urllib.parse_qs qs) k), s)).
  { intros k s0. unfold field, dict_get_default.
    destruct (dict_get (urllib.parse_qs qs) k) as [l|] eqn:E; [|reflexivity].
    apply parse_qs_values_nonempty in E. now destruct l. }
  unfold form_message, bind. rewrite !G. reflexivity.
Qed.

(** The steps of [do_POST] on the message endpoint up to the call of
    [send_to_socket]. *)
Lemma do_POST_message env self n body text s :
  path self = txt "/message" ->
  py_int (headers_get (headers self) (txt "Content-Length")) = Ok n ->
  rfile_read (memory env) (rfile self) n = Ok body ->
  decode_utf8 body = Some text ->
  do_POST env self s
  = bind (send_to_socket env (frames env)
            [(txt "username", field (urllib.parse_qs text) (txt "username"));
             (txt "message", field (urllib.parse_qs text) (txt "message"))])
         (fun _ => redirect_to_home) s.
Proof.
  intros Hpath Hlen Hbody Hdec. unfold do_POST. rewrite Hpath.
  change (str_eqb (txt "/message") (txt "/message")) with true. cbv iota.
  unfold bind at 1, lift at 1. rewrite Hlen.
  unfold bind at 1, lift at 1. rewrite Hbody.
  unfold bind at 1, lift at 1. rewrite Hdec.
  unfold bind at 1. rewrite form_message_total. reflexivity.
Qed.

Lemma redirect_to_home_run s :
  redirect_to_home s
  = (Ok tt, {| wfile := wfile s ++ redirect; hlog := hlog s; net := net s |}).
Proof.
  unfold redirect_to_home. run_http. cbn. rewrite <- !app_assoc. reflexivity.
Qed.

(** With both fields present, [send_to_socket] opens one socket, connects
    once, sends the payload unless the connection failed, closes the socket,
    and logs a failure of the transport; it writes nothing to the client and
    returns normally in every case. *)
Lemma send_to_socket_delivers env depth (u m : str) s :
  u <> [] -> m <> [] ->
  send_to_socket env (S depth) [(txt "username", u); (txt "message", m)] s
  = (Ok tt,
     {| wfile := wfile s;
        hlog := hlog s ++ match transport env with
                          | Reachable => []
                          | ConnectFails e | SendFails e =>
                            [(ERROR, SendFailed e)]
                          end;
        net := net s
               ++ [SockOpen;
                   SockConnect (SOCKET_HOST (cfg env)) (SOCKET_PORT (cfg env))]
               ++ match transport env with
                  | ConnectFails _ => []
                  | Reachable | SendFails _ => [SockSendall (payload_of u m)]
                  end
               ++ [SockClose] |}).
Proof.
  intros Hu Hm. unfold send_to_socket, missing.
  change (dict_get [(txt "username", u); (txt "message", m)] (txt "username"))
    with (Some u).
  change (dict_get [(txt "username", u); (txt "message", m)] (txt "message"))
    with (Some m).
  destruct u as [|cu u]; [congruence|]. destruct m as [|cm m]; [congruence|].
  cbn [truthy negb orb].
  unfold deliver, try_except, try_finally, bind, sock, modify, raise, ret.
  destruct (transport env) as [|e|e].
  - rewrite encode_message_total. cbn -[payload_of].
    rewrite app_nil_r, <- !app_assoc. reflexivity.
  - cbn -[issubclass]. rewrite issubclass_Exception. cbn.
    rewrite <- !app_assoc. reflexivity.
  - rewrite encode_message_total. cbn -[issubclass payload_of].
    rewrite issubclass_Exception. cbn -[payload_of].
    rewrite <- !app_assoc. reflexivity.
Qed.

(** With a field missing, [send_to_socket] logs, sends the error page and
    returns normally to its caller; no socket is opened. *)
Lemma send_to_socket_rejects env depth (u m : str) content s :
  u = [] \/ m = [] ->
  open_rb (fs env) (txt "error.html") = Ok content ->
  send_to_socket env (S (S (S depth)))
                 [(txt "username", u); (txt "message", m)] s
  = (Ok tt, {| wfile := wfile s ++ page 404 (txt "text/html") content;
               hlog := hlog s ++ [(ERROR, MissingFields)];
               net := net s |}).
Proof.
  intros Hum Herr. unfold send_to_socket, missing.
  change (dict_get [(txt "username", u); (txt "message", m)] (txt "username"))
    with (Some u).
  change (dict_get [(txt "username", u); (txt "message", m)] (txt "message"))
    with (Some m).
  assert (E : negb (truthy u) || negb (truthy m) = true).
  { destruct Hum as [-> | ->]; [reflexivity|]. apply orb_true_r. }
  cbv beta iota. rewrite E. unfold bind, logging, modify.
  rewrite send_error_page_ok with (content := content) by exact Herr.
  reflexivity.
Qed.

(** C10. A POST to the message endpoint without a [Content-Length] header
    raises [TypeError] out of the handler ([int(None)]): the state of the
    request is untouched, so no socket is opened and neither a redirect nor
    the error page is written. *)
Theorem C10_post_without_content_length_raises env self s :
  path self = txt "/message" ->
  headers_get (headers self) (txt "Content-Length") = None ->
  do_POST env self s = (Raise TypeError, s).
Proof.
  intros Hpath Hnone. unfold do_POST. rewrite Hpath.
  change (str_eqb (txt "/message") (txt "/message")) with true. cbv iota.
  unfold bind at 1, lift at 1. rewrite Hnone. reflexivity.
Qed.

(** C10 on a run: a form posted without the header. *)
Lemma C10_witness :
  do_POST (Demo.henv Demo.site Reachable)
          (Demo.request "/message" [("Host", "localhost")]%string
                        "username=alice&message=hello")
          HState0
  = (Raise TypeError, HState0).
Proof.
  exact (C10_post_without_content_length_raises
           (Demo.henv Demo.site Reachable)
           (Demo.request "/message" [("Host", "localhost")]%string
                         "username=alice&message=hello")
           HState0 eq_refl eq_refl).
Defined.

(** C3. A POST to the message endpoint whose form holds a non-empty
    [username] and a non-empty [message] makes one delivery attempt - one
    socket, one [connect], and one [sendall] of the JSON text unless the
    [connect] failed - and then answers with the redirect to [/] and nothing
    else, also when the transport fails (the failure is logged). *)
Theorem C3_one_delivery_attempt_then_redirect env self n body text :
  path self = txt "/message" ->
  py_int (headers_get (headers self) (txt "Content-Length")) = Ok n ->
  rfile_read (memory env) (rfile self) n = Ok body ->
  decode_utf8 body = Some text ->
  field (urllib.parse_qs text) (txt "username") <> [] ->
  field (urllib.parse_qs text) (txt "message") <> [] ->
  0 < frames env ->
  let u := field (urllib.parse_qs text) (txt "username") in
  let m := field (urllib.parse_qs text) (txt "message") in
  let r := do_POST env self HState0 in
  fst r = Ok tt
  /\ wfile (snd r) = redirect
  /\ net (snd r)
     = [SockOpen; SockConnect (SOCKET_HOST (cfg env)) (SOCKET_PORT (cfg env))]
       ++ match transport env with
          | ConnectFails _ => []
          | Reachable | SendFails _ => [SockSendall (payload_of u m)]
          end
       ++ [SockClose]
  /\ connects (net (snd r)) = 1
  /\ sends (net (snd r))
     = match transport env with ConnectFails _ => 0 | _ => 1 end
  /\ hlog (snd r)
     = match transport env with
       | Reachable => []
       | ConnectFails e | SendFails e => [(ERROR, SendFailed e)]
       end.
Proof.
  intros Hpath Hlen Hbody Hdec Hu Hm Hf u m r. subst u m r.
  rewrite (do_POST_message env self HState0 Hpath Hlen Hbody Hdec).
  destruct (frames env) as [|depth]; [lia|].
  unfold bind.
  rewrite (send_to_socket_delivers env depth HState0 Hu Hm).
  rewrite redirect_to_home_run.
  cbn [fst snd wfile hlog net HState0 app].
  destruct (transport env); repeat split; reflexivity.
Qed.

(** C3 on a run: the socket server refuses the connection, the browser is
    redirected all the same. *)
Lemma C3_witness :
  let env := Demo.henv Demo.site (ConnectFails ConnectionRefusedError) in
  let r := do_POST env
                   (Demo.request "/message" [("Content-Length", "28")]%string
                                 "username=alice&message=hello")
                   HState0 in
  fst r = Ok tt
  /\ wfile (snd r) = redirect
  /\ net (snd r)
     = [SockOpen; SockConnect (txt "127.0.0.1") 5000] ++ [] ++ [SockClose]
  /\ connects (net (snd r)) = 1
  /\ sends (net (snd r)) = 0
  /\ hlog (snd r) = [(ERROR, SendFailed ConnectionRefusedError)].
Proof.
  refine (C3_one_delivery_attempt_then_redirect
            (Demo.henv Demo.site (ConnectFails ConnectionRefusedError))
            (Demo.request "/message" [("Content-Length", "28")]%string
                          "username=alice&message=hello")
            (n := 28) (body := blit "username=alice&message=hello")
            (text := txt "username=alice&message=hello")
            eq_refl eq_refl eq_refl eq_refl _ _ _).
  - vm_compute. discriminate.
  - vm_compute. discriminate.
  - vm_compute. lia.
Defined.

(** X3. With a field missing and [error.html] readable, [do_POST] writes
    the error page and then, back from [send_to_socket], the redirect as
    well; no socket is opened. *)
Lemma do_POST_missing_field env self n body text content :
  path self = txt "/message" ->
  py_int (headers_get (headers self) (txt "Content-Length")) = Ok n ->
  rfile_read (memory env) (rfile self) n = Ok body ->
  decode_utf8 body = Some text ->
  field (urllib.parse_qs text) (txt "username") = []
  \/ field (urllib.parse_qs text) (txt "message") = [] ->
  open_rb (fs env) (txt "error.html") = Ok content ->
  3 <= frames env ->
  do_POST env self HState0
  = (Ok tt, {| wfile := page 404 (txt "text/html") content ++ redirect;
               hlog := [(ERROR, MissingFields)];
               net := [] |}).
Proof.
  intros Hpath Hlen Hbody Hdec Hum Herr Hf.
  rewrite (do_POST_message env self HState0 Hpath Hlen Hbody Hdec).
  destruct (frames env) as [|[|[|depth]]]; try lia.
  unfold bind.
  rewrite (send_to_socket_rejects env depth HState0 Hum Herr).
  rewrite redirect_to_home_run. reflexivity.
Qed.

(** C1, on the code. The form [username=&message=hello] has no [username]:
    no socket is opened and the error page is written, but a 302 redirect
    follows it on the same response. *)
Lemma C1_error_page_is_followed_by_redirect :
  let r := do_POST (Demo.henv Demo.site Reachable)
                   (Demo.request "/message" [("Content-Length", "23")]%string
                                 "username=&message=hello")
                   HState0 in
  r = (Ok tt,
       {| wfile := page 404 (txt "text/html") (blit "<h1>404</h1>") ++ redirect;
          hlog := [(ERROR, MissingFields)];
          net := [] |})
  /\ has_status 302 (wfile (snd r)) = true.
Proof. vm_compute. split; reflexivity. Qed.

(** ** GET *)

(** X10. Below [/static/] the file named by the route without its leading
    slash is sent with the type the extension maps to,
    [application/octet-stream] when it maps to none. *)
Lemma do_GET_static env self route content s :
  urllib.urlparse_path (path self) = Ok route ->
  startswith route (txt "/static/") = true ->
  open_rb (fs env) (tl route) = Ok content ->
  0 < frames env ->
  do_GET env self s
  = (Ok tt,
     {| wfile := wfile s
                 ++ page 200
                      (match guess_type (mime env) (tl route) with
                       | Some (c :: t) => c :: t
                       | _ => txt "application/octet-stream"
                       end) content;
        hlog := hlog s; net := net s |}).
Proof.
  intros Hroute Hstatic Hopen Hf.
  rewrite (do_GET_dispatch env self s Hroute).
  unfold target.
  pose proof (static_route_is_no_page route Hstatic) as Hn.
  apply orb_false_iff in Hn as [Hn H4].
  apply orb_false_iff in Hn as [Hn H3].
  rewrite Hn, H3, H4, Hstatic.
  destruct (frames env) as [|depth]; [lia|].
  now rewrite send_static_file_ok with (content := content).
Qed.






(** A file which opens and cannot be read: the status line and the headers
    have been written when [read] raises. *)
Example get_read_failure_leaves_headers :
  do_GET (Demo.henv (Dir [(txt "index.html", Special OSError)]) Reachable)
         (Demo.request "/" [] "") HState0
  = (Raise OSError,
     {| wfile := head 200 (txt "text/html"); hlog := []; net := [] |}).
Proof. vm_compute. reflexivity. Qed.

(** C6, on the code.  The route [/static/../main.py] starts with
    [/static/]; the path opened, [static/../main.py], leads to [main.py] in
    the working directory, which is not below [static]; its content is
    sent, typed by its extension. *)
Lemma C6_static_route_escapes_static_root :
  let env := Demo.henv Demo.site Reachable in
  let self := Demo.request "/static/../main.py" [] "" in
  urllib.urlparse_path (path self) = Ok (txt "/static/../main.py")
  /\ startswith (txt "/static/../main.py") (txt "/static/") = true
  /\ resolve (fs env) (txt "static/../main.py") = Ok [txt "main.py"]
  /\ below (cwd (fs env) ++ [txt "static"]) [txt "main.py"] = false
  /\ do_GET env self HState0
     = (Ok tt, {| wfile := page 200 (txt "text/x-python") (blit "import config");
                  hlog := []; net := [] |}).
Proof. vm_compute. repeat split. Qed.

(* ================================================================== *)
(** * From the front to the listener: the JSON text read back *)
(* ================================================================== *)

(** [lia] on [N] with quotients and remainders taken as unknowns. *)
Ltac nlia :=
  repeat match goal with
         | |- context [N.div ?a ?b] =>
           let q := fresh "q" in set (q := N.div a b) in *; clearbody q
         | |- context [N.modulo ?a ?b] =>
           let q := fresh "q" in set (q := N.modulo a b) in *; clearbody q
         | H : context [N.div ?a ?b] |- _ =>
           let q := fresh "q" in set (q := N.div a b) in *; clearbody q
         | H : context [N.modulo ?a ?b] |- _ =>
           let q := fresh "q" in set (q := N.modulo a b) in *; clearbody q
         end;
  lia.

Lemma hexval_hexdigit d : (d < 16)%N -> json.hexval (json.hexdigit d) = Some d.
Proof.
  intros H. unfold json.hexval, json.hexdigit, in_range.
  destruct (N.ltb_spec d 10);
    repeat match goal with
           | |- context [(?a <=? ?b)%N] => destruct (N.leb_spec a b)
           end; cbn [andb]; try lia; f_equal; lia.
Qed.

Lemma hex4_uescape n r :
  (n < 65536)%N ->
  json.hex4 (json.hexdigit (n / 4096) :: json.hexdigit ((n / 256) mod 16)
             :: json.hexdigit ((n / 16) mod 16) :: json.hexdigit (n mod 16) :: r)
  = Some (n, r).
Proof.
  intros H. unfold json.hex4.
  rewrite (@hexval_hexdigit (n / 4096))
    by (apply N.Div0.div_lt_upper_bound; lia).
  rewrite !hexval_hexdigit by (apply N.mod_lt; lia).
  f_equal. f_equal.
  replace (n / 4096)%N with (n / 16 / 16 / 16)%N
    by (rewrite !N.Div0.div_div; reflexivity).
  replace (n / 256)%N with (n / 16 / 16)%N
    by (rewrite !N.Div0.div_div; reflexivity).
  pose proof (N.div_mod' n 16) as E1.
  pose proof (N.div_mod' (n / 16) 16) as E2.
  pose proof (N.div_mod' (n / 16 / 16) 16) as E3.
  lia.
Qed.

Lemma scalar_bounds c :
  scalar c = true -> (c < 1114112)%N /\ is_surrogate c = false.
Proof.
  unfold scalar. intros H. apply andb_true_iff in H as [H1 H2].
  apply N.ltb_lt in H1. apply negb_true_iff in H2. auto.
Qed.

Lemma scanstring_uescape n f tail acc :
  (n < 65536)%N ->
  json.scanstring (S f) (json.uescape n ++ tail) acc
  = match json.is_high_surrogate n with
    | false => json.scanstring f tail (n :: acc)
    | true =>
      match tail with
      | b :: u :: r3 =>
        if (b =? json.BACKSLASH)%N && (u =? json.ch "u")%N then
          match json.hex4 r3 with
          | None => None
          | Some (u2, r4) =>
            if json.is_low_surrogate u2
            then json.scanstring f r4 (json.join_surrogates n u2 :: acc)
            else json.scanstring f tail (n :: acc)
          end
        else json.scanstring f tail (n :: acc)
      | _ => json.scanstring f tail (n :: acc)
      end
    end.
Proof.
  intros H. unfold json.uescape. cbn [app json.scanstring].
  change ((json.BACKSLASH =? json.QUOTE)%N) with false.
  change ((json.BACKSLASH =? json.BACKSLASH)%N) with true.
  change ((json.ch "u" =? json.ch "u")%N) with true.
  cbv iota. rewrite hex4_uescape by exact H.
  destruct (json.is_high_surrogate n); reflexivity.
Qed.

Lemma scanstring_simple f e x tail acc :
  (e =? json.ch "u")%N = false ->
  json.simple_escape e = Some x ->
  json.scanstring (S f) (json.BACKSLASH :: e :: tail) acc
  = json.scanstring f tail (x :: acc).
Proof.
  intros Hu Hx. cbn [json.scanstring].
  change ((json.BACKSLASH =? json.QUOTE)%N) with false.
  change ((json.BACKSLASH =? json.BACKSLASH)%N) with true.
  cbv iota. rewrite Hu, Hx. reflexivity.
Qed.

(** Reading back one escaped character. *)
Lemma scanstring_escape_char c f tail acc :
  scalar c = true ->
  json.scanstring (S f) (json.escape_char c ++ tail) acc
  = json.scanstring f tail (c :: acc).
Proof.
  intros Hc. apply scalar_bounds in Hc as [Hlt Hs].
  unfold json.escape_char.
  destruct (c =? json.QUOTE)%N eqn:Hq.
  { apply N.eqb_eq in Hq; subst c. now apply scanstring_simple. }
  destruct (c =? json.BACKSLASH)%N eqn:Hb.
  { apply N.eqb_eq in Hb; subst c. now apply scanstring_simple. }
  destruct (in_range 32 126 c) eqn:Hr.
  { cbn [app json.scanstring]. rewrite Hq, Hb.
    unfold in_range in Hr. apply andb_true_iff in Hr as [Hlo _].
    apply N.leb_le in Hlo.
    destruct (N.leb_spec c 31); [lia|reflexivity]. }
  destruct (c =? 8)%N eqn:E8.
  { apply N.eqb_eq in E8; subst c. now apply scanstring_simple. }
  destruct (c =? 12)%N eqn:E12.
  { apply N.eqb_eq in E12; subst c. now apply scanstring_simple. }
  destruct (c =? 10)%N eqn:E10.
  { apply N.eqb_eq in E10; subst c. now apply scanstring_simple. }
  destruct (c =? 13)%N eqn:E13.
  { apply N.eqb_eq in E13; subst c. now apply scanstring_simple. }
  destruct (c =? 9)%N eqn:E9.
  { apply N.eqb_eq in E9; subst c. now apply scanstring_simple. }
  destruct (c <? 65536)%N eqn:Hbmp.
  { apply N.ltb_lt in Hbmp. rewrite scanstring_uescape by exact Hbmp.
    assert (Hh : json.is_high_surrogate c = false).
    { unfold json.is_high_surrogate, is_surrogate, in_range in *.
      apply andb_false_iff in Hs.
      apply andb_false_iff.
      destruct Hs as [Hs|Hs]; [left; exact Hs|].
      right. apply N.leb_gt in Hs. apply N.leb_gt. lia. }
    now rewrite Hh. }
  apply N.ltb_ge in Hbmp.
  assert (Hn : (c - 65536 < 1048576)%N) by (clear - Hlt Hbmp; lia).
  assert (Hcn : c = (65536 + (c - 65536))%N) by (clear - Hlt Hbmp; lia).
  revert Hn Hcn. generalize (c - 65536)%N. intros n Hn Hcn.
  assert (Hq1 : (n / 1024 < 1024)%N)
    by (apply N.Div0.div_lt_upper_bound; lia).
  rewrite (N.mod_small _ _ Hq1).
  pose proof (N.mod_lt n 1024) as Hm.
  rewrite <- app_assoc.
  rewrite scanstring_uescape by nlia.
  assert (Hh : json.is_high_surrogate (55296 + n / 1024) = true).
  { unfold json.is_high_surrogate, in_range.
    apply andb_true_iff; split; apply N.leb_le; nlia. }
  rewrite Hh. unfold json.uescape at 1. cbn [app].
  change ((json.BACKSLASH =? json.BACKSLASH)%N) with true.
  change ((json.ch "u" =? json.ch "u")%N) with true.
  cbn [andb]. rewrite hex4_uescape by (specialize (Hm ltac:(lia)); nlia).
  assert (Hl : json.is_low_surrogate (56320 + n mod 1024) = true).
  { unfold json.is_low_surrogate, in_range.
    specialize (Hm ltac:(lia)).
    apply andb_true_iff; split; apply N.leb_le; nlia. }
  rewrite Hl. f_equal. f_equal.
  unfold json.join_surrogates.
  pose proof (N.div_mod' n 1024). nlia.
Qed.

Lemma scanstring_escaped s :
  scalar_text s ->
  forall fuel acc rest,
    List.length s < fuel ->
    json.scanstring fuel (flat_map json.escape_char s ++ json.QUOTE :: rest) acc
    = Some (rev acc ++ s, rest).
Proof.
  induction 1 as [|c s Hc Hs IH]; intros fuel acc rest Hfuel.
  - destruct fuel as [|f]; [cbn in Hfuel; lia|].
    cbn [flat_map app json.scanstring].
    rewrite N.eqb_refl, app_nil_r. reflexivity.
  - destruct fuel as [|f]; [cbn in Hfuel; lia|].
    cbn [flat_map]. rewrite <- app_assoc.
    rewrite scanstring_escape_char by exact Hc.
    rewrite IH by (cbn in Hfuel; lia).
    cbn [rev]. rewrite <- app_assoc. reflexivity.
Qed.

Lemma escape_char_nonempty c : 1 <= List.length (json.escape_char c).
Proof.
  unfold json.escape_char, json.uescape.
  repeat match goal with
         | |- context [if ?b then _ else _] => destruct b
         end; cbn [List.length app]; lia.
Qed.

Lemma flat_map_escape_length s :
  List.length s <= List.length (flat_map json.escape_char s).
Proof.
  induction s as [|c s IH]; cbn [flat_map List.length]; [lia|].
  rewrite length_app. pose proof (escape_char_nonempty c). lia.
Qed.

(** A string literal is read back as the string it encodes. *)
Lemma scan_once_string F s rest :
  scalar_text s ->
  json.scan_once (S F) (json.encode_basestring_ascii s ++ rest)
  = Some (PStr s, rest).
Proof.
  intros Hs. unfold json.encode_basestring_ascii.
  cbn [app json.scan_once]. rewrite N.eqb_refl.
  rewrite <- app_assoc. cbn [app].
  rewrite scanstring_escaped; [reflexivity|exact Hs|].
  rewrite length_app. pose proof (flat_map_escape_length s).
  cbn [List.length]. lia.
Qed.

(** One member of an object whose value is a string. *)
Lemma JSONObject_member F n k v rest acc :
  scalar_text k -> scalar_text v ->
  json.JSONObject (json.scan_once (S F)) (S n)
    (json.encode_basestring_ascii k ++ txt ": "
       ++ json.encode_basestring_ascii v ++ rest) acc
  = match json.skip_ws rest with
    | d :: r4 =>
      if (d =? json.ch "}")%N
      then Some (PDict (dict_set acc k (PStr v)), r4)
      else if (d =? json.ch ",")%N
      then json.JSONObject (json.scan_once (S F)) n (json.skip_ws r4)
                           (dict_set acc k (PStr v))
      else None
    | [] => None
    end.
Proof.
  intros Hk Hv.
  unfold json.encode_basestring_ascii at 1.
  cbn [app json.JSONObject]. rewrite N.eqb_refl.
  rewrite <- app_assoc. cbn [app].
  rewrite scanstring_escaped;
    [|exact Hk
     |rewrite length_app; pose proof (flat_map_escape_length k);
      cbn [List.length]; lia].
  cbn [rev app txt list_ascii_of_string map json.skip_ws].
  change (json.is_ws (N_of_ascii ":")) with false.
  change (json.is_ws (N_of_ascii " ")) with true.
  cbv iota.
  change ((N_of_ascii ":" =? json.ch ":")%N) with true. cbv iota.
  assert (E : json.skip_ws
                (N_of_ascii " " :: json.encode_basestring_ascii v ++ rest)
              = json.encode_basestring_ascii v ++ rest) by reflexivity.
  rewrite E, scan_once_string by exact Hv.
  reflexivity.
Qed.

(** An object whose first key follows the brace directly. *)
Lemma scan_once_object F k rest :
  json.scan_once (S F) (json.ch "{" :: json.encode_basestring_ascii k ++ rest)
  = json.JSONObject (json.scan_once F)
      (List.length (json.encode_basestring_ascii k ++ rest))
      (json.encode_basestring_ascii k ++ rest) [].
Proof. reflexivity. Qed.

(** The listener reads back the message the front wrote. *)
Lemma loads_message_text u m :
  scalar_text u -> scalar_text m ->
  json.loads (message_text u m)
  = Some (PDict [(txt "username", PStr u); (txt "message", PStr m)]).
Proof.
  intros Hu Hm. unfold json.loads, message_text.
  assert (Hku : scalar_text (txt "username")) by (repeat constructor).
  assert (Hkm : scalar_text (txt "message")) by (repeat constructor).
  set (body := json.encode_basestring_ascii (txt "username") ++ _).
  change (json.skip_ws (json.ch "{" :: body)) with (json.ch "{" :: body).
  unfold body at 2. rewrite scan_once_object. fold body.
  assert (Hlen : 2 <= List.length body).
  { unfold body, json.encode_basestring_ascii.
    cbn [List.length app]. rewrite !length_app. cbn [List.length]. lia. }
  cbn [List.length].
  destruct (List.length body) as [|[|n]]; try lia. clear Hlen.
  unfold body.
  rewrite JSONObject_member by assumption.
  clear body.
  assert (E1 : forall x,
             json.skip_ws (txt ", " ++ x)
             = N_of_ascii "," :: N_of_ascii " " :: x)
    by reflexivity.
  rewrite E1. cbv iota.
  change ((N_of_ascii "," =? json.ch "}")%N) with false.
  change ((N_of_ascii "," =? json.ch ",")%N) with true. cbv iota.
  assert (E2 : forall x,
             json.skip_ws
               (N_of_ascii " "
                  :: json.encode_basestring_ascii (txt "message") ++ x)
             = json.encode_basestring_ascii (txt "message") ++ x)
    by reflexivity.
  rewrite E2.
  rewrite JSONObject_member by assumption.
  change (json.skip_ws [json.ch "}"]) with [json.ch "}"]. cbv iota.
  change ((json.ch "}" =? json.ch "}")%N) with true. cbv iota.
  reflexivity.
Qed.

Lemma to_N_byte_of_N c : (c < 256)%N -> Byte.to_N (byte_of_N c) = c.
Proof.
  intros H. unfold byte_of_N.
  destruct (Byte.of_N c) as [b|] eqn:E.
  - now apply Byte.to_of_N.
  - apply Byte.of_N_None_iff in E. lia.
Qed.

Lemma decode_cps_ascii s : ascii_only s -> decode_cps s = Some s.
Proof.
  induction 1 as [|c s Hc Hs IH]; [reflexivity|].
  cbn [decode_cps]. apply N.ltb_lt in Hc. rewrite Hc, IH. reflexivity.
Qed.

Lemma decode_utf8_ascii s :
  ascii_only s -> decode_utf8 (map byte_of_N s) = Some s.
Proof.
  intros H. unfold decode_utf8. rewrite map_map.
  replace (map (fun x => Byte.to_N (byte_of_N x)) s) with s.
  - now apply decode_cps_ascii.
  - induction H as [|c s Hc Hs IH]; [reflexivity|].
    cbn [map]. rewrite to_N_byte_of_N by lia. now f_equal.
Qed.

(** What the front sends is what the listener parses. *)
Lemma parse_payload_of u m :
  scalar_text u -> scalar_text m ->
  parse_payload (payload_of u m)
  = Ok (PDict [(txt "username", PStr u); (txt "message", PStr m)]).
Proof.
  intros Hu Hm. unfold parse_payload, payload_of.
  rewrite decode_utf8_ascii by apply message_text_ascii.
  now rewrite loads_message_text.
Qed.

(* ================================================================== *)
(** * The two processes *)
(* ================================================================== *)

(** When the start-up check fails with a [ConnectionFailure], the socket
    server logs it and returns: no [bind], no [listen], no [accept]. *)
Lemma run_socket_server_unreachable env arrivals s e :
  ping env = Some e ->
  issubclass e ConnectionFailure = true ->
  run_socket_server env arrivals s
  = (Ok tt, {| sink := sink s; llog := llog s ++ [(ERROR, MongoUnreachable)];
               srv := srv s; clock := clock s |}).
Proof.
  intros Hp He.
  unfold run_socket_server, try_except, bind, llogging, modify, raise, ret.
  rewrite Hp. cbn -[issubclass]. rewrite He. reflexivity.
Qed.

(** C5. When the check of the store at the start of the socket server fails
    because the store cannot be reached, the socket server logs the failure
    and returns without binding, listening or accepting, whatever
    connections are attempted.  The HTTP server runs all the same, whatever
    the state of the transport to the socket server: it logs its start and
    answers every request; a GET for a page or for a static file which can
    be read is answered with that file under status 200. *)
Theorem C5_store_unreachable_at_startup henv lenv k t requests arrivals e :
  ping lenv = Some e ->
  issubclass e ConnectionFailure = true ->
  let http := fst (main henv lenv k t requests arrivals) in
  snd (main henv lenv k t requests arrivals)
  = (Ok tt, {| sink := k; llog := [(ERROR, MongoUnreachable)];
               srv := []; clock := t |})
  /\ fst http
     = [(INFO, HttpServerStarted (HTTP_HOST (cfg henv))
                                 (HTTP_PORT (cfg henv)))]
  /\ List.length (snd http) = List.length requests
  /\ (forall i self route f content,
         nth_error requests i = Some (GET, self) ->
         urllib.urlparse_path (path self) = Ok route ->
         target route = Some f ->
         open_rb (fs henv) f = Ok content ->
         0 < frames henv ->
         nth_error (snd http) i
         = Some (Ok tt,
                 {| wfile :=
                      page 200
                           (if startswith route (txt "/static/")
                            then py_or (guess_type (mime henv) f)
                                       (txt "application/octet-stream")
                            else txt "text/html")
                           content;
                    hlog := []; net := [] |})).
Proof.
  intros Hp He http. subst http. unfold main. cbn [fst snd].
  split; [apply (run_socket_server_unreachable lenv arrivals (LState0 k t) Hp He)|].
  split; [reflexivity|].
  unfold run_http_server, serve_forever. cbn [fst snd].
  split; [apply length_map|].
  intros i self route f content Hi Hr Ht Ho Hf.
  rewrite nth_error_map, Hi. cbn [option_map fst snd handle_one_request].
  rewrite (do_GET_dispatch henv self HState0 Hr), Ht.
  destruct (frames henv) as [|depth]; [lia|].
  destruct (startswith route (txt "/static/")).
  - now rewrite send_static_file_ok with (content := content).
  - now rewrite send_html_file_ok with (content := content).
Qed.

(** C5 on a run: server selection times out, nothing listens on the port
    of the socket server, and the home page is served. *)
Lemma C5_witness :
  let henv := Demo.henv Demo.site (ConnectFails ConnectionRefusedError) in
  let lenv := Demo.lenv (Some ServerSelectionTimeoutError) in
  let requests := [(GET, Demo.request "/" [] "")] in
  let arrivals := [Demo.conn (blit "{}")] in
  let http := fst (main henv lenv Demo.empty_sink 0 requests arrivals) in
  snd (main henv lenv Demo.empty_sink 0 requests arrivals)
  = (Ok tt, {| sink := Demo.empty_sink; llog := [(ERROR, MongoUnreachable)];
               srv := []; clock := 0 |})
  /\ fst http
     = [(INFO, HttpServerStarted (HTTP_HOST (cfg henv))
                                 (HTTP_PORT (cfg henv)))]
  /\ List.length (snd http) = List.length requests
  /\ (forall i self route f content,
         nth_error requests i = Some (GET, self) ->
         urllib.urlparse_path (path self) = Ok route ->
         target route = Some f ->
         open_rb (fs henv) f = Ok content ->
         0 < frames henv ->
         nth_error (snd http) i
         = Some (Ok tt,
                 {| wfile :=
                      page 200
                           (if startswith route (txt "/static/")
                            then py_or (guess_type (mime henv) f)
                                       (txt "application/octet-stream")
                            else txt "text/html")
                           content;
                    hlog := []; net := [] |})).
Proof.
  exact (C5_store_unreachable_at_startup
           (Demo.henv Demo.site (ConnectFails ConnectionRefusedError))
           (Demo.lenv (Some ServerSelectionTimeoutError))
           Demo.empty_sink 0
           [(GET, Demo.request "/" [] "")] [Demo.conn (blit "{}")]
           eq_refl eq_refl).
Defined.

(** The home page is served while the socket server is down. *)
Example home_page_served_without_socket_server :
  handle_one_request (Demo.henv Demo.site (ConnectFails ConnectionRefusedError))
                     GET (Demo.request "/" [] "") HState0
  = (Ok tt, {| wfile := page 200 (txt "text/html") (blit "<h1>home</h1>");
               hlog := []; net := [] |}).
Proof. reflexivity. Qed.

(* ================================================================== *)
(** * A message cut short is not JSON *)
(* ================================================================== *)

Lemma scanstring_nil fuel acc : json.scanstring fuel [] acc = None.
Proof. destruct fuel; reflexivity. Qed.

Lemma scanstring_lone_backslash fuel acc :
  json.scanstring fuel [json.BACKSLASH] acc = None.
Proof. destruct fuel; reflexivity. Qed.

Lemma hex4_short t : List.length t < 4 -> json.hex4 t = None.
Proof.
  destruct t as [|a [|b [|c [|d t]]]]; cbn [List.length]; intros H;
    try reflexivity. lia.
Qed.

Lemma scanstring_short_u fuel t acc :
  List.length t < 4 ->
  json.scanstring fuel (json.BACKSLASH :: json.ch "u" :: t) acc = None.
Proof.
  intros H. destruct fuel; [reflexivity|].
  cbn [json.scanstring].
  change ((json.BACKSLASH =? json.QUOTE)%N) with false.
  change ((json.BACKSLASH =? json.BACKSLASH)%N) with true.
  change ((json.ch "u" =? json.ch "u")%N) with true.
  cbv iota. now rewrite hex4_short.
Qed.

(** A proper prefix of a [\uXXXX] escape is never read as a string. *)
Lemma scanstring_cut_uescape n j fuel acc :
  j < 6 -> json.scanstring fuel (firstn j (json.uescape n)) acc = None.
Proof.
  intros Hj. unfold json.uescape.
  destruct j as [|[|j]].
  - apply scanstring_nil.
  - apply scanstring_lone_backslash.
  - cbn [firstn]. apply scanstring_short_u.
    rewrite length_firstn. cbn [List.length]. lia.
Qed.

Lemma uescape_length n : List.length (json.uescape n) = 6.
Proof. reflexivity. Qed.

(** A proper prefix of an escaped character is never read as a string. *)
Lemma scanstring_cut_escape_char c j fuel acc :
  scalar c = true ->
  j < List.length (json.escape_char c) ->
  json.scanstring fuel (firstn j (json.escape_char c)) acc = None.
Proof.
  intros Hc. unfold json.escape_char.
  repeat match goal with
         | |- context [if ?b then _ else _] =>
           let E := fresh "E" in destruct b eqn:E
         end;
    try (cbn [List.length]; intros Hj;
         destruct j as [|[|j]]; try lia;
         [apply scanstring_nil | apply scanstring_lone_backslash]);
    try (cbn [List.length]; intros Hj;
         destruct j as [|j]; try lia; apply scanstring_nil).
  - intros Hj. apply scanstring_cut_uescape. now rewrite uescape_length in Hj.
  - rewrite length_app, !uescape_length. intros Hj.
    destruct (Nat.lt_ge_cases j 6) as [Hlt|Hge].
    + rewrite firstn_app, uescape_length.
      replace (j - 6) with 0 by lia. cbn [firstn]. rewrite app_nil_r.
      now apply scanstring_cut_uescape.
    + rewrite firstn_app, uescape_length.
      rewrite firstn_all2 by (rewrite uescape_length; lia).
      destruct fuel as [|f]; [reflexivity|].
      assert (Hhi : (55296 + ((c - 65536) / 1024) mod 1024 < 65536)%N).
      { pose proof (N.mod_lt ((c - 65536) / 1024) 1024 ltac:(lia)). nlia. }
      rewrite scanstring_uescape by exact Hhi.
      assert (Hcut : forall x,
                 json.scanstring f
                   (firstn (j - 6)
                      (json.uescape (56320 + (c - 65536) mod 1024))) x
                 = None)
        by (intros x; apply scanstring_cut_uescape; lia).
      destruct (json.is_high_surrogate _); [|apply Hcut].
      remember (j - 6) as i eqn:Ei.
      unfold json.uescape in *.
      destruct i as [|[|i]].
      * apply scanstring_nil.
      * apply (Hcut _).
      * cbn [firstn].
        change ((json.BACKSLASH =? json.BACKSLASH)%N) with true.
        change ((json.ch "u" =? json.ch "u")%N) with true.
        cbn [andb]. rewrite hex4_short; [reflexivity|].
        rewrite length_firstn. cbn [List.length]. lia.
Qed.

(** An escaped string cut before its closing quote is never read. *)
Lemma scanstring_cut s :
  scalar_text s ->
  forall j fuel acc,
    json.scanstring fuel (firstn j (flat_map json.escape_char s)) acc = None.
Proof.
  induction 1 as [|c s Hc Hs IH]; intros j fuel acc.
  - cbn [flat_map]. rewrite firstn_nil. apply scanstring_nil.
  - cbn [flat_map]. rewrite firstn_app.
    destruct (Nat.lt_ge_cases j (List.length (json.escape_char c)))
      as [Hlt|Hge].
    + replace (j - List.length (json.escape_char c)) with 0 by lia.
      cbn [firstn]. rewrite app_nil_r.
      now apply scanstring_cut_escape_char.
    + rewrite firstn_all2 by exact Hge.
      destruct fuel as [|f]; [reflexivity|].
      rewrite scanstring_escape_char by exact Hc. apply IH.
Qed.

Lemma encode_length s :
  List.length (json.encode_basestring_ascii s)
  = S (S (List.length (flat_map json.escape_char s))).
Proof.
  unfold json.encode_basestring_ascii. cbn [List.length].
  rewrite length_app. cbn [List.length]. lia.
Qed.

(** The shape of a cut string literal: nothing, or the opening quote and a
    prefix of the escaped characters. *)
Lemma firstn_encode s j rest :
  j < List.length (json.encode_basestring_ascii s) ->
  firstn j (json.encode_basestring_ascii s ++ rest) = []
  \/ exists i, firstn j (json.encode_basestring_ascii s ++ rest)
               = json.QUOTE :: firstn i (flat_map json.escape_char s).
Proof.
  rewrite encode_length. intros Hj.
  destruct j as [|j]; [left; reflexivity|]. right. exists j.
  unfold json.encode_basestring_ascii. cbn [app firstn]. f_equal.
  rewrite <- app_assoc, firstn_app.
  replace (j - List.length (flat_map json.escape_char s)) with 0 by lia.
  cbn [firstn]. now rewrite app_nil_r.
Qed.

Lemma scan_once_nil F : json.scan_once F [] = None.
Proof. destruct F; reflexivity. Qed.

Lemma JSONObject_nil scan n acc : json.JSONObject scan n [] acc = None.
Proof. destruct n; reflexivity. Qed.

(** A cut string literal is not a value. *)
Lemma scan_once_cut_string F s j rest :
  scalar_text s ->
  j < List.length (json.encode_basestring_ascii s) ->
  json.scan_once F (firstn j (json.encode_basestring_ascii s ++ rest)) = None.
Proof.
  intros Hs Hj.
  destruct (firstn_encode rest Hj) as [-> | [i ->]];
    [apply scan_once_nil|].
  destruct F as [|F]; [reflexivity|].
  cbn [json.scan_once]. rewrite N.eqb_refl.
  now rewrite scanstring_cut.
Qed.

(** A member cut inside its key, its colon or its value is not a member. *)
Lemma JSONObject_cut_member F n k v j rest acc :
  scalar_text k -> scalar_text v ->
  j < List.length (json.encode_basestring_ascii k ++ txt ": "
                     ++ json.encode_basestring_ascii v) ->
  json.JSONObject (json.scan_once F) n
    (firstn j (json.encode_basestring_ascii k ++ txt ": "
                 ++ json.encode_basestring_ascii v ++ rest)) acc
  = None.
Proof.
  intros Hk Hv Hj.
  destruct n as [|n]; [reflexivity|].
  destruct (Nat.lt_ge_cases j (List.length (json.encode_basestring_ascii k)))
    as [Hlt|Hge].
  - destruct (firstn_encode (txt ": " ++ json.encode_basestring_ascii v
                               ++ rest) Hlt) as [-> | [i ->]];
      [reflexivity|].
    cbn [json.JSONObject]. rewrite N.eqb_refl. now rewrite scanstring_cut.
  - rewrite firstn_app, firstn_all2 by exact Hge.
    remember (j - List.length (json.encode_basestring_ascii k)) as i eqn:Ei.
    assert (Hi : i < 2 + List.length (json.encode_basestring_ascii v)).
    { rewrite length_app in Hj. cbn [txt list_ascii_of_string map] in Hj.
      rewrite length_app in Hj. cbn [List.length] in Hj. lia. }
    unfold json.encode_basestring_ascii at 1.
    cbn [app json.JSONObject]. rewrite N.eqb_refl.
    rewrite <- app_assoc. cbn [app].
    rewrite scanstring_escaped;
      [|exact Hk
       |rewrite length_app; pose proof (flat_map_escape_length k);
        cbn [List.length]; lia].
    cbn [rev app txt list_ascii_of_string map].
    destruct i as [|[|i]]; try reflexivity.
    + cbn [firstn json.skip_ws].
      change (json.is_ws (N_of_ascii ":")) with false. cbv iota.
      change ((N_of_ascii ":" =? json.ch ":")%N) with true. cbv iota.
      cbn [json.skip_ws]. now rewrite scan_once_nil.
    + cbn [firstn json.skip_ws].
      change (json.is_ws (N_of_ascii ":")) with false. cbv iota.
      change ((N_of_ascii ":" =? json.ch ":")%N) with true. cbv iota.
      cbn [json.skip_ws].
      change (json.is_ws (N_of_ascii " ")) with true. cbv iota.
      assert (Hiv : i < List.length (json.encode_basestring_ascii v))
        by lia.
      destruct (firstn_encode rest Hiv) as [E | [i' E]].
      * rewrite E. cbn [json.skip_ws]. now rewrite scan_once_nil.
      * assert (Hsk : json.skip_ws
                        (firstn i (json.encode_basestring_ascii v ++ rest))
                      = firstn i (json.encode_basestring_ascii v ++ rest))
          by (rewrite E; reflexivity).
        rewrite Hsk, scan_once_cut_string; [reflexivity|exact Hv|lia].
Qed.

Lemma JSONObject_without_scan n s acc :
  json.JSONObject (json.scan_once 0) n s acc = None.
Proof.
  destruct n as [|n]; [reflexivity|]. cbn [json.JSONObject].
  destruct s as [|q r]; [reflexivity|].
  destruct (q =? json.QUOTE)%N; [|reflexivity].
  destruct (json.scanstring _ r []) as [[key r1]|]; [|reflexivity].
  destruct (json.skip_ws r1) as [|c r2]; [reflexivity|].
  destruct (c =? json.ch ":")%N; reflexivity.
Qed.

(** Cutting a text that starts with a string literal leaves nothing to skip
    in front. *)
Lemma skip_ws_cut j k rest :
  json.skip_ws (firstn j (json.encode_basestring_ascii k ++ rest))
  = firstn j (json.encode_basestring_ascii k ++ rest).
Proof. destruct j; reflexivity. Qed.

Lemma member_length k v :
  List.length (json.encode_basestring_ascii k ++ txt ": "
                 ++ json.encode_basestring_ascii v)
  = List.length (json.encode_basestring_ascii k) + 2
    + List.length (json.encode_basestring_ascii v).
Proof. rewrite !length_app. cbn [txt list_ascii_of_string map List.length]. lia. Qed.

(** Cutting after a complete member. *)
Lemma firstn_after_member k v rest j :
  List.length (json.encode_basestring_ascii k ++ txt ": "
                 ++ json.encode_basestring_ascii v) <= j ->
  firstn j (json.encode_basestring_ascii k ++ txt ": "
              ++ json.encode_basestring_ascii v ++ rest)
  = json.encode_basestring_ascii k ++ txt ": "
      ++ json.encode_basestring_ascii v
      ++ firstn (j - List.length (json.encode_basestring_ascii k ++ txt ": "
                                    ++ json.encode_basestring_ascii v)) rest.
Proof.
  intros H.
  replace (json.encode_basestring_ascii k ++ txt ": "
             ++ json.encode_basestring_ascii v ++ rest)
    with ((json.encode_basestring_ascii k ++ txt ": "
             ++ json.encode_basestring_ascii v) ++ rest)
    by (now rewrite <- !app_assoc).
  rewrite firstn_app, firstn_all2 by exact H.
  now rewrite <- !app_assoc.
Qed.

(** The members of a message, cut anywhere before the end, are not the
    members of an object. *)
Lemma JSONObject_cut_message F n u m j :
  scalar_text u -> scalar_text m ->
  j < List.length (message_text u m) - 1 ->
  json.JSONObject (json.scan_once F) n
    (firstn j (json.encode_basestring_ascii (txt "username") ++ txt ": "
                 ++ json.encode_basestring_ascii u ++ txt ", "
                 ++ json.encode_basestring_ascii (txt "message") ++ txt ": "
                 ++ json.encode_basestring_ascii m ++ [json.ch "}"])) []
  = None.
Proof.
  intros Hu Hm Hj.
  assert (Hku : scalar_text (txt "username")) by (repeat constructor).
  assert (Hkm : scalar_text (txt "message")) by (repeat constructor).
  set (M1 := List.length (json.encode_basestring_ascii (txt "username")
                            ++ txt ": " ++ json.encode_basestring_ascii u)).
  set (M2 := List.length (json.encode_basestring_ascii (txt "message")
                            ++ txt ": " ++ json.encode_basestring_ascii m)).
  assert (Hlen : List.length (message_text u m) - 1 = M1 + 2 + M2 + 1).
  { unfold message_text, M1, M2. cbn [List.length].
    rewrite !length_app. cbn [txt list_ascii_of_string map List.length].
    lia. }
  rewrite Hlen in Hj.
  destruct (Nat.lt_ge_cases j M1) as [Hlt|Hge].
  { now apply JSONObject_cut_member. }
  rewrite firstn_after_member by exact Hge. fold M1.
  destruct F as [|F]; [apply JSONObject_without_scan|].
  destruct n as [|n]; [reflexivity|].
  rewrite JSONObject_member by assumption.
  remember (j - M1) as j1 eqn:Ej1.
  destruct j1 as [|[|j2]]; try reflexivity.
  { change (json.skip_ws (firstn 1 (txt ", " ++ ?x))) with [N_of_ascii ","].
    cbv iota.
    change ((N_of_ascii "," =? json.ch "}")%N) with false.
    change ((N_of_ascii "," =? json.ch ",")%N) with true. cbv iota.
    apply JSONObject_nil. }
  assert (E1 : forall x : str,
             json.skip_ws (firstn (S (S j2)) (txt ", " ++ x))
             = N_of_ascii "," :: N_of_ascii " " :: firstn j2 x)
    by reflexivity.
  rewrite E1. cbv iota.
  change ((N_of_ascii "," =? json.ch "}")%N) with false.
  change ((N_of_ascii "," =? json.ch ",")%N) with true. cbv iota.
  assert (E2 : forall x : str,
             json.skip_ws (N_of_ascii " " :: x) = json.skip_ws x)
    by reflexivity.
  rewrite E2, skip_ws_cut.
  destruct (Nat.lt_ge_cases j2 M2) as [Hlt2|Hge2].
  { now apply JSONObject_cut_member. }
  rewrite firstn_after_member by exact Hge2. fold M2.
  replace (j2 - M2) with 0 by lia. cbn [firstn].
  destruct n as [|n]; [reflexivity|].
  rewrite JSONObject_member by assumption. reflexivity.
Qed.

(** A message cut anywhere before its end is not JSON. *)
Lemma loads_cut_message u m j :
  scalar_text u -> scalar_text m ->
  j < List.length (message_text u m) ->
  json.loads (firstn j (message_text u m)) = None.
Proof.
  intros Hu Hm Hj. destruct j as [|j]; [reflexivity|].
  assert (Hj' : j < List.length (message_text u m) - 1)
    by (unfold message_text in *; cbn [List.length] in *; lia).
  pose proof (fun F n => JSONObject_cut_message F n Hu Hm Hj') as Hcut.
  unfold json.loads, message_text. cbn [firstn].
  set (r := firstn j _) in *.
  change (json.skip_ws (json.ch "{" :: r)) with (json.ch "{" :: r).
  cbn [json.scan_once].
  change ((json.ch "{" =? json.QUOTE)%N) with false.
  change ((json.ch "{" =? json.ch "{")%N) with true. cbv iota.
  assert (Hsk : json.skip_ws r = r) by apply skip_ws_cut.
  rewrite Hsk.
  assert (Hhead : r = [] \/ exists t, r = json.QUOTE :: t).
  { unfold r. destruct j; [left; reflexivity|right; eexists; reflexivity]. }
  destruct Hhead as [E | [t E]].
  - rewrite E. reflexivity.
  - rewrite E at 1.
    change ((json.QUOTE =? json.ch "}")%N) with false. cbv iota.
    rewrite Hcut. reflexivity.
Qed.

Lemma ascii_only_firstn j s : ascii_only s -> ascii_only (firstn j s).
Proof.
  intros H. revert j. induction H as [|c s Hc Hs IH]; intros [|j];
    cbn [firstn]; try apply ascii_only_nil.
  apply ascii_only_cons; [exact Hc|apply IH].
Qed.

(** The same on the wire: a proper prefix of the bytes of a message does
    not parse. *)
Lemma parse_cut_payload u m j :
  scalar_text u -> scalar_text m ->
  j < List.length (payload_of u m) ->
  parse_payload (firstn j (payload_of u m)) = Raise JSONDecodeError.
Proof.
  intros Hu Hm Hj. unfold parse_payload, payload_of in *.
  rewrite length_map in Hj. rewrite firstn_map.
  rewrite decode_utf8_ascii
    by (apply ascii_only_firstn, message_text_ascii).
  now rewrite loads_cut_message.
Qed.

(* ================================================================== *)
(** * The fields of a form are scalar text *)
(* ================================================================== *)

Lemma scalar_iff c :
  scalar c = true <-> (c < 55296 \/ (57343 < c /\ c < 1114112))%N.
Proof.
  unfold scalar, is_surrogate, in_range.
  rewrite andb_true_iff, negb_true_iff, andb_false_iff, N.ltb_lt,
    !N.leb_gt. lia.
Qed.

Ltac bool_to_prop :=
  repeat match goal with
         | H : (_ && _) = true |- _ => apply andb_true_iff in H as [? ?]
         | H : (_ <=? _)%N = true |- _ => apply N.leb_le in H
         | H : (_ <? _)%N = true |- _ => apply N.ltb_lt in H
         | H : (_ <? _)%N = false |- _ => apply N.ltb_ge in H
         | H : (_ =? _)%N = true |- _ => apply N.eqb_eq in H
         | H : (_ =? _)%N = false |- _ => apply N.eqb_neq in H
         | H : in_range _ _ _ = true |- _ => unfold in_range in H
         | H : is_cont _ = true |- _ => unfold is_cont in H
         end.

Lemma option_map_cons_Some (x : N) o s :
  option_map (cons x) o = Some s -> exists s', o = Some s' /\ s = x :: s'.
Proof. destruct o; cbn; intros [= <-]; eauto. Qed.

(** Strict decoding yields scalar values only. *)
Lemma decode_cps_scalar n :
  forall bs s, List.length bs <= n -> decode_cps bs = Some s -> scalar_text s.
Proof.
  induction n as [|n IH]; intros bs s Hlen Hdec.
  - destruct bs; [|cbn in Hlen; lia]. injection Hdec as <-. constructor.
  - destruct bs as [|b0 r0]; [injection Hdec as <-; constructor|].
    cbn [decode_cps] in Hdec. cbn [List.length] in Hlen.
    destruct (b0 <? 128)%N eqn:E0.
    { apply option_map_cons_Some in Hdec as (s' & Hd & ->).
      constructor; [apply scalar_iff; bool_to_prop; lia|].
      apply (IH r0); [lia|exact Hd]. }
    destruct (in_range 194 223 b0) eqn:E1.
    { destruct r0 as [|b1 r1]; [discriminate|].
      destruct (is_cont b1) eqn:C1; [|discriminate].
      apply option_map_cons_Some in Hdec as (s' & Hd & ->).
      cbn [List.length] in Hlen.
      constructor; [apply scalar_iff; bool_to_prop; lia|].
      apply (IH r1); [lia|exact Hd]. }
    destruct (in_range 224 239 b0) eqn:E2.
    { destruct r0 as [|b1 [|b2 r2]]; try discriminate.
      destruct (b0 =? 224)%N eqn:A; destruct (b0 =? 237)%N eqn:B;
        match type of Hdec with
        | (if ?c then _ else _) = _ => destruct c eqn:C; [|discriminate]
        end;
        apply option_map_cons_Some in Hdec as (s' & Hd & ->);
        cbn [List.length] in Hlen;
        (constructor; [apply scalar_iff; bool_to_prop; lia|]);
        apply (IH r2); solve [lia|exact Hd]. }
    destruct (in_range 240 244 b0) eqn:E3; [|discriminate].
    destruct r0 as [|b1 [|b2 [|b3 r3]]]; try discriminate.
    destruct (b0 =? 240)%N eqn:A; destruct (b0 =? 244)%N eqn:B;
      match type of Hdec with
      | (if ?c then _ else _) = _ => destruct c eqn:C; [|discriminate]
      end;
      apply option_map_cons_Some in Hdec as (s' & Hd & ->);
      cbn [List.length] in Hlen;
      (constructor; [apply scalar_iff; bool_to_prop; lia|]);
      apply (IH r3); solve [lia|exact Hd].
Qed.

Lemma decode_utf8_scalar b text : decode_utf8 b = Some text -> scalar_text text.
Proof. intros H. eapply decode_cps_scalar; [reflexivity|exact H]. Qed.

Lemma scalar_text_cons c s : scalar c = true -> scalar_text s -> scalar_text (c :: s).
Proof. intros; now constructor. Qed.

Lemma scalar_replacement : scalar_text [65533%N].
Proof. repeat constructor. Qed.

(** Lenient decoding yields scalar values only. *)
Lemma decode_replace_scalar n :
  forall bs, List.length bs <= n -> scalar_text (urllib.decode_replace bs).
Proof.
  induction n as [|n IH]; intros bs Hlen.
  - destruct bs; [constructor|cbn in Hlen; lia].
  - destruct bs as [|b0 r0]; [constructor|].
    cbn [List.length] in Hlen.
    assert (IH0 : scalar_text (urllib.decode_replace r0))
      by (apply IH; lia).
    cbn [urllib.decode_replace].
    destruct (b0 <? 128)%N eqn:E0.
    { apply scalar_text_cons; [apply scalar_iff; bool_to_prop; lia|auto]. }
    destruct (in_range 194 223 b0) eqn:E1.
    { destruct r0 as [|b1 r1]; [apply scalar_replacement|].
      cbn [List.length] in Hlen.
      destruct (is_cont b1) eqn:C1.
      - apply scalar_text_cons; [apply scalar_iff; bool_to_prop; lia|].
        apply IH; lia.
      - apply scalar_text_cons; [reflexivity|auto]. }
    destruct (in_range 224 239 b0) eqn:E2.
    { destruct r0 as [|b1 r1]; [apply scalar_replacement|].
      cbn [List.length] in Hlen.
      assert (IH1 : scalar_text (urllib.decode_replace r1))
        by (apply IH; lia).
      destruct (b0 =? 224)%N eqn:A; destruct (b0 =? 237)%N eqn:B;
        (match goal with
         | |- context [if ?c then _ else _] => destruct c eqn:C
         end; [|apply scalar_text_cons; [reflexivity|auto]]);
        (destruct r1 as [|b2 r2]; [apply scalar_replacement|]);
        cbn [List.length] in Hlen;
        (destruct (is_cont b2) eqn:C2;
         [|apply scalar_text_cons; [reflexivity|auto]]);
        (apply scalar_text_cons; [apply scalar_iff; bool_to_prop; lia|]);
        apply IH; lia. }
    destruct (in_range 240 244 b0) eqn:E3;
      [|apply scalar_text_cons; [reflexivity|auto]].
    destruct r0 as [|b1 r1]; [apply scalar_replacement|].
    cbn [List.length] in Hlen.
    assert (IH1 : scalar_text (urllib.decode_replace r1))
      by (apply IH; lia).
    destruct (b0 =? 240)%N eqn:A; destruct (b0 =? 244)%N eqn:B;
      (match goal with
       | |- context [if ?c then _ else _] => destruct c eqn:C
       end; [|apply scalar_text_cons; [reflexivity|auto]]);
      (destruct r1 as [|b2 r2]; [apply scalar_replacement|]);
      cbn [List.length] in Hlen;
      (assert (IH2 : scalar_text (urllib.decode_replace r2))
        by (apply IH; lia));
      (destruct (is_cont b2) eqn:C2;
       [|apply scalar_text_cons; [reflexivity|auto]]);
      (destruct r2 as [|b3 r3]; [apply scalar_replacement|]);
      cbn [List.length] in Hlen;
      (destruct (is_cont b3) eqn:C3;
       [|apply scalar_text_cons; [reflexivity|auto]]);
      (apply scalar_text_cons; [apply scalar_iff; bool_to_prop; lia|]);
      apply IH; lia.
Qed.

Lemma unquote_from_scalar s :
  scalar_text s -> forall run, scalar_text (urllib.unquote_from s run).
Proof.
  induction 1 as [|c s Hc Hs IH]; intros run; cbn [urllib.unquote_from].
  - eapply decode_replace_scalar; reflexivity.
  - destruct (c <? 128)%N; [apply IH|].
    apply Forall_app; split; [eapply decode_replace_scalar; reflexivity|].
    apply scalar_text_cons; [exact Hc|apply IH].
Qed.

Lemma plus_to_space_scalar s :
  scalar_text s -> scalar_text (urllib.plus_to_space s).
Proof.
  induction 1 as [|c s Hc Hs IH]; cbn; [constructor|].
  apply scalar_text_cons; [|exact IH].
  destruct (c =? 43)%N; [reflexivity|exact Hc].
Qed.

Lemma unquote_field_scalar s :
  scalar_text s -> scalar_text (urllib.unquote (urllib.plus_to_space s)).
Proof.
  intros H. apply unquote_from_scalar, plus_to_space_scalar, H.
Qed.

Lemma split_first_Forall (P : N -> Prop) sep s a b :
  Forall P s -> split_first sep s = Some (a, b) -> Forall P a /\ Forall P b.
Proof.
  intros H. revert a b. induction H as [|c s Hc Hs IH]; intros a b E.
  - discriminate.
  - cbn [split_first] in E. destruct (c =? sep)%N.
    + injection E as <- <-. split; [constructor|exact Hs].
    + destruct (split_first sep s) as [[a' b']|]; [|discriminate].
      injection E as <- <-. destruct (IH a' b' eq_refl). split; auto.
Qed.

Lemma split_all_Forall (P : N -> Prop) sep s :
  Forall P s -> Forall (Forall P) (split_all sep s).
Proof.
  induction 1 as [|c s Hc Hs IH]; cbn [split_all]; [repeat constructor|].
  destruct (split_all sep s) as [|h t]; [repeat constructor; auto|].
  inversion IH; subst.
  destruct (c =? sep)%N; repeat constructor; auto.
Qed.

Lemma parse_qsl_scalar qs :
  scalar_text qs ->
  Forall (fun nv => scalar_text (fst nv) /\ scalar_text (snd nv))
         (urllib.parse_qsl qs).
Proof.
  intros H. unfold urllib.parse_qsl. destruct qs as [|c qs]; [constructor|].
  pose proof (split_all_Forall 38 H) as Hall.
  induction Hall as [|piece pieces Hp Hps IH]; cbn [flat_map]; [constructor|].
  apply Forall_app; split; [|exact IH].
  destruct (split_first 61 piece) as [[n v]|] eqn:E; [|constructor].
  destruct (split_first_Forall _ Hp E) as [Hn Hv].
  destruct v; [constructor|].
  repeat constructor; cbn [fst snd]; now apply unquote_field_scalar.
Qed.

(** Every value [parse_qs] collects is scalar text. *)
Lemma parse_qs_scalar qs k l :
  scalar_text qs ->
  dict_get (urllib.parse_qs qs) k = Some l -> Forall scalar_text l.
Proof.
  intros Hqs. unfold urllib.parse_qs.
  pose proof (parse_qsl_scalar Hqs) as Hpairs.
  revert k l.
  assert (G : forall (pairs : list (str * str)) (d : pydict (list str)),
             Forall (fun nv => scalar_text (fst nv) /\ scalar_text (snd nv))
                    pairs ->
             (forall k (l : list str),
                 dict_get d k = Some l -> Forall scalar_text l) ->
             forall k (l : list str),
               dict_get
                 (fold_left
                    (fun parsed nv =>
                       match dict_get parsed (fst nv) with
                       | Some vs => dict_set parsed (fst nv) (vs ++ [snd nv])
                       | None => dict_set parsed (fst nv) [snd nv]
                       end) pairs d) k = Some l -> Forall scalar_text l).
  { induction pairs as [|[n v] pairs IH]; intros d Hp Hd; [exact Hd|].
    inversion Hp as [|? ? [_ Hv] Hrest]; subst. cbn [fst snd] in Hv.
    cbn [fold_left fst snd]. apply IH; [exact Hrest|]. intros k' l'.
    destruct (str_eqb n k') eqn:E.
    - apply str_eqb_eq in E; subst k'.
      destruct (dict_get d n) as [vs|] eqn:Ed; rewrite dict_get_set_same;
        intros [= <-].
      + apply Forall_app; split; [eapply Hd; eauto|repeat constructor; auto].
      + repeat constructor; auto.
    - destruct (dict_get d n); rewrite dict_get_set_other by exact E;
        apply Hd. }
  apply G; [exact Hpairs|]. intros k' l'. discriminate.
Qed.

(** The fields of a form decoded from UTF-8 are scalar text. *)
Lemma field_scalar body text k :
  decode_utf8 body = Some text ->
  scalar_text (field (urllib.parse_qs text) k).
Proof.
  intros Hdec. apply decode_utf8_scalar in Hdec.
  unfold field, dict_get_default.
  destruct (dict_get (urllib.parse_qs text) k) as [l|] eqn:E;
    [|constructor].
  pose proof (parse_qs_scalar _ Hdec E) as Hl.
  destruct Hl; [constructor|assumption].
Qed.

(* ================================================================== *)
(** * A form submission through both halves *)
(* ================================================================== *)

(** The POST of a complete form while the socket server is reachable. *)
Lemma do_POST_delivers env self n body text :
  path self = txt "/message" ->
  py_int (headers_get (headers self) (txt "Content-Length")) = Ok n ->
  rfile_read (memory env) (rfile self) n = Ok body ->
  decode_utf8 body = Some text ->
  field (urllib.parse_qs text) (txt "username") <> [] ->
  field (urllib.parse_qs text) (txt "message") <> [] ->
  0 < frames env ->
  transport env = Reachable ->
  do_POST env self HState0
  = (Ok tt,
     {| wfile := redirect; hlog := [];
        net := [SockOpen;
                SockConnect (SOCKET_HOST (cfg env)) (SOCKET_PORT (cfg env));
                SockSendall
                  (payload_of (field (urllib.parse_qs text) (txt "username"))
                              (field (urllib.parse_qs text) (txt "message")));
                SockClose] |}).
Proof.
  intros Hpath Hlen Hbody Hdec Hu Hm Hf Htr.
  rewrite (do_POST_message env self HState0 Hpath Hlen Hbody Hdec).
  destruct (frames env) as [|depth]; [lia|].
  unfold bind.
  rewrite (send_to_socket_delivers env depth HState0 Hu Hm).
  rewrite redirect_to_home_run, Htr. reflexivity.
Qed.

(** One submission of a complete form whose JSON text fits the receive
    buffer, with the socket server reachable and the store accepting: one
    delivery, one document, dated by the socket server. *)
Lemma submit_stores env addr now self n body text back :
  path self = txt "/message" ->
  py_int (headers_get (headers self) (txt "Content-Length")) = Ok n ->
  rfile_read (memory env) (rfile self) n = Ok body ->
  decode_utf8 body = Some text ->
  let u := field (urllib.parse_qs text) (txt "username") in
  let m := field (urllib.parse_qs text) (txt "message") in
  u <> [] -> m <> [] ->
  0 < frames env ->
  transport env = Reachable ->
  List.length (payload_of u m) <= 1024 ->
  (forall d, verdict (sink back) d = None) ->
  let doc := [(txt "username", PStr u); (txt "message", PStr m);
              (txt "date", PDatetime now)] in
  submit env addr now self back
  = (do_POST env self HState0,
     {| sink := put_document (DB_NAME (cfg env), COLLECTION_NAME (cfg env))
                             doc (sink back);
        llog := llog back ++ [(INFO, Saved doc)];
        srv := srv back ++ [ConnClose addr];
        clock := now |}).
Proof.
  intros Hpath Hlen Hbody Hdec u m Hu Hm Hf Htr Hfit Hacc doc.
  assert (Hsu : scalar_text u) by (apply (field_scalar _ _ Hdec)).
  assert (Hsm : scalar_text m) by (apply (field_scalar _ _ Hdec)).
  unfold submit.
  rewrite (do_POST_delivers env self Hpath Hlen Hbody Hdec Hu Hm Hf Htr).
  unfold delivered. rewrite Htr. cbn [snd net fold_left].
  fold u m.
  rewrite handler_object_stored
    with (d := [(txt "username", PStr u); (txt "message", PStr m)]).
  - reflexivity.
  - reflexivity.
  - cbn [inflight]. rewrite firstn_all2 by exact Hfit.
    now apply parse_payload_of.
  - apply Hacc.
Qed.

(** The socket calls of a complete submission: one [connect], and one
    [sendall] unless the [connect] failed. *)
Lemma do_POST_socket_calls env self n body text :
  path self = txt "/message" ->
  py_int (headers_get (headers self) (txt "Content-Length")) = Ok n ->
  rfile_read (memory env) (rfile self) n = Ok body ->
  decode_utf8 body = Some text ->
  field (urllib.parse_qs text) (txt "username") <> [] ->
  field (urllib.parse_qs text) (txt "message") <> [] ->
  0 < frames env ->
  connects (net (snd (do_POST env self HState0))) = 1
  /\ sends (net (snd (do_POST env self HState0)))
     = match transport env with ConnectFails _ => 0 | _ => 1 end.
Proof.
  intros Hpath Hlen Hbody Hdec Hu Hm Hf.
  rewrite (do_POST_message env self HState0 Hpath Hlen Hbody Hdec).
  destruct (frames env) as [|depth]; [lia|].
  unfold bind.
  rewrite (send_to_socket_delivers env depth HState0 Hu Hm).
  rewrite redirect_to_home_run.
  cbn [fst snd wfile hlog net HState0 app].
  destruct (transport env); split; reflexivity.
Qed.

(** C8 (as amended). Submitting the same complete form twice makes two
    separate delivery attempts, whatever happens to them.  When the socket
    server is reachable, the JSON text of the message fits the receive
    buffer of 1024 bytes and the store accepts documents, the collection
    grows by two documents, one per submission, equal but for the date each
    received: nothing is deduplicated. *)
Theorem C8_resubmission_stores_two_documents
        env addr t1 t2 self n body text back :
  path self = txt "/message" ->
  py_int (headers_get (headers self) (txt "Content-Length")) = Ok n ->
  rfile_read (memory env) (rfile self) n = Ok body ->
  decode_utf8 body = Some text ->
  let u := field (urllib.parse_qs text) (txt "username") in
  let m := field (urllib.parse_qs text) (txt "message") in
  u <> [] -> m <> [] ->
  0 < frames env ->
  let first := submit env addr t1 self back in
  let second := submit env addr t2 self (snd first) in
  (connects (net (snd (fst first))) = 1
   /\ connects (net (snd (fst second))) = 1)
  /\ (transport env = Reachable ->
      List.length (payload_of u m) <= 1024 ->
      (forall d, verdict (sink back) d = None) ->
      sends (net (snd (fst first))) = 1
      /\ sends (net (snd (fst second))) = 1
      /\ collections (sink (snd second))
                     (DB_NAME (cfg env)) (COLLECTION_NAME (cfg env))
         = collections (sink back)
                       (DB_NAME (cfg env)) (COLLECTION_NAME (cfg env))
           ++ [[(txt "username", PStr u); (txt "message", PStr m);
                (txt "date", PDatetime t1)];
               [(txt "username", PStr u); (txt "message", PStr m);
                (txt "date", PDatetime t2)]]).
Proof.
  intros Hpath Hlen Hbody Hdec u m Hu Hm Hf first second.
  assert (Hfront : forall b, fst (submit env addr t1 self b)
                             = do_POST env self HState0
                             /\ fst (submit env addr t2 self b)
                                = do_POST env self HState0).
  { intros b. unfold submit.
    destruct (delivered env (snd (do_POST env self HState0))); auto. }
  pose proof (do_POST_socket_calls
                env self Hpath Hlen Hbody Hdec Hu Hm Hf) as (Hc & Hs).
  split.
  - subst first second.
    destruct (Hfront back) as [-> _]. destruct (Hfront (snd (submit env addr t1 self back))) as [_ ->].
    auto.
  - intros Htr Hfit Hacc. subst first second.
    rewrite !(submit_stores env addr _ self back Hpath Hlen Hbody Hdec Hu Hm Hf
                            Htr Hfit Hacc).
    cbn [fst snd].
    rewrite (submit_stores env addr t2 self _ Hpath Hlen Hbody Hdec Hu Hm Hf
                           Htr Hfit); [|exact Hacc].
    cbn [fst snd sink collections put_document].
    rewrite Hs, Htr, !str_eqb_refl. cbn [andb].
    rewrite <- app_assoc. auto.
Qed.

(** C8 on a run: the same short form, posted at times 100 and 200. *)
Lemma C8_witness :
  let env := Demo.henv Demo.site Reachable in
  let self := Demo.request "/message" [("Content-Length", "28")]%string
                           "username=alice&message=hello" in
  let back := LState0 Demo.empty_sink 0 in
  let u := txt "alice" in
  let m := txt "hello" in
  let first := submit env Demo.client 100 self back in
  let second := submit env Demo.client 200 self (snd first) in
  (connects (net (snd (fst first))) = 1
   /\ connects (net (snd (fst second))) = 1)
  /\ (transport env = Reachable ->
      List.length (payload_of u m) <= 1024 ->
      (forall d, verdict (sink back) d = None) ->
      sends (net (snd (fst first))) = 1
      /\ sends (net (snd (fst second))) = 1
      /\ collections (sink (snd second))
                     (DB_NAME (cfg env)) (COLLECTION_NAME (cfg env))
         = collections (sink back)
                       (DB_NAME (cfg env)) (COLLECTION_NAME (cfg env))
           ++ [[(txt "username", PStr u); (txt "message", PStr m);
                (txt "date", PDatetime 100)];
               [(txt "username", PStr u); (txt "message", PStr m);
                (txt "date", PDatetime 200)]]).
Proof.
  refine (C8_resubmission_stores_two_documents
            (Demo.henv Demo.site Reachable) Demo.client 100 200
            (Demo.request "/message" [("Content-Length", "28")]%string
                          "username=alice&message=hello")
            (n := 28) (body := blit "username=alice&message=hello")
            (text := txt "username=alice&message=hello")
            (LState0 Demo.empty_sink 0)
            eq_refl eq_refl eq_refl eq_refl _ _ _).
  - vm_compute. discriminate.
  - vm_compute. discriminate.
  - vm_compute. lia.
Defined.

(** The two documents of the run above. *)
Example resubmission_run :
  let env := Demo.henv Demo.site Reachable in
  let self := Demo.request "/message" [("Content-Length", "28")]%string
                           "username=alice&message=hello" in
  let first := submit env Demo.client 100 self (LState0 Demo.empty_sink 0) in
  let second := submit env Demo.client 200 self (snd first) in
  Demo.messages (snd second)
  = [[(txt "username", PStr (txt "alice")); (txt "message", PStr (txt "hello"));
      (txt "date", PDatetime 100)];
     [(txt "username", PStr (txt "alice")); (txt "message", PStr (txt "hello"));
      (txt "date", PDatetime 200)]].
Proof. vm_compute. reflexivity. Qed.

(** C8 as stated fails on a long message: the JSON text of this form takes
    1136 bytes, the socket server reads 1024 of them, which do not parse;
    both submissions are delivered and none is stored. *)
Lemma C8_counterexample :
  let env := Demo.henv Demo.site Reachable in
  let self := {| path := txt "/message";
                 headers := [(txt "Content-Length", txt "1123")];
                 rfile := blit "username=alice&message=" ++ repeat x61 1100 |} in
  let first := submit env Demo.client 100 self (LState0 Demo.empty_sink 0) in
  let second := submit env Demo.client 200 self (snd first) in
  List.length (payload_of (txt "alice") (repeat 97%N 1100)) = 1136
  /\ fst (fst first) = Ok tt /\ fst (fst second) = Ok tt
  /\ wfile (snd (fst first)) = redirect /\ wfile (snd (fst second)) = redirect
  /\ sends (net (snd (fst first))) = 1 /\ sends (net (snd (fst second))) = 1
  /\ net (snd (fst first))
     = [SockOpen; SockConnect (txt "127.0.0.1") 5000;
        SockSendall (payload_of (txt "alice") (repeat 97%N 1100)); SockClose]
  /\ Demo.messages (snd second) = []
  /\ llog (snd second)
     = [(ERROR, RequestFailed Demo.client JSONDecodeError);
        (ERROR, RequestFailed Demo.client JSONDecodeError)].
Proof. vm_compute. repeat split. Qed.

(* ================================================================== *)
(** * Payloads beyond the receive buffer *)
(* ================================================================== *)

(** C9 (as amended). Of a payload longer than 1024 bytes the handler sees
    the first 1024 only.  When these do not parse, the error is logged and
    nothing is inserted; this is the case of every message sent by the HTTP
    front, whose JSON text ends with the closing brace of the object. *)
Theorem C9_oversized_payload_truncated conn addr coll s :
  recv_error conn = None ->
  1024 < List.length (inflight conn) ->
  handle_socket_connection conn addr coll s
  = handle_socket_connection
      {| peer := peer conn; inflight := firstn 1024 (inflight conn);
         recv_error := recv_error conn |} addr coll s
  /\ (forall e,
         parse_payload (firstn 1024 (inflight conn)) = Raise e ->
         handle_socket_connection conn addr coll s
         = (Ok tt, {| sink := sink s;
                      llog := llog s ++ [(ERROR, RequestFailed addr e)];
                      srv := srv s ++ [ConnClose (peer conn)];
                      clock := clock s |}))
  /\ (forall u m,
         scalar_text u -> scalar_text m ->
         inflight conn = payload_of u m ->
         handle_socket_connection conn addr coll s
         = (Ok tt, {| sink := sink s;
                      llog := llog s
                              ++ [(ERROR, RequestFailed addr JSONDecodeError)];
                      srv := srv s ++ [ConnClose (peer conn)];
                      clock := clock s |})).
Proof.
  intros Hr Hlen.
  assert (Hne : firstn 1024 (inflight conn) <> []).
  { intros Hnil. apply (f_equal (@List.length byte)) in Hnil.
    rewrite length_firstn in Hnil. cbn [List.length] in Hnil. lia. }
  split; [apply handler_reads_1024|]. split.
  - intros e Hp. now apply handler_malformed.
  - intros u m Hu Hm Hpay. apply handler_malformed; auto.
    rewrite Hpay. apply parse_cut_payload; auto. rewrite <- Hpay. exact Hlen.
Qed.

(** C9 on a run: a message of 1100 letters from the HTTP front. *)
Lemma C9_witness :
  let coll := (DB_NAME Demo.config, COLLECTION_NAME Demo.config) in
  let conn := Demo.conn (payload_of (txt "alice") (repeat 97%N 1100)) in
  let s := LState0 Demo.empty_sink 0 in
  handle_socket_connection conn Demo.client coll s
  = handle_socket_connection
      {| peer := peer conn; inflight := firstn 1024 (inflight conn);
         recv_error := recv_error conn |} Demo.client coll s
  /\ (forall e,
         parse_payload (firstn 1024 (inflight conn)) = Raise e ->
         handle_socket_connection conn Demo.client coll s
         = (Ok tt, {| sink := sink s;
                      llog := llog s ++ [(ERROR, RequestFailed Demo.client e)];
                      srv := srv s ++ [ConnClose (peer conn)];
                      clock := clock s |}))
  /\ (forall u m,
         scalar_text u -> scalar_text m ->
         inflight conn = payload_of u m ->
         handle_socket_connection conn Demo.client coll s
         = (Ok tt, {| sink := sink s;
                      llog := llog s
                              ++ [(ERROR,
                                   RequestFailed Demo.client JSONDecodeError)];
                      srv := srv s ++ [ConnClose (peer conn)];
                      clock := clock s |})).
Proof.
  refine (C9_oversized_payload_truncated
            (Demo.conn (payload_of (txt "alice") (repeat 97%N 1100)))
            Demo.client
            (DB_NAME Demo.config, COLLECTION_NAME Demo.config)
            (LState0 Demo.empty_sink 0) eq_refl _).
  vm_compute. lia.
Defined.

(** The run of the witness: 1136 bytes sent, nothing stored. *)
Example oversized_message_dropped :
  let conn := Demo.conn (payload_of (txt "alice") (repeat 97%N 1100)) in
  List.length (inflight conn) = 1136
  /\ handle_socket_connection
       conn Demo.client (DB_NAME Demo.config, COLLECTION_NAME Demo.config)
       (LState0 Demo.empty_sink 0)
     = (Ok tt, {| sink := Demo.empty_sink;
                  llog := [(ERROR, RequestFailed Demo.client JSONDecodeError)];
                  srv := [ConnClose Demo.client]; clock := 0 |}).
Proof. split; vm_compute; reflexivity. Qed.

(** C9 as stated fails when what is cut off is trailing whitespace: this
    payload of 1025 bytes is JSON, its first 1024 bytes still parse, and a
    document is inserted. *)
Lemma C9_counterexample :
  let coll := (DB_NAME Demo.config, COLLECTION_NAME Demo.config) in
  let payload := blit "{}" ++ repeat x20 1023 in
  List.length payload = 1025
  /\ parse_payload payload = Ok (PDict [])
  /\ parse_payload (firstn 1024 payload) = Ok (PDict [])
  /\ Demo.messages
       (snd (handle_socket_connection (Demo.conn payload) Demo.client coll
                                      (LState0 Demo.empty_sink 7)))
     = [[(txt "date", PDatetime 7)]].
Proof. vm_compute. repeat split. Qed.

(* ================================================================== *)
(** * The HTTP front on every request *)
(* ================================================================== *)

(** ** What serving a file leaves behind *)

(** One call of [send_html_file], by the outcome of [open] and of [read]. *)
Lemma send_html_file_step env d filename status s :
  send_html_file env (S d) filename status s
  = match open_file (fs env) filename with
    | Raise e =>
      if issubclass e FileNotFoundError then send_error_page env d s
      else (Raise e, s)
    | Ok file =>
      let s1 := {| wfile := wfile s ++ head status (txt "text/html");
                   hlog := hlog s; net := net s |} in
      match file_read file with
      | Ok data =>
        (Ok tt, {| wfile := wfile s ++ page status (txt "text/html") data;
                   hlog := hlog s; net := net s |})
      | Raise e =>
        if issubclass e FileNotFoundError then send_error_page env d s1
        else (Raise e, s1)
      end
    end.
Proof.
  cbn [send_html_file]. run_http.
  destruct (open_file (fs env) filename) as [file|e]; cbn -[issubclass].
  - destruct (file_read file) as [data|e]; cbn -[issubclass].
    + unfold page. rewrite <- !app_assoc. reflexivity.
    + unfold head. rewrite <- !app_assoc.
      destruct (issubclass e FileNotFoundError); [|reflexivity].
      destruct d; reflexivity.
  - destruct (issubclass e FileNotFoundError); [|reflexivity].
    destruct d; reflexivity.
Qed.

Lemma send_static_file_step env d filepath s :
  send_static_file env (S d) filepath s
  = let content_type := py_or (guess_type (mime env) filepath)
                              (txt "application/octet-stream") in
    match open_file (fs env) filepath with
    | Raise e =>
      if issubclass e FileNotFoundError then send_error_page env d s
      else (Raise e, s)
    | Ok file =>
      let s1 := {| wfile := wfile s ++ head 200 content_type;
                   hlog := hlog s; net := net s |} in
      match file_read file with
      | Ok data =>
        (Ok tt, {| wfile := wfile s ++ page 200 content_type data;
                   hlog := hlog s; net := net s |})
      | Raise e =>
        if issubclass e FileNotFoundError then send_error_page env d s1
        else (Raise e, s1)
      end
    end.
Proof.
  unfold send_static_file. run_http.
  destruct (open_file (fs env) filepath) as [file|e]; cbn -[issubclass].
  - destruct (file_read file) as [data|e]; cbn -[issubclass].
    + unfold page. rewrite <- !app_assoc. reflexivity.
    + unfold head. rewrite <- !app_assoc.
      destruct (issubclass e FileNotFoundError); reflexivity.
  - destruct (issubclass e FileNotFoundError); reflexivity.
Qed.

(** Serving a page touches neither the log nor the sockets. *)
Lemma send_html_file_quiet env depth :
  forall filename status s,
    let r := send_html_file env depth filename status s in
    hlog (snd r) = hlog s /\ net (snd r) = net s.
Proof.
  induction depth as [depth IH] using lt_wf_ind.
  intros filename status s r. subst r.
  destruct depth as [|d]; [cbn; auto|].
  assert (He : forall s0, hlog s0 = hlog s -> net s0 = net s ->
                 hlog (snd (send_error_page env d s0)) = hlog s
                 /\ net (snd (send_error_page env d s0)) = net s).
  { intros s0 Hl Hn. destruct d as [|d']; [cbn; auto|].
    unfold send_error_page.
    destruct (IH d' ltac:(lia) (txt "error.html") 404%Z s0) as [Hl' Hn'].
    split; congruence. }
  rewrite send_html_file_step.
  destruct (open_file (fs env) filename) as [file|e].
  - cbv zeta. destruct (file_read file) as [data|e]; [cbn; auto|].
    destruct (issubclass e FileNotFoundError); [|cbn; auto].
    now apply He.
  - destruct (issubclass e FileNotFoundError); [|cbn; auto].
    now apply He.
Qed.

Lemma send_error_page_quiet env depth s :
  let r := send_error_page env depth s in
  hlog (snd r) = hlog s /\ net (snd r) = net s.
Proof.
  destruct depth as [|d]; [cbn; auto|].
  unfold send_error_page. apply send_html_file_quiet.
Qed.

Lemma send_static_file_quiet env depth filepath s :
  let r := send_static_file env depth filepath s in
  hlog (snd r) = hlog s /\ net (snd r) = net s.
Proof.
  intros r. subst r. destruct depth as [|d]; [cbn; auto|].
  rewrite send_static_file_step. cbv zeta.
  destruct (open_file (fs env) filepath) as [file|e].
  - destruct (file_read file) as [data|e]; [cbn; auto|].
    destruct (issubclass e FileNotFoundError); [|cbn; auto].
    match goal with
    | |- context [send_error_page env d ?s0] =>
      destruct (send_error_page_quiet env d s0) as [Hl Hn]
    end.
    split; [exact Hl|exact Hn].
  - destruct (issubclass e FileNotFoundError); [|cbn; auto].
    apply send_error_page_quiet.
Qed.

Lemma do_GET_quiet env self s :
  let r := do_GET env self s in
  hlog (snd r) = hlog s /\ net (snd r) = net s.
Proof.
  intros r. subst r.
  destruct (urllib.urlparse_path (path self)) as [route|e] eqn:Hr.
  - rewrite (do_GET_dispatch env self s Hr).
    destruct (target route) as [f|].
    + destruct (startswith route (txt "/static/")).
      * apply send_static_file_quiet.
      * apply send_html_file_quiet.
    + apply send_error_page_quiet.
  - unfold do_GET, bind, lift. rewrite Hr. cbn. auto.
Qed.

(** When the files that open can be read, serving a page writes one
    complete response or nothing. *)
Lemma send_html_file_response env depth :
  forall filename status s,
    (status = 200 \/ status = 404)%Z ->
    read_succeeds (fs env) filename ->
    read_succeeds (fs env) (txt "error.html") ->
    one_response (wfile s) (send_html_file env depth filename status s).
Proof.
  induction depth as [depth IH] using lt_wf_ind.
  intros filename status s Hst Hf Herr.
  destruct depth as [|d].
  { right. exists RecursionError. cbn. auto. }
  rewrite send_html_file_step.
  destruct (open_file (fs env) filename) as [file|e] eqn:Ho.
  - destruct (Hf file Ho) as (data & ->). cbv zeta.
    left. exists status, (txt "text/html"), data. cbn. auto.
  - destruct (issubclass e FileNotFoundError).
    + destruct d as [|d'].
      { right. exists RecursionError. cbn. auto. }
      unfold send_error_page. apply IH; auto.
    + right. exists e. cbn. auto.
Qed.

Lemma send_error_page_response env depth s :
  read_succeeds (fs env) (txt "error.html") ->
  one_response (wfile s) (send_error_page env depth s).
Proof.
  intros Herr. destruct depth as [|d].
  - right. exists RecursionError. cbn. auto.
  - unfold send_error_page. apply send_html_file_response; auto.
Qed.

Lemma send_static_file_response env depth filepath s :
  read_succeeds (fs env) filepath ->
  read_succeeds (fs env) (txt "error.html") ->
  one_response (wfile s) (send_static_file env depth filepath s).
Proof.
  intros Hf Herr. destruct depth as [|d].
  { right. exists RecursionError. cbn. auto. }
  rewrite send_static_file_step. cbv zeta.
  destruct (open_file (fs env) filepath) as [file|e] eqn:Ho.
  - destruct (Hf file Ho) as (data & ->).
    left. exists 200%Z,
      (py_or (guess_type (mime env) filepath) (txt "application/octet-stream")),
      data. cbn. auto.
  - destruct (issubclass e FileNotFoundError).
    + now apply send_error_page_response.
    + right. exists e. cbn. auto.
Qed.

(** ** GET *)

(** X7. Serving a GET never opens a socket and never logs: pages and static
    files do not involve the socket server. *)
Theorem get_neither_logs_nor_connects env self s :
  hlog (snd (do_GET env self s)) = hlog s
  /\ net (snd (do_GET env self s)) = net s.
Proof. apply do_GET_quiet. Qed.

(** X8. When the file a GET asks for and [error.html] can be read once
    they are open, the GET writes one complete response - status line,
    content type, end of headers, body, under status 200 or 404 - or, when
    it raises, nothing at all. *)
Theorem get_writes_one_response_or_nothing env self s :
  (forall route f, urllib.urlparse_path (path self) = Ok route ->
                   target route = Some f -> read_succeeds (fs env) f) ->
  read_succeeds (fs env) (txt "error.html") ->
  one_response (wfile s) (do_GET env self s).
Proof.
  intros Hf Herr.
  destruct (urllib.urlparse_path (path self)) as [route|e] eqn:Hr.
  - rewrite (do_GET_dispatch env self s Hr).
    destruct (target route) as [f|] eqn:Ht.
    + destruct (startswith route (txt "/static/")).
      * apply send_static_file_response; eauto.
      * apply send_html_file_response; eauto.
    + now apply send_error_page_response.
  - right. exists e. unfold do_GET, bind, lift. rewrite Hr. cbn. auto.
Qed.

(** X8 on a run: a style sheet. *)
Lemma get_writes_one_response_or_nothing_witness :
  one_response []
    (do_GET (Demo.henv Demo.site Reachable)
            (Demo.request "/static/style.css" [] "") HState0).
Proof.
  refine (get_writes_one_response_or_nothing
            (Demo.henv Demo.site Reachable)
            (Demo.request "/static/style.css" [] "") HState0 _ _).
  - intros route f Hr Ht file Ho.
    vm_compute in Hr. injection Hr as <-.
    vm_compute in Ht. injection Ht as <-.
    vm_compute in Ho. injection Ho as <-.
    eexists. reflexivity.
  - intros file Ho. vm_compute in Ho. injection Ho as <-.
    eexists. reflexivity.
Defined.

(** X9. The four page routes serve their file as [text/html] under status
    200 when it can be read - [/error.html] too, which is the error page
    under status 200. *)
Theorem get_page_served env self route f content s :
  urllib.urlparse_path (path self) = Ok route ->
  target route = Some f ->
  startswith route (txt "/static/") = false ->
  open_rb (fs env) f = Ok content ->
  0 < frames env ->
  do_GET env self s
  = (Ok tt, {| wfile := wfile s ++ page 200 (txt "text/html") content;
               hlog := hlog s; net := net s |}).
Proof.
  intros Hr Ht Hs Ho Hf.
  rewrite (do_GET_dispatch env self s Hr), Ht, Hs.
  destruct (frames env) as [|depth]; [lia|].
  now apply send_html_file_ok.
Qed.

(** X9 on a run: [GET /error.html] is answered 200. *)
Lemma get_page_served_witness :
  do_GET (Demo.henv Demo.site Reachable) (Demo.request "/error.html" [] "")
         HState0
  = (Ok tt, {| wfile := [] ++ page 200 (txt "text/html") (blit "<h1>404</h1>");
               hlog := []; net := [] |}).
Proof.
  refine (get_page_served
            (Demo.henv Demo.site Reachable)
            (Demo.request "/error.html" [] "")
            (route := txt "/error.html") (f := txt "error.html")
            HState0 eq_refl eq_refl eq_refl eq_refl _).
  vm_compute. lia.
Defined.

(** X10 on a run: a file without extension is sent as
    [application/octet-stream]. *)
Lemma do_GET_static_witness :
  do_GET (Demo.henv Demo.site Reachable) (Demo.request "/static/blob" [] "")
         HState0
  = (Ok tt,
     {| wfile := [] ++ page 200 (txt "application/octet-stream") (blit "??");
        hlog := []; net := [] |}).
Proof.
  refine (do_GET_static
            (Demo.henv Demo.site Reachable)
            (Demo.request "/static/blob" [] "")
            (route := txt "/static/blob")
            HState0 eq_refl eq_refl eq_refl _).
  vm_compute. lia.
Defined.

(** X11. Without [error.html] the error page cannot be sent: a GET of an
    unknown route or of a missing file makes [send_error_page] and
    [send_html_file] call each other until the stack is exhausted, and ends
    in [RecursionError] with nothing written, however deep the stack. *)
Theorem get_without_error_page_recurses env self route s :
  urllib.urlparse_path (path self) = Ok route ->
  (target route = None
   \/ exists f, target route = Some f
                /\ open_file (fs env) f = Raise FileNotFoundError) ->
  open_file (fs env) (txt "error.html") = Raise FileNotFoundError ->
  do_GET env self s = (Raise RecursionError, s).
Proof.
  intros Hr Ht Herr.
  rewrite (do_GET_dispatch env self s Hr).
  destruct Ht as [-> | (f & -> & Hmiss)].
  - now apply send_error_page_missing.
  - destruct (frames env) as [|depth].
    + destruct (startswith route (txt "/static/")); reflexivity.
    + destruct (startswith route (txt "/static/")).
      * rewrite send_static_file_missing by exact Hmiss.
        now apply send_error_page_missing.
      * rewrite send_html_file_missing by exact Hmiss.
        now apply send_error_page_missing.
Qed.

(** X11 on a run: a style sheet which does not exist, in a directory
    without [error.html]. *)
Lemma get_without_error_page_recurses_witness :
  do_GET (Demo.henv Demo.site_without_error_page Reachable)
         (Demo.request "/static/print.css" [] "") HState0
  = (Raise RecursionError, HState0).
Proof.
  refine (get_without_error_page_recurses
            (Demo.henv Demo.site_without_error_page Reachable)
            (Demo.request "/static/print.css" [] "")
            (route := txt "/static/print.css")
            HState0 eq_refl _ eq_refl).
  right. exists (txt "static/print.css"). split; reflexivity.
Defined.

(** ** Query strings and fragments *)

Lemma break_at_app delims (p r : str) :
  forallb (fun c => negb (mem_cp c delims)) p = true ->
  break_at delims (p ++ r)
  = (p ++ fst (break_at delims r), snd (break_at delims r)).
Proof.
  induction p as [|c p IH]; intros Hp.
  - cbn [app]. now destruct (break_at delims r).
  - cbn [forallb] in Hp. apply andb_true_iff in Hp as [Hc Hp].
    apply negb_true_iff in Hc.
    cbn [app break_at]. rewrite Hc, (IH Hp). reflexivity.
Qed.

Lemma forallb_weaken (f g : N -> bool) (p : str) :
  (forall c, f c = true -> g c = true) ->
  forallb f p = true -> forallb g p = true.
Proof.
  intros Hfg Hp. rewrite forallb_forall in *. auto.
Qed.

Lemma filter_all (f : N -> bool) (p : str) :
  forallb f p = true -> filter f p = p.
Proof.
  induction p as [|c p IH]; [reflexivity|].
  cbn [forallb filter]. intros H. apply andb_true_iff in H as [Hc Hp].
  now rewrite Hc, IH.
Qed.

(** A text that starts with a slash has no scheme. *)
Lemma split_first_slash (r : str) :
  match split_first 58 (47%N :: r) with
  | Some (c :: s', rest) =>
    if urllib.is_alpha c && forallb urllib.is_scheme_char (c :: s')
    then (lower (c :: s'), rest) else ([], 47%N :: r)
  | _ => ([], 47%N :: r)
  end = ([] : str, 47%N :: r).
Proof.
  cbn [split_first]. change (47 =? 58)%N with false. cbv iota.
  destruct (split_first 58 r) as [[a b]|]; reflexivity.
Qed.

(** Cutting the fragment and then the query off a text which continues
    with one of them, or with nothing. *)
Lemma cut_query_fragment (p r : str) :
  forallb (fun c => negb (mem_cp c [35%N])) p = true ->
  forallb (fun c => negb (mem_cp c [63%N])) p = true ->
  r = [] \/ (exists q, r = 35%N :: q) \/ (exists q, r = 63%N :: q) ->
  fst (break_at [63%N] (fst (break_at [35%N] (p ++ r)))) = p.
Proof.
  intros H35 H63 Hr.
  rewrite (@break_at_app [35%N] p r H35). cbn [fst].
  rewrite (@break_at_app [63%N] p _ H63). cbn [fst].
  rewrite <- (app_nil_r p) at 2. f_equal.
  destruct Hr as [-> | [(q & ->) | (q & ->)]]; try reflexivity.
  cbn [break_at mem_cp existsb]. change (63 =? 35)%N with false.
  cbn [orb]. destruct (break_at [35%N] q). reflexivity.
Qed.

(** The path component of a plain route followed by a query string or a
    fragment is that of the route alone. *)
Lemma urlparse_path_plain (p r : str) :
  plain_route p = true ->
  r = [] \/ (exists c q, (c = 63 \/ c = 35)%N /\ r = c :: q) ->
  urllib.urlparse_path (p ++ r) = Ok (urllib.drop_params p).
Proof.
  unfold plain_route. intros Hp Hr.
  apply andb_true_iff in Hp as [Hp Hall].
  apply andb_true_iff in Hp as [H1 H2]. apply negb_true_iff in H2.
  destruct p as [|c0 p]; [discriminate H1|].
  cbn [startswith txt] in H1.
  assert (c0 = 47%N) as ->.
  { cbn in H1. destruct (c0 =? 47)%N eqn:E; [now apply N.eqb_eq in E|].
    discriminate H1. }
  set (keep := fun c : N => negb ((c =? 9)%N || (c =? 10)%N || (c =? 13)%N)).
  assert (Hkeep : filter keep (47%N :: p) = 47%N :: p).
  { apply filter_all. revert Hall. apply forallb_weaken. intros c.
    unfold keep. cbn [mem_cp existsb].
    destruct (c =? 9)%N, (c =? 10)%N, (c =? 13)%N; cbn; congruence. }
  assert (Hno35 : forallb (fun c => negb (mem_cp c [35%N])) (47%N :: p) = true).
  { revert Hall. apply forallb_weaken. intros c. cbn [mem_cp existsb].
    destruct (c =? 9)%N, (c =? 10)%N, (c =? 13)%N, (c =? 35)%N; cbn;
      congruence. }
  assert (Hno63 : forallb (fun c => negb (mem_cp c [63%N])) (47%N :: p) = true).
  { revert Hall. apply forallb_weaken. intros c. cbn [mem_cp existsb].
    destruct (c =? 9)%N, (c =? 10)%N, (c =? 13)%N, (c =? 35)%N, (c =? 63)%N;
      cbn; congruence. }
  assert (Hfilter : exists r',
             filter keep ((47%N :: p) ++ r) = (47%N :: p) ++ r'
             /\ (r' = [] \/ (exists q, r' = 35%N :: q)
                 \/ (exists q, r' = 63%N :: q))).
  { rewrite filter_app, Hkeep.
    destruct Hr as [-> | (c & q & Hc & ->)].
    - exists []. auto.
    - exists (c :: filter keep q). split.
      + destruct Hc as [-> | ->]; reflexivity.
      + destruct Hc as [-> | ->]; eauto. }
  destruct Hfilter as (r' & Hf & Hr').
  unfold urllib.urlparse_path.
  change (lstrip_by (fun c => (c <=? 32)%N) ((47%N :: p) ++ r))
    with ((47%N :: p) ++ r).
  fold keep. rewrite Hf. cbn [app].
  rewrite split_first_slash.
  assert (Hnet : match 47%N :: p ++ r' with
                 | a :: b :: r0 =>
                   if (a =? 47)%N && (b =? 47)%N
                   then break_at (txt "/?#") r0 else ([], 47%N :: p ++ r')
                 | _ => ([], 47%N :: p ++ r')
                 end = ([] : str, 47%N :: p ++ r')).
  { destruct p as [|b p].
    - destruct Hr' as [-> | [(q & ->) | (q & ->)]]; reflexivity.
    - cbn [app].
      destruct (b =? 47)%N eqn:Eb; [|reflexivity].
      apply N.eqb_eq in Eb; subst b. destruct p; discriminate H2. }
  rewrite Hnet.
  change (xorb (mem_cp 91 []) (mem_cp 93 [])) with false. cbv iota.
  change (existsb (str_eqb []) urllib.uses_params) with true. cbv iota.
  change (47%N :: p ++ r') with ((47%N :: p) ++ r').
  now rewrite (@cut_query_fragment _ _ Hno35 Hno63 Hr').
Qed.

(** X12. A query string or a fragment after a plain route plays no role in
    what a GET serves: the request is answered as the request for the route
    alone. *)
Theorem get_ignores_query_and_fragment env self (p q : str) c s :
  plain_route p = true ->
  (c = 63 \/ c = 35)%N ->
  path self = p ++ c :: q ->
  do_GET env self s
  = do_GET env {| path := p; headers := headers self; rfile := rfile self |} s.
Proof.
  intros Hp Hc Hpath. unfold do_GET. cbn [path]. rewrite Hpath.
  rewrite (@urlparse_path_plain p (c :: q) Hp) by (right; eauto).
  pose proof (@urlparse_path_plain p [] Hp (or_introl eq_refl)) as E.
  rewrite app_nil_r in E. rewrite E. reflexivity.
Qed.

(** X12 on a run: [GET /message.html?lang=uk] is [GET /message.html]. *)
Lemma get_ignores_query_and_fragment_witness :
  do_GET (Demo.henv Demo.site Reachable)
         (Demo.request "/message.html?lang=uk" [] "") HState0
  = do_GET (Demo.henv Demo.site Reachable)
           {| path := txt "/message.html"; headers := []; rfile := [] |}
           HState0.
Proof.
  exact (@get_ignores_query_and_fragment
           (Demo.henv Demo.site Reachable)
           (Demo.request "/message.html?lang=uk" [] "")
           (txt "/message.html") (txt "lang=uk") 63%N
           HState0 eq_refl (or_introl eq_refl) eq_refl).
Defined.

(** ** The fields of a form *)

(** Looking a name up in the dictionary [parse_qs] builds from the pairs:
    the values of the name, in their order, after those already there. *)
Lemma parse_qs_lookup (pairs : list (str * str)) :
  forall (d : pydict (list str)) k,
    dict_get
      (fold_left
         (fun parsed nv =>
            match dict_get parsed (fst nv) with
            | Some vs => dict_set parsed (fst nv) (vs ++ [snd nv])
            | None => dict_set parsed (fst nv) [snd nv]
            end) pairs d) k
    = match values_of pairs k with
      | [] => dict_get d k
      | v :: vs =>
        Some (match dict_get d k with Some l => l | None => [] end ++ v :: vs)
      end.
Proof.
  induction pairs as [|[n v] pairs IH]; intros d k; [reflexivity|].
  cbn [fold_left fst snd]. rewrite IH. unfold values_of.
  cbn [filter fst]. destruct (str_eqb n k) eqn:E.
  - apply str_eqb_eq in E; subst k. cbn [map snd].
    fold (values_of pairs n).
    destruct (dict_get d n) as [l|]; rewrite dict_get_set_same;
      destruct (values_of pairs n); cbn [app]; try reflexivity;
      now rewrite <- app_assoc.
  - fold (values_of pairs k).
    destruct (dict_get d n); rewrite dict_get_set_other by exact E;
      reflexivity.
Qed.

Lemma field_first_value qs k :
  field (urllib.parse_qs qs) k = hd [] (values_of (urllib.parse_qsl qs) k).
Proof.
  unfold field, dict_get_default, urllib.parse_qs.
  rewrite parse_qs_lookup. cbn [dict_get].
  now destruct (values_of (urllib.parse_qsl qs) k).
Qed.

(** X6. The message built from a form takes, for [username] and for
    [message], the first of the values the form gives the name, in the
    order of the form, and the empty string when the form gives it none;
    building it never fails. *)
Theorem form_takes_first_value qs s :
  form_message (urllib.parse_qs qs) s
  = (Ok [(txt "username",
          hd [] (values_of (urllib.parse_qsl qs) (txt "username")));
         (txt "message",
          hd [] (values_of (urllib.parse_qsl qs) (txt "message")))], s).
Proof.
  rewrite form_message_total, !field_first_value. reflexivity.
Qed.

(** ** POST *)

Lemma send_to_socket_missing env depth (u m : str) s :
  u = [] \/ m = [] ->
  send_to_socket env (S depth) [(txt "username", u); (txt "message", m)] s
  = send_error_page env depth
      {| wfile := wfile s; hlog := hlog s ++ [(ERROR, MissingFields)];
         net := net s |}.
Proof.
  intros Hum. unfold send_to_socket, missing.
  change (dict_get [(txt "username", u); (txt "message", m)] (txt "username"))
    with (Some u).
  change (dict_get [(txt "username", u); (txt "message", m)] (txt "message"))
    with (Some m).
  assert (E : negb (truthy u) || negb (truthy m) = true).
  { destruct Hum as [-> | ->]; [reflexivity|]. apply orb_true_r. }
  cbv beta iota. rewrite E. reflexivity.
Qed.

Lemma empty_or_not (u : str) : u = [] \/ u <> [].
Proof. destruct u; [now left|right; discriminate]. Qed.

(** The socket traffic of a POST, in every case: none, or one delivery
    attempt carrying a message with both fields. *)
Lemma do_POST_traffic env self s :
  let r := do_POST env self s in
  net (snd r) = net s
  \/ exists u m : str,
      u <> [] /\ m <> [] /\ scalar_text u /\ scalar_text m
      /\ net (snd r)
         = net s
           ++ [SockOpen;
               SockConnect (SOCKET_HOST (cfg env)) (SOCKET_PORT (cfg env))]
           ++ match transport env with
              | ConnectFails _ => []
              | Reachable | SendFails _ => [SockSendall (payload_of u m)]
              end
           ++ [SockClose].
Proof.
  intros r. subst r.
  destruct (str_eqb (path self) (txt "/message")) eqn:Hp.
  2:{ left. unfold do_POST. rewrite Hp. apply send_error_page_quiet. }
  apply str_eqb_eq in Hp.
  destruct (py_int (headers_get (headers self) (txt "Content-Length")))
    as [n|e] eqn:Hn.
  2:{ left. unfold do_POST. rewrite Hp.
      change (str_eqb (txt "/message") (txt "/message")) with true. cbv iota.
      unfold bind at 1, lift at 1. rewrite Hn. reflexivity. }
  destruct (rfile_read (memory env) (rfile self) n) as [body|e] eqn:Hb.
  2:{ left. unfold do_POST. rewrite Hp.
      change (str_eqb (txt "/message") (txt "/message")) with true. cbv iota.
      unfold bind at 1, lift at 1. rewrite Hn.
      unfold bind at 1, lift at 1. rewrite Hb. reflexivity. }
  destruct (decode_utf8 body) as [text|] eqn:Hd.
  2:{ left. unfold do_POST. rewrite Hp.
      change (str_eqb (txt "/message") (txt "/message")) with true. cbv iota.
      unfold bind at 1, lift at 1. rewrite Hn.
      unfold bind at 1, lift at 1. rewrite Hb.
      unfold bind at 1, lift at 1. rewrite Hd. reflexivity. }
  rewrite (do_POST_message env self s Hp Hn Hb Hd).
  destruct (frames env) as [|depth]; [left; reflexivity|].
  unfold bind.
  destruct (empty_or_not (field (urllib.parse_qs text) (txt "username")))
    as [Hu|Hu].
  { left. rewrite send_to_socket_missing by (now left).
    match goal with
    | |- context [send_error_page env depth ?s0] =>
      destruct (send_error_page_quiet env depth s0) as (_ & Hnet);
        destruct (send_error_page env depth s0) as [[[]|e] s1]
    end; cbn [snd net] in *; [|exact Hnet].
    rewrite redirect_to_home_run. exact Hnet. }
  destruct (empty_or_not (field (urllib.parse_qs text) (txt "message")))
    as [Hm|Hm].
  { left. rewrite send_to_socket_missing by (now right).
    match goal with
    | |- context [send_error_page env depth ?s0] =>
      destruct (send_error_page_quiet env depth s0) as (_ & Hnet);
        destruct (send_error_page env depth s0) as [[[]|e] s1]
    end; cbn [snd net] in *; [|exact Hnet].
    rewrite redirect_to_home_run. exact Hnet. }
  right. exists (field (urllib.parse_qs text) (txt "username")),
          (field (urllib.parse_qs text) (txt "message")).
  rewrite (send_to_socket_delivers env depth s Hu Hm).
  rewrite redirect_to_home_run. cbn [fst snd net].
  repeat split; auto; apply (field_scalar _ _ Hd).
Qed.

(** X1. Whatever the request, a POST opens no socket at all, or exactly
    one, to the configured address of the socket server; on it it sends at
    most once, and it closes it in every case. *)
Theorem post_opens_at_most_one_socket env self :
  let traffic := net (snd (do_POST env self HState0)) in
  let connect :=
    SockConnect (SOCKET_HOST (cfg env)) (SOCKET_PORT (cfg env)) in
  traffic = []
  \/ traffic = [SockOpen; connect; SockClose]
  \/ exists payload,
      traffic = [SockOpen; connect; SockSendall payload; SockClose].
Proof.
  intros traffic connect. subst traffic connect.
  destruct (do_POST_traffic env self HState0) as [E | (u & m & _ & _ & _ & _ & E)];
    rewrite E; cbn [net HState0 app]; [now left|right].
  destruct (transport env); cbn [app]; eauto.
Qed.

(** X2. Whatever the request, what a POST sends to the socket server is
    the JSON text of a message whose [username] and [message] are both
    non-empty.  The socket server reads the first 1024 bytes of it: when
    the text is no longer than that, its parser reads it back as the object
    with these two strings; when it is longer, what is read does not
    parse. *)
Theorem post_payload_read_back env self p :
  In (SockSendall p) (net (snd (do_POST env self HState0))) ->
  exists u m : str,
    u <> [] /\ m <> [] /\ p = payload_of u m
    /\ (List.length p <= 1024 ->
        parse_payload (firstn 1024 p)
        = Ok (PDict [(txt "username", PStr u); (txt "message", PStr m)]))
    /\ (1024 < List.length p ->
        parse_payload (firstn 1024 p) = Raise JSONDecodeError).
Proof.
  destruct (do_POST_traffic env self HState0)
    as [E | (u & m & Hu & Hm & Hsu & Hsm & E)];
    rewrite E; cbn [net HState0 app]; [intros []|].
  intros Hin.
  assert (Hp : p = payload_of u m).
  { destruct (transport env); cbn [app] in Hin;
      repeat (destruct Hin as [Hin|Hin]; try discriminate Hin);
      try contradiction; now injection Hin as <-. }
  exists u, m. subst p. repeat split; auto.
  - intros Hfit. rewrite firstn_all2 by exact Hfit.
    now apply parse_payload_of.
  - intros Hlong. now apply parse_cut_payload.
Qed.

(** X2 on a run. *)
Lemma post_payload_read_back_witness :
  let p := payload_of (txt "alice") (txt "hello") in
  exists u m : str,
    u <> [] /\ m <> [] /\ p = payload_of u m
    /\ (List.length p <= 1024 ->
        parse_payload (firstn 1024 p)
        = Ok (PDict [(txt "username", PStr u); (txt "message", PStr m)]))
    /\ (1024 < List.length p ->
        parse_payload (firstn 1024 p) = Raise JSONDecodeError).
Proof.
  refine (@post_payload_read_back
            (Demo.henv Demo.site Reachable)
            (Demo.request "/message" [("Content-Length", "28")]%string
                          "username=alice&message=hello")
            (payload_of (txt "alice") (txt "hello")) _).
  vm_compute. right. right. left. reflexivity.
Defined.

(** X3 on a run: a form without [message]. *)
Lemma do_POST_missing_field_witness :
  do_POST (Demo.henv Demo.site Reachable)
          (Demo.request "/message" [("Content-Length", "14")]%string
                        "username=alice")
          HState0
  = (Ok tt,
     {| wfile := page 404 (txt "text/html") (blit "<h1>404</h1>") ++ redirect;
        hlog := [(ERROR, MissingFields)];
        net := [] |}).
Proof.
  refine (do_POST_missing_field
            (Demo.henv Demo.site Reachable)
            (Demo.request "/message" [("Content-Length", "14")]%string
                          "username=alice")
            (n := 14) (body := blit "username=alice")
            (text := txt "username=alice")
            eq_refl eq_refl eq_refl eq_refl (or_intror eq_refl) eq_refl _).
  vm_compute. lia.
Defined.

(** X4. Only [/message] is the message endpoint: a POST to any other path
    (a query string or a trailing slash make it another path) is answered
    like an unknown page, with the error page under status 404; the body is
    not read and no socket is opened. *)
Theorem post_elsewhere_gets_error_page env self content s :
  path self <> txt "/message" ->
  open_rb (fs env) (txt "error.html") = Ok content ->
  2 <= frames env ->
  do_POST env self s
  = (Ok tt, {| wfile := wfile s ++ page 404 (txt "text/html") content;
               hlog := hlog s; net := net s |}).
Proof.
  intros Hp Herr Hf. unfold do_POST.
  destruct (str_eqb (path self) (txt "/message")) eqn:E.
  - apply str_eqb_eq in E. contradiction.
  - destruct (frames env) as [|[|depth]]; try lia.
    now apply send_error_page_ok.
Qed.

(** X4 on a run: the endpoint with a query string. *)
Lemma post_elsewhere_gets_error_page_witness :
  do_POST (Demo.henv Demo.site Reachable)
          (Demo.request "/message?from=form"
                        [("Content-Length", "28")]%string
                        "username=alice&message=hello")
          HState0
  = (Ok tt, {| wfile := [] ++ page 404 (txt "text/html") (blit "<h1>404</h1>");
               hlog := []; net := [] |}).
Proof.
  refine (@post_elsewhere_gets_error_page
            (Demo.henv Demo.site Reachable)
            (Demo.request "/message?from=form"
                          [("Content-Length", "28")]%string
                          "username=alice&message=hello")
            (blit "<h1>404</h1>") HState0 _ eq_refl _).
  - vm_compute. discriminate.
  - vm_compute. lia.
Defined.

(** X5. A form which is not UTF-8 stops [do_POST] with
    [UnicodeDecodeError] before anything is done: nothing is logged, sent or
    written. *)
Theorem post_body_not_utf8_raises env self n body s :
  path self = txt "/message" ->
  py_int (headers_get (headers self) (txt "Content-Length")) = Ok n ->
  rfile_read (memory env) (rfile self) n = Ok body ->
  decode_utf8 body = None ->
  do_POST env self s = (Raise UnicodeDecodeError, s).
Proof.
  intros Hp Hn Hb Hd. unfold do_POST. rewrite Hp.
  change (str_eqb (txt "/message") (txt "/message")) with true. cbv iota.
  unfold bind at 1, lift at 1. rewrite Hn.
  unfold bind at 1, lift at 1. rewrite Hb.
  unfold bind at 1, lift at 1. rewrite Hd. reflexivity.
Qed.

(** X5 on a run: a form in Latin-1, [username=] followed by the byte
    [0xE9]. *)
Lemma post_body_not_utf8_raises_witness :
  do_POST (Demo.henv Demo.site Reachable)
          {| path := txt "/message";
             headers := [(txt "Content-Length", txt "10")];
             rfile := blit "username=" ++ [xe9] |}
          HState0
  = (Raise UnicodeDecodeError, HState0).
Proof.
  exact (post_body_not_utf8_raises
           (Demo.henv Demo.site Reachable)
           {| path := txt "/message";
              headers := [(txt "Content-Length", txt "10")];
              rfile := blit "username=" ++ [xe9] |}
           (n := 10) (body := blit "username=" ++ [xe9])
           HState0 eq_refl eq_refl eq_refl eq_refl).
Defined.

(* ================================================================== *)
(** * The socket server on every connection *)
(* ================================================================== *)

(** ** One connection *)

(** The store after a connection is the store before with the document of
    the connection put through one insert attempt. *)
Lemma handler_sink conn addr coll s :
  sink (snd (handle_socket_connection conn addr coll s))
  = fold_left (store coll) (stamped (clock s) conn) (sink s).
Proof.
  unfold stamped. run_handler.
  destruct (recv_error conn); simpl;
    [rewrite issubclass_Exception; reflexivity|].
  destruct data as [|b data]; simpl; [reflexivity|].
  destruct (parse_payload (b :: data)) as [v|e]; simpl;
    [|rewrite issubclass_Exception; reflexivity].
  destruct v; simpl; try reflexivity.
  unfold store.
  destruct (verdict (sink s) _); simpl; try rewrite issubclass_Exception;
    reflexivity.
Qed.

Lemma stamped_at_most_one now conn : List.length (stamped now conn) <= 1.
Proof.
  unfold stamped. destruct (recv_error conn); [cbn; lia|].
  destruct (parse_payload _) as [[]|]; cbn; lia.
Qed.

(** X13. A connection adds at most one document, to the collection it was
    given, and never alters or removes one: the store after it is the store
    before, or the store before with the dated object of the connection
    appended. *)
Theorem connection_stores_at_most_one_document conn addr coll s :
  let after := sink (snd (handle_socket_connection conn addr coll s)) in
  after = sink s
  \/ exists doc,
      stamped (clock s) conn = [doc]
      /\ verdict (sink s) doc = None
      /\ after = put_document coll doc (sink s).
Proof.
  intros after. subst after. rewrite handler_sink.
  pose proof (stamped_at_most_one (clock s) conn) as Hlen.
  destruct (stamped (clock s) conn) as [|doc [|doc' rest]];
    cbn [List.length] in Hlen; try lia; cbn [fold_left].
  - now left.
  - unfold store. destruct (verdict (sink s) doc) eqn:Hv; [now left|].
    right. exists doc. auto.
Qed.

(** X14. When the read from a connection fails, the failure is logged with
    the address of the peer, nothing is inserted and the connection is
    closed; the handler returns normally. *)
Theorem recv_failure_logged_and_closed conn addr coll s e :
  recv_error conn = Some e ->
  handle_socket_connection conn addr coll s
  = (Ok tt, {| sink := sink s;
               llog := llog s ++ [(ERROR, RequestFailed addr e)];
               srv := srv s ++ [ConnClose (peer conn)];
               clock := clock s |}).
Proof.
  intros Hr. run_handler. rewrite Hr. simpl.
  rewrite issubclass_Exception. reflexivity.
Qed.

(** X14 on a run: the peer resets the connection. *)
Lemma recv_failure_logged_and_closed_witness :
  handle_socket_connection
    {| peer := Demo.client; inflight := [];
       recv_error := Some ConnectionResetError |}
    Demo.client (DB_NAME Demo.config, COLLECTION_NAME Demo.config)
    (LState0 Demo.empty_sink 1700000000)
  = (Ok tt,
     {| sink := Demo.empty_sink;
        llog := [] ++ [(ERROR, RequestFailed Demo.client ConnectionResetError)];
        srv := [] ++ [ConnClose Demo.client];
        clock := 1700000000 |}).
Proof.
  exact (recv_failure_logged_and_closed
           {| peer := Demo.client; inflight := [];
              recv_error := Some ConnectionResetError |}
           Demo.client (DB_NAME Demo.config, COLLECTION_NAME Demo.config)
           (LState0 Demo.empty_sink 1700000000) eq_refl).
Defined.

(** X15 on a run: a peer which connects and sends nothing. *)
Lemma handler_empty_witness :
  handle_socket_connection
    (Demo.conn []) Demo.client
    (DB_NAME Demo.config, COLLECTION_NAME Demo.config)
    (LState0 Demo.empty_sink 1700000000)
  = (Ok tt,
     {| sink := Demo.empty_sink; llog := [];
        srv := [] ++ [ConnClose Demo.client]; clock := 1700000000 |}).
Proof.
  exact (handler_empty
           (Demo.conn []) Demo.client
           (DB_NAME Demo.config, COLLECTION_NAME Demo.config)
           (LState0 Demo.empty_sink 1700000000) eq_refl eq_refl).
Defined.

(** X16 on a run: a JSON array. *)
Lemma handler_not_an_object_witness :
  handle_socket_connection
    (Demo.conn (blit "[1, 2]")) Demo.client
    (DB_NAME Demo.config, COLLECTION_NAME Demo.config)
    (LState0 Demo.empty_sink 1700000000)
  = (Ok tt,
     {| sink := Demo.empty_sink;
        llog := [] ++ [(ERROR, RequestFailed Demo.client TypeError)];
        srv := [] ++ [ConnClose Demo.client]; clock := 1700000000 |}).
Proof.
  refine (handler_not_an_object
            (Demo.conn (blit "[1, 2]")) Demo.client
            (DB_NAME Demo.config, COLLECTION_NAME Demo.config)
            (LState0 Demo.empty_sink 1700000000)
            (v := PList [PInt 1; PInt 2]) eq_refl eq_refl _).
  intros d. discriminate.
Defined.

(** X17 on a run: the store refuses every document as a duplicate. *)
Lemma handler_object_refused_witness :
  let full := {| collections := fun _ _ => [];
                 verdict := fun _ => Some DuplicateKeyError |} in
  handle_socket_connection
    (Demo.conn (qblit "{'username': 'alice', 'message': 'hello'}"))
    Demo.client (DB_NAME Demo.config, COLLECTION_NAME Demo.config)
    (LState0 full 1700000000)
  = (Ok tt,
     {| sink := full;
        llog := [] ++ [(ERROR, InsertFailed DuplicateKeyError)];
        srv := [] ++ [ConnClose Demo.client]; clock := 1700000000 |}).
Proof.
  exact (handler_object_refused
           (Demo.conn (qblit "{'username': 'alice', 'message': 'hello'}"))
           Demo.client (DB_NAME Demo.config, COLLECTION_NAME Demo.config)
           (LState0 {| collections := fun _ _ => [];
                       verdict := fun _ => Some DuplicateKeyError |}
                    1700000000)
           (d := [(txt "username", PStr (txt "alice"));
                  (txt "message", PStr (txt "hello"))])
           eq_refl eq_refl eq_refl).
Defined.

(** ** The accept loop *)

Lemma serve_cons coll conn rest s :
  serve coll (conn :: rest) s
  = serve coll rest
      (snd (handle_socket_connection conn (peer conn) coll
              {| sink := sink s; llog := llog s;
                 srv := srv s ++ [Accept (peer conn)];
                 clock := clock s |})).
Proof.
  cbn [serve]. unfold thread_start, bind, srv_call, modify. reflexivity.
Qed.

(** The accept loop never raises; every connection is accepted and closed;
    the store is the store before with the documents of the connections put
    through. *)
Lemma serve_effects coll arrivals :
  forall s,
    exists s',
      serve coll arrivals s = (Ok tt, s')
      /\ srv s' = srv s ++ served arrivals
      /\ clock s' = clock s
      /\ sink s'
         = fold_left (store coll) (flat_map (stamped (clock s)) arrivals)
                     (sink s).
Proof.
  induction arrivals as [|conn rest IH]; intros s.
  - exists s. cbn. rewrite app_nil_r. auto.
  - rewrite serve_cons.
    set (s0 := {| sink := sink s; llog := llog s;
                  srv := srv s ++ [Accept (peer conn)];
                  clock := clock s |}).
    destruct (handler_total conn (peer conn) coll s0) as (s1 & E & Hsrv & Hclk).
    pose proof (handler_sink conn (peer conn) coll s0) as Hsink.
    rewrite E in *. cbn [snd] in *.
    destruct (IH s1) as (s' & Es & Hsrv' & Hclk' & Hsink').
    exists s'. split; [exact Es|]. split; [|split].
    + rewrite Hsrv', Hsrv. unfold s0. cbn [srv served flat_map].
      rewrite <- !app_assoc. reflexivity.
    + rewrite Hclk', Hclk. reflexivity.
    + rewrite Hsink', Hsink, Hclk. unfold s0. cbn [sink clock flat_map].
      rewrite fold_left_app. reflexivity.
Qed.

(** The calls of the accept loop: one [accept] and one [close] per
    connection. *)
Lemma served_calls arrivals :
  Permutation (served arrivals)
              (map (fun c => Accept (peer c)) arrivals
               ++ map (fun c => ConnClose (peer c)) arrivals).
Proof.
  induction arrivals as [|c rest IH]; [constructor|].
  cbn [served flat_map map app]. constructor.
  now apply Permutation_cons_app.
Qed.

(** A store which accepts every document keeps them all. *)
Lemma store_all_accepting coll docs :
  forall k,
    (forall d, verdict k d = None) ->
    (forall d, verdict (fold_left (store coll) docs k) d = None)
    /\ collections (fold_left (store coll) docs k) (fst coll) (snd coll)
       = collections k (fst coll) (snd coll) ++ docs
    /\ (forall db name,
           str_eqb db (fst coll) && str_eqb name (snd coll) = false ->
           collections (fold_left (store coll) docs k) db name
           = collections k db name).
Proof.
  induction docs as [|doc docs IH]; intros k Hacc.
  - cbn. rewrite app_nil_r. auto.
  - cbn [fold_left].
    assert (Es : store coll k doc = put_document coll doc k)
      by (unfold store; now rewrite Hacc).
    rewrite Es.
    destruct (IH (put_document coll doc k)) as (Hv & Hc & Ho);
      [intros d; apply Hacc|].
    split; [exact Hv|]. split.
    + rewrite Hc. cbn [put_document collections].
      rewrite !str_eqb_refl. cbn [andb]. rewrite <- app_assoc. reflexivity.
    + intros db name Hne. rewrite (Ho db name Hne).
      cbn [put_document collections]. now rewrite Hne.
Qed.

(** X18. Once started, the socket server binds the configured address and
    listens with a backlog of 5; after that its socket calls are one
    [accept] and one [close] for every connection that arrives: the loop
    goes on whatever a connection carries, and no connection is left
    open. *)
Theorem socket_server_serves_every_connection env arrivals s :
  ping env = None ->
  bind_error env = None ->
  exists s' calls,
    run_socket_server env arrivals s = (Ok tt, s')
    /\ srv s'
       = srv s
         ++ [Bind (SOCKET_HOST (lcfg env)) (SOCKET_PORT (lcfg env)); Listen 5]
         ++ calls
    /\ Permutation calls
                   (map (fun c => Accept (peer c)) arrivals
                    ++ map (fun c => ConnClose (peer c)) arrivals).
Proof.
  intros Hp Hb. rewrite (run_socket_server_started env arrivals s Hp Hb).
  match goal with
  | |- context [serve ?c arrivals ?s0] =>
    destruct (serve_effects c arrivals s0) as (s' & E & Hsrv & _)
  end.
  exists s', (served arrivals). split; [exact E|]. split.
  - rewrite Hsrv. cbn [srv]. rewrite <- !app_assoc. reflexivity.
  - apply served_calls.
Qed.

(** X18 on a run: an object, an array and a silent peer. *)
Lemma socket_server_serves_every_connection_witness :
  let arrivals :=
    [Demo.conn (qblit "{'username': 'alice', 'message': 'hello'}");
     Demo.conn (blit "[1, 2]"); Demo.conn []] in
  exists s' calls,
    run_socket_server (Demo.lenv None) arrivals
                      (LState0 Demo.empty_sink 1700000000)
    = (Ok tt, s')
    /\ srv s'
       = [] ++ [Bind (txt "127.0.0.1") 5000; Listen 5] ++ calls
    /\ Permutation calls
                   (map (fun c => Accept (peer c)) arrivals
                    ++ map (fun c => ConnClose (peer c)) arrivals).
Proof.
  exact (socket_server_serves_every_connection
           (Demo.lenv None)
           [Demo.conn (qblit "{'username': 'alice', 'message': 'hello'}");
            Demo.conn (blit "[1, 2]"); Demo.conn []]
           (LState0 Demo.empty_sink 1700000000) eq_refl eq_refl).
Defined.

(** X19. With a store that accepts every insert, the configured collection
    gains one document for every connection that carries a JSON object -
    the object, dated - and none for the others, and no other collection
    changes: no document is lost, duplicated or stored elsewhere. *)
Theorem socket_server_stores_one_document_per_object env arrivals s :
  ping env = None ->
  bind_error env = None ->
  (forall d, verdict (sink s) d = None) ->
  let after := sink (snd (run_socket_server env arrivals s)) in
  Permutation
    (collections after (DB_NAME (lcfg env)) (COLLECTION_NAME (lcfg env)))
    (collections (sink s) (DB_NAME (lcfg env)) (COLLECTION_NAME (lcfg env))
     ++ flat_map (stamped (clock s)) arrivals)
  /\ (forall db name,
         str_eqb db (DB_NAME (lcfg env))
         && str_eqb name (COLLECTION_NAME (lcfg env)) = false ->
         collections after db name = collections (sink s) db name).
Proof.
  intros Hp Hb Hacc after. subst after.
  rewrite (run_socket_server_started env arrivals s Hp Hb).
  match goal with
  | |- context [serve ?c arrivals ?s0] =>
    destruct (serve_effects c arrivals s0) as (s' & E & _ & _ & Hsink)
  end.
  rewrite E. cbn [snd]. rewrite Hsink. cbn [sink clock].
  destruct (store_all_accepting
              (DB_NAME (lcfg env), COLLECTION_NAME (lcfg env))
              (flat_map (stamped (clock s)) arrivals) (sink s) Hacc)
    as (_ & Hc & Ho).
  cbn [fst snd] in Hc, Ho. rewrite Hc. split; [apply Permutation_refl|auto].
Qed.

(** X19 on a run: of an object, an array, a silent peer and a second
    object, the two objects are stored. *)
Lemma socket_server_stores_one_document_per_object_witness :
  let arrivals :=
    [Demo.conn (qblit "{'username': 'alice', 'message': 'hello'}");
     Demo.conn (blit "[1, 2]"); Demo.conn [];
     Demo.conn (qblit "{'username': 'bob', 'message': 'again'}")] in
  let s := LState0 Demo.empty_sink 1700000000 in
  let after := sink (snd (run_socket_server (Demo.lenv None) arrivals s)) in
  Permutation
    (collections after (txt "messages_db") (txt "messages"))
    ([] ++ flat_map (stamped 1700000000) arrivals)
  /\ (forall db name,
         str_eqb db (txt "messages_db") && str_eqb name (txt "messages")
         = false ->
         collections after db name = []).
Proof.
  exact (socket_server_stores_one_document_per_object
           (Demo.lenv None)
           [Demo.conn (qblit "{'username': 'alice', 'message': 'hello'}");
            Demo.conn (blit "[1, 2]"); Demo.conn [];
            Demo.conn (qblit "{'username': 'bob', 'message': 'again'}")]
           (LState0 Demo.empty_sink 1700000000)
           eq_refl eq_refl (fun _ => eq_refl)).
Defined.

(** The documents of the run above. *)
Example two_objects_stored :
  flat_map (stamped 1700000000)
    [Demo.conn (qblit "{'username': 'alice', 'message': 'hello'}");
     Demo.conn (blit "[1, 2]"); Demo.conn [];
     Demo.conn (qblit "{'username': 'bob', 'message': 'again'}")]
  = [[(txt "username", PStr (txt "alice"));
      (txt "message", PStr (txt "hello"));
      (txt "date", PDatetime 1700000000)];
     [(txt "username", PStr (txt "bob"));
      (txt "message", PStr (txt "again"));
      (txt "date", PDatetime 1700000000)]].
Proof. vm_compute. reflexivity. Qed.

(** ** Start-up *)

(** X20. Only a [ConnectionFailure] of the start-up check is handled: any
    other exception of the check leaves [run_socket_server] as it is, with
    nothing logged and no socket bound. *)
Theorem socket_server_startup_error_propagates env arrivals s e :
  ping env = Some e ->
  issubclass e ConnectionFailure = false ->
  run_socket_server env arrivals s = (Raise e, s).
Proof.
  intros Hp He.
  unfold run_socket_server, try_except, bind, llogging, modify, raise, ret.
  rewrite Hp. cbn -[issubclass]. rewrite He. reflexivity.
Qed.

(** X20 on a run: the store answers the [ping] with an authentication
    error. *)
Lemma socket_server_startup_error_propagates_witness :
  run_socket_server (Demo.lenv (Some OperationFailure))
                    [Demo.conn (blit "{}")]
                    (LState0 Demo.empty_sink 1700000000)
  = (Raise OperationFailure, LState0 Demo.empty_sink 1700000000).
Proof.
  exact (socket_server_startup_error_propagates
           (Demo.lenv (Some OperationFailure)) [Demo.conn (blit "{}")]
           (LState0 Demo.empty_sink 1700000000) eq_refl eq_refl).
Defined.

(** X21. When [bind] fails the exception leaves [run_socket_server]: the
    store check has been logged, and the server neither listens nor
    accepts. *)
Theorem socket_server_bind_error_propagates env arrivals s e :
  ping env = None ->
  bind_error env = Some e ->
  run_socket_server env arrivals s
  = (Raise e,
     {| sink := sink s; llog := llog s ++ [(INFO, MongoConnected)];
        srv := srv s ++ [Bind (SOCKET_HOST (lcfg env))
                              (SOCKET_PORT (lcfg env))];
        clock := clock s |}).
Proof.
  intros Hp Hb.
  unfold run_socket_server, try_except, bind, llogging, srv_call, modify,
    raise, ret.
  rewrite Hp, Hb. reflexivity.
Qed.

(** X21 on a run: the port is taken. *)
Lemma socket_server_bind_error_propagates_witness :
  run_socket_server
    {| lcfg := Demo.config; ping := None; bind_error := Some OSError |}
    [Demo.conn (blit "{}")]
    (LState0 Demo.empty_sink 1700000000)
  = (Raise OSError,
     {| sink := Demo.empty_sink; llog := [] ++ [(INFO, MongoConnected)];
        srv := [] ++ [Bind (txt "127.0.0.1") 5000];
        clock := 1700000000 |}).
Proof.
  exact (socket_server_bind_error_propagates
           {| lcfg := Demo.config; ping := None; bind_error := Some OSError |}
           [Demo.conn (blit "{}")]
           (LState0 Demo.empty_sink 1700000000) eq_refl eq_refl).
Defined.
